(** * qualys-mcp: the tool dispatcher of [src/index.ts], embedded and verified

    First the JavaScript values the dispatcher handles, with
    [encodeURIComponent] and [buildFormData]; then the module-level state,
    what axios does to the data of a request and, in the order of the
    source, [getApiClient], [rateLimitedRequest], [parseXmlResponse],
    [handleApiError], [checkCredentials] and [handleToolCall]; then the
    event loop for callers that overlap, xml2js on plain documents
    and the registry of tools; and finally the theorems. *)

From Stdlib Require Import ZArith NArith List String Ascii Bool Lia DecimalString.
Import ListNotations.

Set Implicit Arguments.
Local Set Warnings "-register-all".

(** ** JavaScript strings

    A string is a sequence of UTF-16 code units.  Literals of the source are
    ASCII and are written [lit "..."]. *)

Definition code_unit := N.
Definition jsstring := list code_unit.

Definition lit (s : string) : jsstring :=
  map N_of_ascii (list_ascii_of_string s).
Arguments lit : simpl never.

Fixpoint str_eqb (a b : jsstring) : bool :=
  match a, b with
  | [], [] => true
  | x :: a', y :: b' => N.eqb x y && str_eqb a' b'
  | _, _ => false
  end.

(** [Array.prototype.join] on an array of strings. *)
Fixpoint join (sep : jsstring) (parts : list jsstring) : jsstring :=
  match parts with
  | [] => []
  | [p] => p
  | p :: rest => p ++ sep ++ join sep rest
  end.

(** [s.includes(t)], as a proposition. *)
Definition includes (s t : jsstring) : Prop :=
  exists before after, s = before ++ t ++ after.

(** ** JavaScript values

    The argument bag of a tool call is [Record<string, unknown>]: whatever
    the JSON of the request held.  Numbers are the integer-valued ones (the
    schemas declare limits, identifiers and day counts), and what is said
    of how they print is JavaScript's for the safe integers; an object
    keeps its properties in the order in which they were created. *)

Inductive jsvalue : Type :=
| JUndefined
| JNull
| JBool (b : bool)
| JNumber (z : Z)
| JString (s : jsstring)
| JArray (items : list jsvalue)
| JObject (props : list (jsstring * jsvalue)).

Definition jsobject := list (jsstring * jsvalue).

(** The integers a JavaScript number holds exactly, from -(2^53 - 1) to
    2^53 - 1: [String(n)] is the decimal numeral of such a number.  (Beyond
    them it rounds, and from 10^21 on it uses an exponent.) *)
Definition is_safe_integer (z : Z) : bool :=
  ((-9007199254740991 <=? z) && (z <=? 9007199254740991))%Z%bool.

(** [String(n)] for a safe integer. *)
Definition Number_toString (z : Z) : jsstring :=
  lit (NilZero.string_of_int (Z.to_int z)).

(** The string form of a value that has one.  An array joins its elements
    with a comma, [null] and [undefined] elements giving the empty string;
    a plain object gives ["[object Object]"]. *)
Fixpoint ToString (v : jsvalue) : jsstring :=
  match v with
  | JUndefined => lit "undefined"
  | JNull => lit "null"
  | JBool true => lit "true"
  | JBool false => lit "false"
  | JNumber z => Number_toString z
  | JString s => s
  | JArray items =>
      (fix elements (l : list jsvalue) : jsstring :=
         match l with
         | [] => []
         | x :: rest =>
             let here := match x with
                         | JUndefined | JNull => []
                         | _ => ToString x
                         end in
             match rest with
             | [] => here
             | _ :: _ => here ++ lit "," ++ elements rest
             end
         end) items
  | JObject _ => lit "[object Object]"
  end.

(** The values that have a string form.  An object of the JSON of a
    request has the [toString] of [Object.prototype] unless it has a
    property of that name of its own, which no JSON value makes callable;
    [valueOf] then gives no primitive either.  An array converts its
    elements. *)
Fixpoint has_string_form (v : jsvalue) : bool :=
  match v with
  | JArray items => forallb has_string_form items
  | JObject props => negb (existsb (fun p => str_eqb (fst p) (lit "toString")) props)
  | _ => true
  end.

(** The numbers of a value that [String] prints are safe integers. *)
Fixpoint prints_exactly (v : jsvalue) : bool :=
  match v with
  | JNumber z => is_safe_integer z
  | JArray items => forallb prints_exactly items
  | _ => true
  end.

(** [ToBoolean(v)]: what [if (v)], [!v], [v || d] and [v ? a : b] test. *)
Definition truthy (v : jsvalue) : bool :=
  match v with
  | JUndefined | JNull => false
  | JBool b => b
  | JNumber z => negb (Z.eqb z 0)
  | JString s => match s with [] => false | _ :: _ => true end
  | JArray _ | JObject _ => true
  end.

(** [a || b]. *)
Definition js_or (a b : jsvalue) : jsvalue := if truthy a then a else b.

(** [v === undefined], [v === ""], [v === false], [v === "..."]. *)
Definition is_undefined (v : jsvalue) : bool :=
  match v with JUndefined => true | _ => false end.

Definition is_string (v : jsvalue) (s : jsstring) : bool :=
  match v with JString t => str_eqb t s | _ => false end.

Definition is_false (v : jsvalue) : bool :=
  match v with JBool false => true | _ => false end.

(** *** Objects and the order of their properties *)

(** [o.k] (an own data property, [undefined] when absent). *)
Fixpoint prop_get (k : jsstring) (o : jsobject) : jsvalue :=
  match o with
  | [] => JUndefined
  | (k', v) :: rest => if str_eqb k k' then v else prop_get k rest
  end.

(** [o.k = v]: an existing property keeps its place, a new one goes last. *)
Fixpoint prop_set (k : jsstring) (v : jsvalue) (o : jsobject) : jsobject :=
  match o with
  | [] => [(k, v)]
  | (k', v') :: rest =>
      if str_eqb k k' then (k', v) :: rest else (k', v') :: prop_set k v rest
  end.

(** An object literal [{k1: v1, k2: v2, ...}] defines its properties from
    left to right. *)
Definition object_literal (props : list (jsstring * jsvalue)) : jsobject :=
  fold_left (fun o kv => prop_set (fst kv) (snd kv) o) props [].

Definition digit_value (c : code_unit) : option N :=
  if (N.leb 48 c && N.leb c 57)%bool then Some (c - 48)%N else None.

Fixpoint decimal_value (s : jsstring) (acc : N) : option N :=
  match s with
  | [] => Some acc
  | c :: rest =>
      match digit_value c with
      | Some d => decimal_value rest (10 * acc + d)%N
      | None => None
      end
  end.

(** A property key is an array index when it is the canonical decimal
    numeral of an integer from 0 to 2^32 - 2. *)
Definition array_index (k : jsstring) : option N :=
  match k with
  | [] => None
  | c :: rest =>
      match rest with
      | _ :: _ => if N.eqb c 48 then None else
                    match decimal_value k 0 with
                    | Some n => if N.leb n 4294967294 then Some n else None
                    | None => None
                    end
      | [] => digit_value c
      end
  end.

Definition is_array_index (k : jsstring) : bool :=
  match array_index k with Some _ => true | None => false end.

Fixpoint insert_by_index (x : N * (jsstring * jsvalue))
         (l : list (N * (jsstring * jsvalue))) : list (N * (jsstring * jsvalue)) :=
  match l with
  | [] => [x]
  | y :: rest =>
      if N.leb (fst x) (fst y) then x :: l else y :: insert_by_index x rest
  end.

Definition indexed (o : jsobject) : list (N * (jsstring * jsvalue)) :=
  flat_map (fun e => match array_index (fst e) with
                     | Some n => [(n, e)]
                     | None => []
                     end) o.

(** [Object.entries(o)]: the array-index keys first, in ascending numeric
    order, then the other string keys in the order of their creation. *)
Definition Object_entries (o : jsobject) : list (jsstring * jsvalue) :=
  map snd (fold_right insert_by_index [] (indexed o))
  ++ filter (fun e => negb (is_array_index (fst e))) o.

(** *** The arguments of a tool call

    [request.params.arguments] is optional (line 1005): [args] is the
    argument object of the request, or [undefined] when the request came
    without one.  An argument object written where the arguments of a call
    are expected stands for the call that carries it. *)

Inductive ToolArguments : Type :=
| Omitted
| Given (o : jsobject).

Coercion Given : jsobject >-> ToolArguments.

(** ** Failures

    What a [catch] clause can receive: an [AxiosError] (with the response
    when the remote service answered), another [Error] object, or any
    value that was thrown. *)

Record Response : Type := {
  status : Z;
  statusText : jsstring;
  data : jsvalue;
  headers : jsobject
}.

Record AxiosError : Type := {
  message : jsstring;
  code : jsvalue;
  response : option Response
}.

Inductive thrown : Type :=
| Axios (e : AxiosError)
| ErrorObject (name msg : jsstring)
| Value (v : jsvalue).

(** [new Error(m)]. *)
Definition Error (m : string) : thrown := ErrorObject (lit "Error") (lit m).

(** [String(e)] for a caught value; an [Error] prints as [name: message]. *)
Definition Error_toString (name msg : jsstring) : jsstring :=
  match name, msg with
  | [], _ => msg
  | _, [] => name
  | _, _ => name ++ lit ": " ++ msg
  end.

Definition String_of_thrown (e : thrown) : jsstring :=
  match e with
  | Axios a => Error_toString (lit "AxiosError") (message a)
  | ErrorObject name msg => Error_toString name msg
  | Value v => ToString v
  end.

(** The outcome of evaluating an expression that may throw. *)
Inductive completion (A : Type) : Type :=
| Return (a : A)
| Throw (e : thrown).
Arguments Return {A} a.
Arguments Throw {A} e.

Definition cbind {A B} (c : completion A) (k : A -> completion B) : completion B :=
  match c with
  | Return a => k a
  | Throw e => Throw e
  end.

(** [try { c } catch (e) { handler e }]. *)
Definition try_catch {A} (c : completion A) (handler : thrown -> completion A) : completion A :=
  match c with
  | Return a => Return a
  | Throw e => handler e
  end.

Declare Scope completion_scope.
Delimit Scope completion_scope with completion.
Notation "x <-- c ;; k" := (cbind c (fun x => k))
  (at level 61, c at next level, right associativity) : completion_scope.

(** [array.map(f)] for an [f] that may throw: the first failure ends it. *)
Fixpoint map_throwing {A B} (f : A -> completion B) (l : list A) : completion (list B) :=
  match l with
  | [] => Return []
  | a :: rest =>
      (b <-- f a ;; bs <-- map_throwing f rest ;; Return (b :: bs))%completion
  end.

(** [String(v)]: the string form, or a [TypeError] when there is none. *)
Definition cannot_convert : thrown :=
  ErrorObject (lit "TypeError") (lit "Cannot convert object to primitive value").

Definition String_of_value (v : jsvalue) : completion jsstring :=
  if has_string_form v then Return (ToString v) else Throw cannot_convert.

(** ** encodeURIComponent *)

Definition in_range (lo hi c : N) : bool := (N.leb lo c && N.leb c hi)%bool.

(** The characters [encodeURIComponent] leaves alone:
    [A-Z a-z 0-9 - _ . ! ~ * ' ( )]. *)
Definition unreserved (c : code_unit) : bool :=
  (in_range 65 90 c || in_range 97 122 c || in_range 48 57 c
   || existsb (N.eqb c) (lit "-_.!~*'()"))%bool.

Definition hex_digit (n : N) : code_unit :=
  if N.ltb n 10 then (48 + n)%N else (55 + n)%N.

Definition percent_octet (b : N) : jsstring :=
  [37%N; hex_digit (b / 16); hex_digit (b mod 16)].

Definition utf8 (cp : N) : list N :=
  if N.ltb cp 128 then [cp]
  else if N.ltb cp 2048 then [192 + cp / 64; 128 + cp mod 64]%N
  else if N.ltb cp 65536 then
    [224 + cp / 4096; 128 + (cp / 64) mod 64; 128 + cp mod 64]%N
  else
    [240 + cp / 262144; 128 + (cp / 4096) mod 64;
     128 + (cp / 64) mod 64; 128 + cp mod 64]%N.

Definition percent_escape (cp : N) : jsstring :=
  flat_map percent_octet (utf8 cp).

Definition is_lead_surrogate (c : code_unit) : bool := in_range 55296 56319 c.
Definition is_trail_surrogate (c : code_unit) : bool := in_range 56320 57343 c.

Definition URIError : thrown := ErrorObject (lit "URIError") (lit "URI malformed").

(** Unreserved characters stay; any other code point is written as the
    percent-escaped octets of its UTF-8 form; a surrogate without its
    partner throws [URIError]. *)
Fixpoint encodeURIComponent (s : jsstring) : completion jsstring :=
  match s with
  | [] => Return []
  | c :: rest =>
      if unreserved c then
        (r <-- encodeURIComponent rest ;; Return (c :: r))%completion
      else if is_trail_surrogate c then Throw URIError
      else if is_lead_surrogate c then
        match rest with
        | d :: rest' =>
            if is_trail_surrogate d then
              (r <-- encodeURIComponent rest' ;;
               Return (percent_escape
                         ((c - 55296) * 1024 + (d - 56320) + 65536)%N ++ r))%completion
            else Throw URIError
        | [] => Throw URIError
        end
      else
        (r <-- encodeURIComponent rest ;; Return (percent_escape c ++ r))%completion
  end.

(** ** buildFormData (index.ts, lines 113-118) *)

(** [value !== undefined && value !== ""]. *)
Definition kept (e : jsstring * jsvalue) : bool :=
  (negb (is_undefined (snd e)) && negb (is_string (snd e) []))%bool.

(** [`${encodeURIComponent(key)}=${encodeURIComponent(String(value))}`]. *)
Definition render (e : jsstring * jsvalue) : completion jsstring :=
  (k <-- encodeURIComponent (fst e) ;;
   s <-- String_of_value (snd e) ;;
   v <-- encodeURIComponent s ;;
   Return (k ++ lit "=" ++ v))%completion.

Definition buildFormData (params : jsobject) : completion jsstring :=
  (entries <-- map_throwing render (filter kept (Object_entries params)) ;;
   Return (join (lit "&") entries))%completion.

(** ** Configuration (index.ts, lines 16-18)

    [process.env.X || default], read once when the module is loaded. *)

Record Config : Type := {
  QUALYS_API_URL : jsstring;
  QUALYS_USERNAME : jsstring;
  QUALYS_PASSWORD : jsstring
}.

Definition env_or (v : option jsstring) (default : jsstring) : jsstring :=
  match v with
  | Some (c :: s) => c :: s
  | _ => default
  end.

Definition load_config (env : string -> option jsstring) : Config :=
  {| QUALYS_API_URL := env_or (env "QUALYS_API_URL"%string) (lit "https://qualysapi.qualys.com");
     QUALYS_USERNAME := env_or (env "QUALYS_USERNAME"%string) [];
     QUALYS_PASSWORD := env_or (env "QUALYS_PASSWORD"%string) [] |}.

Definition nonempty (s : jsstring) : bool :=
  match s with [] => false | _ :: _ => true end.

(** ** The HTTP client and the module state (index.ts, lines 20-41) *)

Definition RATE_LIMIT_DELAY_MS : Z := 1000.

Record Agent : Type := {
  keepAlive : bool;
  keepAliveMsecs : Z;
  maxSockets : Z;
  maxFreeSockets : Z
}.

Definition httpAgent : Agent :=
  {| keepAlive := true; keepAliveMsecs := 30000; maxSockets := 10; maxFreeSockets := 5 |}.

Definition httpsAgent : Agent :=
  {| keepAlive := true; keepAliveMsecs := 30000; maxSockets := 10; maxFreeSockets := 5 |}.

(** What [axios.create] returns.  [instance_id] is the identity of the
    object: two constructions never give the same one. *)
Record AxiosInstance : Type := {
  instance_id : nat;
  baseURL : jsstring;
  default_headers : list (jsstring * jsstring);
  timeout : Z;
  client_httpAgent : Agent;
  client_httpsAgent : Agent
}.

(** A request handed to the transport by [client.post(url, data, config)]:
    [body] is what goes on the wire. *)
Record Request : Type := {
  via : AxiosInstance;
  url : jsstring;
  body : jsstring;
  config_headers : list (jsstring * jsstring);
  responseType : option jsstring
}.

(** The module-level variables [lastRequestTime], [apiClient] and
    [cachedAuthHeader], with the part of the world the module acts on: the
    clock read by [Date.now()], the instances and digests made so far, and
    the requests handed to the transport so far. *)
Record State : Type := {
  lastRequestTime : Z;
  apiClient : option AxiosInstance;
  cachedAuthHeader : option jsstring;
  clock : Z;
  instances_created : nat;
  digests_computed : nat;
  sent : list Request
}.

Definition initial_state (start : Z) : State :=
  {| lastRequestTime := 0; apiClient := None; cachedAuthHeader := None;
     clock := start; instances_created := 0; digests_computed := 0; sent := [] |}.

Definition with_lastRequestTime (t : Z) (st : State) : State :=
  {| lastRequestTime := t; apiClient := apiClient st;
     cachedAuthHeader := cachedAuthHeader st; clock := clock st;
     instances_created := instances_created st;
     digests_computed := digests_computed st; sent := sent st |}.

Definition with_apiClient (c : AxiosInstance) (st : State) : State :=
  {| lastRequestTime := lastRequestTime st; apiClient := Some c;
     cachedAuthHeader := cachedAuthHeader st; clock := clock st;
     instances_created := S (instances_created st);
     digests_computed := digests_computed st; sent := sent st |}.

Definition with_cachedAuthHeader (h : jsstring) (st : State) : State :=
  {| lastRequestTime := lastRequestTime st; apiClient := apiClient st;
     cachedAuthHeader := Some h; clock := clock st;
     instances_created := instances_created st;
     digests_computed := S (digests_computed st); sent := sent st |}.

Definition advance_clock (d : Z) (st : State) : State :=
  {| lastRequestTime := lastRequestTime st; apiClient := apiClient st;
     cachedAuthHeader := cachedAuthHeader st; clock := clock st + d;
     instances_created := instances_created st;
     digests_computed := digests_computed st; sent := sent st |}.

Definition with_clock (t : Z) (st : State) : State :=
  {| lastRequestTime := lastRequestTime st; apiClient := apiClient st;
     cachedAuthHeader := cachedAuthHeader st; clock := t;
     instances_created := instances_created st;
     digests_computed := digests_computed st; sent := sent st |}.

Definition with_sent (r : Request) (st : State) : State :=
  {| lastRequestTime := lastRequestTime st; apiClient := apiClient st;
     cachedAuthHeader := cachedAuthHeader st; clock := clock st;
     instances_created := instances_created st;
     digests_computed := digests_computed st; sent := sent st ++ [r] |}.

(** ** Buffer.from(s).toString("base64") *)

(** The UTF-8 octets of a string; a surrogate without its partner becomes
    U+FFFD. *)
Fixpoint utf8_octets (s : jsstring) : list N :=
  match s with
  | [] => []
  | c :: rest =>
      if is_trail_surrogate c then utf8 65533 ++ utf8_octets rest
      else if is_lead_surrogate c then
        match rest with
        | d :: rest' =>
            if is_trail_surrogate d then
              utf8 ((c - 55296) * 1024 + (d - 56320) + 65536)%N ++ utf8_octets rest'
            else utf8 65533 ++ utf8_octets rest
        | [] => utf8 65533
        end
      else utf8 c ++ utf8_octets rest
  end.

Definition base64_digit (n : N) : code_unit :=
  if N.ltb n 26 then (65 + n)%N
  else if N.ltb n 52 then (71 + n)%N
  else if N.ltb n 62 then (n - 4)%N
  else if N.eqb n 62 then 43%N else 47%N.

Fixpoint base64_octets (fuel : nat) (l : list N) : jsstring :=
  match fuel with
  | O => []
  | S fuel' =>
      match l with
      | [] => []
      | [a] => [base64_digit (a / 4); base64_digit ((a mod 4) * 16); 61; 61]%N
      | [a; b] =>
          [base64_digit (a / 4); base64_digit ((a mod 4) * 16 + b / 16);
           base64_digit ((b mod 16) * 4); 61]%N
      | a :: b :: c :: rest =>
          [base64_digit (a / 4); base64_digit ((a mod 4) * 16 + b / 16);
           base64_digit ((b mod 16) * 4 + c / 64); base64_digit (c mod 64)]%N
          ++ base64_octets fuel' rest
      end
  end.

Definition base64 (s : jsstring) : jsstring :=
  let octets := utf8_octets s in base64_octets (S (List.length octets)) octets.

(** ** JSON texts and the request transform of axios

    [JSON.parse] accepts a text exactly when it is one JSON value between
    optional white space (tab, line feed, carriage return, space).
    [JSON.stringify] of a string is the string between quotation marks,
    the quotation mark, the backslash and the control characters escaped
    and a surrogate without its partner written [\uXXXX]. *)

Module Json.

Definition quotation_mark : code_unit := 34%N.

Definition white_space (c : code_unit) : bool :=
  existsb (N.eqb c) [9; 10; 13; 32]%N.

Fixpoint skip (s : jsstring) : jsstring :=
  match s with
  | c :: rest => if white_space c then skip rest else s
  | [] => []
  end.

Definition digit (c : code_unit) : bool := in_range 48 57 c.

Definition hex (c : code_unit) : bool :=
  (digit c || in_range 65 70 c || in_range 97 102 c)%bool.

Fixpoint digits (s : jsstring) : jsstring :=
  match s with
  | c :: rest => if digit c then digits rest else s
  | [] => []
  end.

(** One digit or more. *)
Definition digits1 (s : jsstring) : option jsstring :=
  match s with
  | c :: rest => if digit c then Some (digits rest) else None
  | [] => None
  end.

(** [p] at the head of [s]: what follows it. *)
Fixpoint prefix (p s : jsstring) : option jsstring :=
  match p, s with
  | [], _ => Some s
  | a :: p', b :: s' => if N.eqb a b then prefix p' s' else None
  | _ :: _, [] => None
  end.

(** A string, after its opening quotation mark: what follows the closing
    one.  An escape is a backslash followed by a quotation mark, a
    backslash, a slash, one of the letters b, f, n, r and t, or the letter
    u and four hexadecimal digits. *)
Fixpoint string_rest (s : jsstring) : option jsstring :=
  match s with
  | [] => None
  | c :: rest =>
      if N.eqb c 34 then Some rest
      else if N.eqb c 92 then
        match rest with
        | e :: rest' =>
            if existsb (N.eqb e) [34; 92; 47; 98; 102; 110; 114; 116]%N
            then string_rest rest'
            else if N.eqb e 117 then
              match rest' with
              | h1 :: h2 :: h3 :: h4 :: rest'' =>
                  if (hex h1 && hex h2 && hex h3 && hex h4)%bool
                  then string_rest rest'' else None
              | _ => None
              end
            else None
        | [] => None
        end
      else if N.ltb c 32 then None
      else string_rest rest
  end.

(** A number: an optional minus sign; a zero, or a digit from 1 to 9 and
    further digits; optionally a point and one digit or more; optionally
    the letter e, a sign or none, and one digit or more. *)
Definition number (s : jsstring) : option jsstring :=
  let unsigned :=
    match s with
    | c :: rest => if N.eqb c 45 then rest else s
    | [] => s
    end in
  let integer :=
    match unsigned with
    | c :: rest =>
        if N.eqb c 48 then Some rest
        else if in_range 49 57 c then Some (digits rest)
        else None
    | [] => None
    end in
  match integer with
  | None => None
  | Some s1 =>
      let fraction :=
        match s1 with
        | c :: rest => if N.eqb c 46 then digits1 rest else Some s1
        | [] => Some s1
        end in
      match fraction with
      | None => None
      | Some s2 =>
          match s2 with
          | c :: rest =>
              if (N.eqb c 101 || N.eqb c 69)%bool then
                digits1 match rest with
                        | d :: rest' => if (N.eqb d 43 || N.eqb d 45)%bool then rest' else rest
                        | [] => rest
                        end
              else Some s2
          | [] => Some s2
          end
      end
  end.

(** A value, white space before it allowed: what follows it. *)
Fixpoint value (fuel : nat) (s : jsstring) : option jsstring :=
  match fuel with
  | O => None
  | S fuel' =>
      let member (s : jsstring) : option jsstring :=
        match skip s with
        | q :: r =>
            if N.eqb q 34 then
              match string_rest r with
              | Some r1 =>
                  match skip r1 with
                  | colon :: r2 => if N.eqb colon 58 then value fuel' r2 else None
                  | [] => None
                  end
              | None => None
              end
            else None
        | [] => None
        end in
      match skip s with
      | [] => None
      | c :: rest =>
          if N.eqb c 34 then string_rest rest
          else if N.eqb c 91 then
            match skip rest with
            | [] => None
            | c1 :: r1 =>
                if N.eqb c1 93 then Some r1
                else
                  match value fuel' rest with
                  | Some r =>
                      (fix more (n : nat) (s : jsstring) : option jsstring :=
                         match n with
                         | O => None
                         | S n' =>
                             match skip s with
                             | c2 :: r2 =>
                                 if N.eqb c2 93 then Some r2
                                 else if N.eqb c2 44 then
                                   match value fuel' r2 with
                                   | Some r3 => more n' r3
                                   | None => None
                                   end
                                 else None
                             | [] => None
                             end
                         end) fuel r
                  | None => None
                  end
            end
          else if N.eqb c 123 then
            match skip rest with
            | [] => None
            | c1 :: r1 =>
                if N.eqb c1 125 then Some r1
                else
                  match member rest with
                  | Some r =>
                      (fix more (n : nat) (s : jsstring) : option jsstring :=
                         match n with
                         | O => None
                         | S n' =>
                             match skip s with
                             | c2 :: r2 =>
                                 if N.eqb c2 125 then Some r2
                                 else if N.eqb c2 44 then
                                   match member r2 with
                                   | Some r3 => more n' r3
                                   | None => None
                                   end
                                 else None
                             | [] => None
                             end
                         end) fuel r
                  | None => None
                  end
            end
          else if (N.eqb c 45 || digit c)%bool then number (c :: rest)
          else if N.eqb c 116 then prefix (lit "true") (c :: rest)
          else if N.eqb c 102 then prefix (lit "false") (c :: rest)
          else if N.eqb c 110 then prefix (lit "null") (c :: rest)
          else None
      end
  end.

(** [JSON.parse(text)] does not throw. *)
Definition parses (text : jsstring) : bool :=
  match value (S (List.length text)) text with
  | Some rest => match skip rest with [] => true | _ :: _ => false end
  | None => false
  end.

Definition hex_lower (n : N) : code_unit :=
  if N.ltb n 10 then (48 + n)%N else (87 + n)%N.

Definition unicode_escape (c : code_unit) : jsstring :=
  lit "\u" ++ [hex_lower (c / 4096); hex_lower ((c / 256) mod 16);
               hex_lower ((c / 16) mod 16); hex_lower (c mod 16)].

Fixpoint quote_units (s : jsstring) : jsstring :=
  match s with
  | [] => []
  | c :: rest =>
      if N.eqb c 8 then lit "\b" ++ quote_units rest
      else if N.eqb c 9 then lit "\t" ++ quote_units rest
      else if N.eqb c 10 then lit "\n" ++ quote_units rest
      else if N.eqb c 12 then lit "\f" ++ quote_units rest
      else if N.eqb c 13 then lit "\r" ++ quote_units rest
      else if N.eqb c 34 then [92; 34]%N ++ quote_units rest
      else if N.eqb c 92 then [92; 92]%N ++ quote_units rest
      else if N.ltb c 32 then unicode_escape c ++ quote_units rest
      else if is_trail_surrogate c then unicode_escape c ++ quote_units rest
      else if is_lead_surrogate c then
        match rest with
        | d :: rest' =>
            if is_trail_surrogate d then c :: d :: quote_units rest'
            else unicode_escape c ++ quote_units rest
        | [] => unicode_escape c
        end
      else c :: quote_units rest
  end.

(** [JSON.stringify(s)] for a string [s]. *)
Definition stringify_string (s : jsstring) : jsstring :=
  quotation_mark :: quote_units s ++ [quotation_mark].

(** [text.trim()] for a text [JSON.parse] accepts: the white space around
    the value goes. *)
Definition trim (text : jsstring) : jsstring := rev (skip (rev (skip text))).

End Json.

(** What axios does to the data of a request before it goes on the wire
    (its default [transformRequest]), for data that is a string: under a
    JSON content type the string is sent as it is, trimmed, when it is a
    JSON text already, and serialised as a JSON string otherwise; under any
    other content type it is sent as it is.  The content type is that of
    the request's own headers or else that of the instance, which line 61
    sets to [application/x-www-form-urlencoded]; header names compare
    without regard to case. *)

Definition lower (c : code_unit) : code_unit :=
  if in_range 65 90 c then (c + 32)%N else c.

Definition header_eqb (a b : jsstring) : bool := str_eqb (map lower a) (map lower b).

Fixpoint header (name : jsstring) (hdrs : list (jsstring * jsstring)) : option jsstring :=
  match hdrs with
  | [] => None
  | (k, v) :: rest => if header_eqb k name then Some v else header name rest
  end.

Definition content_type (hdrs : list (jsstring * jsstring)) : jsstring :=
  match header (lit "Content-Type") hdrs with
  | Some v => v
  | None => lit "application/x-www-form-urlencoded"
  end.

(** [s.indexOf(t) > -1]. *)
Fixpoint contains (s t : jsstring) : bool :=
  match Json.prefix t s with
  | Some _ => true
  | None => match s with
            | _ :: rest => contains rest t
            | [] => false
            end
  end.

Definition stringifySafely (rawValue : jsstring) : jsstring :=
  if Json.parses rawValue then Json.trim rawValue else Json.stringify_string rawValue.

Definition transformRequest (hdrs : list (jsstring * jsstring)) (data : jsstring) : jsstring :=
  if contains (content_type hdrs) (lit "application/json")
  then stringifySafely data
  else data.

(** ** The environment

    What the module calls but does not define: the transport behind
    [client.post] (the reply of the remote service, given the requests made
    before, and the time the exchange takes), the timers ([wake now ms] is
    what [Date.now()] reads when a timer set for [ms] milliseconds at the
    reading [now] has fired: timers run on a clock of their own),
    [parseStringPromise] of xml2js with the options of line 88,
    [JSON.stringify] with and without the two-space indentation, and the
    calendar arithmetic of lines 887-889. *)

Record Env : Type := {
  transport : list Request -> Request -> completion Response;
  latency : Request -> N;
  wake : Z -> Z -> Z;
  parseStringPromise : jsvalue -> completion jsvalue;
  JSON_stringify : jsvalue -> jsvalue;
  JSON_stringify_indent2 : jsvalue -> jsvalue;
  iso_date_days_before : Z -> jsvalue -> completion jsstring
}.

(** ** Computations on the module state

    A computation reads and writes the state and either returns or throws;
    what it wrote before throwing stays written. *)

Definition M (A : Type) : Type := State -> completion A * State.

Definition ret {A} (a : A) : M A := fun st => (Return a, st).

Definition throw {A} (e : thrown) : M A := fun st => (Throw e, st).

Definition bind {A B} (m : M A) (k : A -> M B) : M B :=
  fun st =>
    match m st with
    | (Return a, st') => k a st'
    | (Throw e, st') => (Throw e, st')
    end.

Definition lift {A} (c : completion A) : M A := fun st => (c, st).

Declare Scope js_scope.
Delimit Scope js_scope with js.
Notation "x <- m ;; k" := (bind m (fun x => k))
  (at level 61, m at next level, right associativity) : js_scope.
Notation "m ;;; k" := (bind m (fun _ => k))
  (at level 61, right associativity) : js_scope.

(** [Date.now()]. *)
Definition Date_now : M Z := fun st => (Return (clock st), st).

(** The delay [setTimeout] takes: a delay below 1 or above 2^31 - 1
    milliseconds is set to 1. *)
Definition TIMEOUT_MAX : Z := 2147483647.

Definition timer_delay (ms : Z) : Z :=
  if ((ms <? 1) || (TIMEOUT_MAX <? ms))%Z%bool then 1%Z else ms.

(** [await new Promise(resolve => setTimeout(resolve, ms))], for a caller
    that runs alone: it goes on when its timer has fired. *)
Definition sleep (E : Env) (ms : Z) : M unit :=
  fun st => (Return tt, with_clock (wake E (clock st) (timer_delay ms)) st).

Section Server.

Variable E : Env.
Variable cfg : Config.

(** ** getApiClient (index.ts, lines 44-70) *)

Definition getApiClient (st : State) : AxiosInstance * State :=
  match apiClient st with
  | Some client => (client, st)
  | None =>
      let st1 :=
        if (negb (match cachedAuthHeader st with Some h => nonempty h | None => false end)
            && nonempty (QUALYS_USERNAME cfg) && nonempty (QUALYS_PASSWORD cfg))%bool
        then with_cachedAuthHeader
               (lit "Basic " ++ base64 (QUALYS_USERNAME cfg ++ lit ":" ++ QUALYS_PASSWORD cfg))
               st
        else st in
      let client :=
        {| instance_id := instances_created st1;
           baseURL := QUALYS_API_URL cfg;
           default_headers :=
             [(lit "Authorization",
                match cachedAuthHeader st1 with
                | Some (c :: h) => c :: h
                | _ => []
                end);
              (lit "X-Requested-With", lit "qualys-mcp");
              (lit "Content-Type", lit "application/x-www-form-urlencoded")];
           timeout := 120000;
           client_httpAgent := httpAgent;
           client_httpsAgent := httpsAgent |} in
      (client, with_apiClient client st1)
  end.

(** ** rateLimitedRequest (index.ts, lines 73-83) *)

(** Lines 74-79: the delay to wait for, if any, given the clock reading and
    the time of the last request. *)
Definition delay_needed (now last : Z) : option Z :=
  let timeSinceLastRequest := (now - last)%Z in
  if (timeSinceLastRequest <? RATE_LIMIT_DELAY_MS)%Z
  then Some (RATE_LIMIT_DELAY_MS - timeSinceLastRequest)%Z
  else None.

Definition rateLimitedRequest {A} (fn : M A) : M A :=
  (now <- Date_now ;;
   (fun st => match delay_needed now (lastRequestTime st) with
              | Some ms => sleep E ms st
              | None => ret tt st
              end) ;;;
   t <- Date_now ;;
   (fun st => (Return tt, with_lastRequestTime t st)) ;;;
   fn)%js.

(** [client.post(url, data, config)]: the request goes to the transport
    with the body axios makes of the data, and the transport answers with
    a response or rejects. *)
Definition post (client : AxiosInstance) (path : string) (data : jsstring)
           (hdrs : list (jsstring * jsstring)) (rtype : option jsstring) : M Response :=
  fun st =>
    let request := {| via := client; url := lit path; body := transformRequest hdrs data;
                      config_headers := hdrs; responseType := rtype |} in
    (transport E (sent st) request,
     advance_clock (Z.of_N (latency E request)) (with_sent request st)).

(** ** parseXmlResponse (index.ts, lines 86-96) *)

Definition parseXmlResponse (xml : jsvalue) : completion jsvalue :=
  try_catch (parseStringPromise E xml)
            (fun error => Return (JObject [(lit "raw", xml)])).

(** ** handleApiError (index.ts, lines 99-110) *)

Definition handleApiError (error : thrown) : jsstring :=
  match error with
  | Axios e =>
      match response e with
      | Some r =>
          lit "API Error: " ++ Number_toString (status r) ++ lit " - "
          ++ statusText r ++ lit ". " ++ ToString (JSON_stringify E (data r))
      | None =>
          if is_string (code e) (lit "ECONNREFUSED")
          then lit "Connection refused. Check your QUALYS_API_URL configuration."
          else lit "Request Error: " ++ message e
      end
  | _ => lit "Unknown Error: " ++ String_of_thrown error
  end.

(** ** checkCredentials (index.ts, lines 601-609) *)

Definition LF : jsstring := [10%N].

Definition credentials_not_configured : jsstring :=
  lit "Qualys credentials not configured. Please set the following environment variables:" ++ LF
  ++ lit "  - QUALYS_USERNAME: Your Qualys username" ++ LF
  ++ lit "  - QUALYS_PASSWORD: Your Qualys password" ++ LF
  ++ lit "  - QUALYS_API_URL: (optional) Your Qualys API URL (defaults to https://qualysapi.qualys.com)".

Definition checkCredentials : option jsstring :=
  if (negb (nonempty (QUALYS_USERNAME cfg)) || negb (nonempty (QUALYS_PASSWORD cfg)))%bool
  then Some credentials_not_configured
  else None.

(** ** handleToolCall (index.ts, lines 612-982) *)

Record ContentItem : Type := { type : jsstring; text : jsvalue }.
Record ToolResult : Type := { content : list ContentItem }.

Definition text_content (t : jsvalue) : ToolResult :=
  {| content := [ {| type := lit "text"; text := t |} ] |}.

(** [args.k], a property [k: v] of an object literal, a string literal. *)
Definition arg (args : jsobject) (k : string) : jsvalue := prop_get (lit k) args.

(** [args.k] when the call came without arguments: [args] is [undefined]
    and the first read of a property throws a [TypeError], worded as V8
    words it in Node.js 18 and later, the versions the project runs on.
    [reading k body] is a case whose first read of [args] is [args.k] and
    that does nothing that shows before it: with an argument object it
    runs [body] on it. *)
Definition cannot_read (k : string) : thrown :=
  ErrorObject (lit "TypeError")
    (lit "Cannot read properties of undefined (reading '" ++ lit k ++ lit "')").

Definition reading (k : string) (body : AxiosInstance -> jsobject -> M jsvalue)
           (client : AxiosInstance) (args : ToolArguments) : M jsvalue :=
  match args with
  | Given o => body client o
  | Omitted => throw (cannot_read k)
  end.

Definition field (k : string) (v : jsvalue) : jsstring * jsvalue := (lit k, v).
Definition str (s : string) : jsvalue := JString (lit s).

(** [flag ? "1" : "0"]. *)
Definition one_or_zero (flag : bool) : jsvalue := if flag then str "1" else str "0".

(** [v.length]. *)
Definition length_of (v : jsvalue) : completion jsvalue :=
  match v with
  | JUndefined =>
      Throw (ErrorObject (lit "TypeError")
               (lit "Cannot read properties of undefined (reading 'length')"))
  | JNull =>
      Throw (ErrorObject (lit "TypeError")
               (lit "Cannot read properties of null (reading 'length')"))
  | JString s => Return (JNumber (Z.of_nat (List.length s)))
  | JArray items => Return (JNumber (Z.of_nat (List.length items)))
  | JObject props => Return (prop_get (lit "length") props)
  | JBool _ | JNumber _ => Return JUndefined
  end.

(** The step every form-encoded case shares: encode the parameters, post
    them through the rate limiter. *)
Definition post_form (client : AxiosInstance) (path : string)
           (params : jsobject) (rtype : option jsstring) : M Response :=
  (body <- lift (buildFormData params) ;;
   rateLimitedRequest (post client path body [] rtype))%js.

Definition post_and_parse (client : AxiosInstance) (path : string)
           (params : jsobject) : M jsvalue :=
  (response <- post_form client path params None ;;
   lift (parseXmlResponse (data response)))%js.

Definition require (present : bool) (msg : string) : M unit :=
  if present then ret tt else throw (Error msg).

Definition qualys_list_hosts (client : AxiosInstance) (args : jsobject) : M jsvalue :=
  post_and_parse client "/api/2.0/fo/asset/host/"
    (object_literal
       [field "action" (str "list");
        field "ips" (arg args "ips");
        field "ag_ids" (arg args "ag_ids");
        field "ag_titles" (arg args "ag_titles");
        field "truncation_limit" (js_or (arg args "truncation_limit") (JNumber 100));
        field "details" (js_or (arg args "details") (str "Basic"))]).

Definition qualys_get_host_detections (client : AxiosInstance) (args : jsobject) : M jsvalue :=
  post_and_parse client "/api/2.0/fo/asset/host/vm/detection/"
    (object_literal
       [field "action" (str "list");
        field "ips" (arg args "ips");
        field "ids" (arg args "ids");
        field "ag_ids" (arg args "ag_ids");
        field "status" (arg args "status");
        field "severities" (arg args "severities");
        field "qids" (arg args "qids");
        field "truncation_limit" (js_or (arg args "truncation_limit") (JNumber 100));
        field "show_igs" (one_or_zero (truthy (arg args "show_igs")));
        field "include_vuln_type" (arg args "include_vuln_type");
        field "arf_filter_keys" (arg args "arf_filter_keys");
        field "show_epss" (one_or_zero (truthy (arg args "show_epss")))]).

Definition qualys_launch_scan (client : AxiosInstance) (args : jsobject) : M jsvalue :=
  (require (truthy (arg args "scan_title")) "scan_title is required" ;;;
   require (truthy (arg args "ip") || truthy (arg args "asset_groups")
            || truthy (arg args "asset_group_ids"))
     "At least one of ip, asset_groups, or asset_group_ids is required" ;;;
   post_and_parse client "/api/2.0/fo/scan/"
     (object_literal
        [field "action" (str "launch");
         field "scan_title" (arg args "scan_title");
         field "ip" (arg args "ip");
         field "asset_groups" (arg args "asset_groups");
         field "asset_group_ids" (arg args "asset_group_ids");
         field "option_title" (arg args "option_title");
         field "option_id" (arg args "option_id");
         field "iscanner_name" (arg args "iscanner_name");
         field "priority" (arg args "priority")]))%js.

Definition qualys_list_scans (client : AxiosInstance) (args : jsobject) : M jsvalue :=
  post_and_parse client "/api/2.0/fo/scan/"
    (object_literal
       [field "action" (str "list");
        field "scan_ref" (arg args "scan_ref");
        field "state" (arg args "state");
        field "type" (arg args "type");
        field "launched_after_datetime" (arg args "launched_after_datetime");
        field "launched_before_datetime" (arg args "launched_before_datetime")]).

Definition qualys_get_scan_results (client : AxiosInstance) (args : jsobject) : M jsvalue :=
  (require (truthy (arg args "scan_ref")) "scan_ref is required" ;;;
   response <- post_form client "/api/2.0/fo/scan/"
     (object_literal
        [field "action" (str "fetch");
         field "scan_ref" (arg args "scan_ref");
         field "output_format" (js_or (arg args "output_format") (str "xml"))])
     None ;;
   if (is_string (arg args "output_format") (lit "xml")
       || negb (truthy (arg args "output_format")))%bool
   then lift (parseXmlResponse (data response))
   else ret (JObject (object_literal [field "data" (data response)])))%js.

(** The cancel, pause and resume cases differ in the action only. *)
Definition scan_action (action : string) (client : AxiosInstance) (args : jsobject) : M jsvalue :=
  (require (truthy (arg args "scan_ref")) "scan_ref is required" ;;;
   post_and_parse client "/api/2.0/fo/scan/"
     (object_literal
        [field "action" (str action);
         field "scan_ref" (arg args "scan_ref")]))%js.

Definition qualys_cancel_scan := scan_action "cancel".
Definition qualys_pause_scan := scan_action "pause".
Definition qualys_resume_scan := scan_action "resume".

Definition qualys_list_reports (client : AxiosInstance) (args : jsobject) : M jsvalue :=
  post_and_parse client "/api/2.0/fo/report/"
    (object_literal
       [field "action" (str "list");
        field "id" (arg args "id");
        field "state" (arg args "state")]).

Definition qualys_launch_report (client : AxiosInstance) (args : jsobject) : M jsvalue :=
  (require (truthy (arg args "template_id")) "template_id is required" ;;;
   post_and_parse client "/api/2.0/fo/report/"
     (object_literal
        [field "action" (str "launch");
         field "template_id" (arg args "template_id");
         field "report_title" (arg args "report_title");
         field "output_format" (js_or (arg args "output_format") (str "pdf"));
         field "ips" (arg args "ips");
         field "asset_group_ids" (arg args "asset_group_ids")]))%js.

Definition qualys_download_report (client : AxiosInstance) (args : jsobject) : M jsvalue :=
  (require (truthy (arg args "id")) "id is required" ;;;
   response <- post_form client "/api/2.0/fo/report/"
     (object_literal
        [field "action" (str "fetch");
         field "id" (arg args "id")])
     (Some (lit "arraybuffer")) ;;
   size <- lift (length_of (data response)) ;;
   ret (JObject (object_literal
                   [field "message" (str "Report downloaded successfully");
                    field "id" (arg args "id");
                    field "size" size;
                    field "contentType" (prop_get (lit "content-type") (headers response))])))%js.

Definition qualys_list_asset_groups (client : AxiosInstance) (args : jsobject) : M jsvalue :=
  post_and_parse client "/api/2.0/fo/asset/group/"
    (object_literal
       [field "action" (str "list");
        field "ids" (arg args "ids");
        field "title" (arg args "title");
        field "truncation_limit" (js_or (arg args "truncation_limit") (JNumber 100))]).

Definition qualys_get_knowledgebase (client : AxiosInstance) (args : jsobject) : M jsvalue :=
  post_and_parse client "/api/2.0/fo/knowledge_base/vuln/"
    (object_literal
       [field "action" (str "list");
        field "ids" (arg args "ids");
        field "id_min" (arg args "id_min");
        field "id_max" (arg args "id_max");
        field "details" (js_or (arg args "details") (str "Basic"));
        field "last_modified_after" (arg args "last_modified_after");
        field "last_modified_before" (arg args "last_modified_before");
        field "published_after" (arg args "published_after");
        field "published_before" (arg args "published_before");
        field "show_qds" (one_or_zero (truthy (arg args "show_qds")));
        field "show_qds_factors" (one_or_zero (truthy (arg args "show_qds_factors")));
        field "show_pci_reasons" (one_or_zero (truthy (arg args "show_pci_reasons")))]).

Definition qualys_get_knowledgebase_by_cve (client : AxiosInstance) (args : jsobject) : M jsvalue :=
  (let cveParams := object_literal [field "action" (str "list")] in
   let cveParams :=
     if truthy (arg args "cve_ids")
     then prop_set (lit "cve_id") (arg args "cve_ids") cveParams else cveParams in
   let cveParams :=
     if negb (is_undefined (arg args "qvs_min"))
     then prop_set (lit "qvs_min") (arg args "qvs_min") cveParams else cveParams in
   let cveParams :=
     if negb (is_undefined (arg args "qvs_max"))
     then prop_set (lit "qvs_max") (arg args "qvs_max") cveParams else cveParams in
   cveParams <-
     (if truthy (arg args "last_modified_within_days")
      then
        now <- Date_now ;;
        date <- lift (iso_date_days_before E now (arg args "last_modified_within_days")) ;;
        ret (prop_set (lit "last_modified_after") (JString date) cveParams)
      else ret cveParams) ;;
   let cveParams :=
     prop_set (lit "show_qds") (one_or_zero (negb (is_false (arg args "show_qds")))) cveParams in
   let cveParams :=
     prop_set (lit "show_qds_factors")
       (one_or_zero (truthy (arg args "show_qds_factors"))) cveParams in
   post_and_parse client "/api/2.0/fo/knowledge_base/vuln/" cveParams)%js.

Definition qualys_list_scanners (client : AxiosInstance) (args : jsobject) : M jsvalue :=
  post_and_parse client "/api/2.0/fo/appliance/"
    (object_literal
       [field "action" (str "list");
        field "type" (arg args "type");
        field "status" (arg args "status")]).

Definition qualys_list_option_profiles (client : AxiosInstance) (args : jsobject) : M jsvalue :=
  post_and_parse client "/api/2.0/fo/subscription/option_profile/vm/"
    (object_literal
       [field "action" (str "list");
        field "title" (arg args "title")]).

(** The one case that does not read [args]. *)
Definition qualys_list_tags (client : AxiosInstance) : M jsvalue :=
  (params <- lift (buildFormData (object_literal [field "action" (str "list")])) ;;
   response <- rateLimitedRequest
     (post client "/qps/rest/2.0/search/am/tag" params
        [(lit "Content-Type", lit "application/json")] None) ;;
   ret (data response))%js.

Definition qualys_get_activity_log (client : AxiosInstance) (args : jsobject) : M jsvalue :=
  post_and_parse client "/api/2.0/fo/activity_log/"
    (object_literal
       [field "action" (str "list");
        field "since_datetime" (arg args "since_datetime");
        field "until_datetime" (arg args "until_datetime");
        field "user_action" (arg args "action");
        field "truncation_limit" (js_or (arg args "truncation_limit") (JNumber 100))]).

(** The [case] labels of the switch, in source order, each with the
    property of [args] it reads first (lines 639, 655, 675, 702, 716, 736,
    751, 766, 783, 794, 813, 838, 852, 877, 905, 918 and 947). *)
Definition cases : list (string * (AxiosInstance -> ToolArguments -> M jsvalue)) :=
  [("qualys_list_hosts", reading "ips" qualys_list_hosts);
   ("qualys_get_host_detections", reading "ips" qualys_get_host_detections);
   ("qualys_launch_scan", reading "scan_title" qualys_launch_scan);
   ("qualys_list_scans", reading "scan_ref" qualys_list_scans);
   ("qualys_get_scan_results", reading "scan_ref" qualys_get_scan_results);
   ("qualys_cancel_scan", reading "scan_ref" qualys_cancel_scan);
   ("qualys_pause_scan", reading "scan_ref" qualys_pause_scan);
   ("qualys_resume_scan", reading "scan_ref" qualys_resume_scan);
   ("qualys_list_reports", reading "id" qualys_list_reports);
   ("qualys_launch_report", reading "template_id" qualys_launch_report);
   ("qualys_download_report", reading "id" qualys_download_report);
   ("qualys_list_asset_groups", reading "ids" qualys_list_asset_groups);
   ("qualys_get_knowledgebase", reading "ids" qualys_get_knowledgebase);
   ("qualys_get_knowledgebase_by_cve", reading "cve_ids" qualys_get_knowledgebase_by_cve);
   ("qualys_list_scanners", reading "type" qualys_list_scanners);
   ("qualys_list_option_profiles", reading "title" qualys_list_option_profiles);
   ("qualys_list_tags", fun client _ => qualys_list_tags client);
   ("qualys_get_activity_log", reading "since_datetime" qualys_get_activity_log)]%string.

(** [switch (name) { case ...: ... default: throw ... }]. *)
Fixpoint switch (name : jsstring)
         (table : list (string * (AxiosInstance -> ToolArguments -> M jsvalue)))
         (client : AxiosInstance) (args : ToolArguments) : M jsvalue :=
  match table with
  | [] => throw (ErrorObject (lit "Error") (lit "Unknown tool: " ++ name))
  | (label, handler) :: rest =>
      if str_eqb name (lit label) then handler client args
      else switch name rest client args
  end.

Definition handleToolCall (name : jsstring) (args : ToolArguments) (st : State)
  : ToolResult * State :=
  let proceed :=
    let (client, st1) := getApiClient st in
    match switch name cases client args st1 with
    | (Return result, st2) => (text_content (JSON_stringify_indent2 E result), st2)
    | (Throw error, st2) =>
        (text_content (JString (lit "Error: " ++ handleApiError error)), st2)
    end in
  match checkCredentials with
  | Some credentialError =>
      if nonempty credentialError
      then (text_content (JString (lit "Error: " ++ credentialError)), st)
      else proceed
  | None => proceed
  end.

End Server.

(** ** Calls of rateLimitedRequest that overlap

    [rateLimitedRequest] is an [async] function: a caller runs lines 74-78
    when it calls, and, if it has to wait, runs lines 81-82 when its timer
    fires.  Between the two, other callers run.  The loop below runs the
    callers of one process in the order of the clock, with timers that
    fire at the time they are due.  Timers due at the same time fire in
    the order in which they were set, which is the order Node gives to
    timers of one duration (it promises none to timers of different
    durations), and a timer due at the time of a call fires before it. *)

Module EventLoop.

Record Loop : Type := {
  lastRequestTime : Z;
  timers : list (Z * nat);
  started : list (nat * Z)
}.

(** Line 22. *)
Definition initial : Loop :=
  {| lastRequestTime := 0; timers := []; started := [] |}.

(** Lines 81-82, run by [caller] when the clock reads [t]: the time is
    recorded and [fn()] starts. *)
Definition resume (caller : nat) (t : Z) (l : Loop) : Loop :=
  {| lastRequestTime := t; timers := timers l;
     started := started l ++ [(caller, t)] |}.

Fixpoint add_timer (due : Z) (caller : nat) (ts : list (Z * nat)) : list (Z * nat) :=
  match ts with
  | [] => [(due, caller)]
  | (d, c) :: rest =>
      if (d <=? due)%Z then (d, c) :: add_timer due caller rest
      else (due, caller) :: ts
  end.

(** Lines 74-79, run by [caller] when the clock reads [t]. *)
Definition enter (caller : nat) (t : Z) (l : Loop) : Loop :=
  match delay_needed t (lastRequestTime l) with
  | Some ms =>
      {| lastRequestTime := lastRequestTime l;
         timers := add_timer (t + timer_delay ms) caller (timers l);
         started := started l |}
  | None => resume caller t l
  end.

Definition fire (l : Loop) : Loop :=
  match timers l with
  | [] => l
  | (due, caller) :: rest =>
      resume caller due
        {| lastRequestTime := lastRequestTime l; timers := rest; started := started l |}
  end.

(** [calls] lists the callers with the time of their call, in the order of
    the calls. *)
Fixpoint run (fuel : nat) (calls : list (nat * Z)) (l : Loop) : Loop :=
  match fuel with
  | O => l
  | S fuel' =>
      match timers l, calls with
      | [], [] => l
      | _ :: _, [] => run fuel' [] (fire l)
      | [], (caller, t) :: rest => run fuel' rest (enter caller t l)
      | (due, _) :: _, (caller, t) :: rest =>
          if (due <=? t)%Z then run fuel' calls (fire l)
          else run fuel' rest (enter caller t l)
      end
  end.

Definition run_calls (calls : list (nat * Z)) : Loop :=
  run (2 * List.length calls) calls initial.

(** The gaps between the starts of consecutive dispatched operations. *)
Fixpoint gaps (starts : list (nat * Z)) : list Z :=
  match starts with
  | (_, t1) :: (((_, t2) :: _) as rest) => (t2 - t1)%Z :: gaps rest
  | _ => []
  end.

(** Callers that do not overlap: each calls when the operation of the one
    before has started.  [sequential_starts] is when their own operations
    then start. *)
Fixpoint sequential (last : Z) (calls : list (nat * Z)) : Prop :=
  match calls with
  | [] => True
  | (_, t) :: rest =>
      (last <= t)%Z /\ sequential (Z.max t (last + RATE_LIMIT_DELAY_MS)) rest
  end.

Fixpoint sequential_starts (last : Z) (calls : list (nat * Z)) : list (nat * Z) :=
  match calls with
  | [] => []
  | (caller, t) :: rest =>
      (caller, Z.max t (last + RATE_LIMIT_DELAY_MS))
      :: sequential_starts (Z.max t (last + RATE_LIMIT_DELAY_MS)) rest
  end.

End EventLoop.

(** ** xml2js on plain documents

    [parseStringPromise] with the options of line 88 ([explicitArray:
    false], [mergeAttrs: true]), for the texts whose fate is plain.

    A blank text resolves with [null].  A document of elements without
    attributes resolves with the object [{root: value}], [root] being the
    name of its root element.  The value of an element without child
    elements is its character data, kept as it is, white space included
    ([""] for [<name/>]); the value of an element with child elements is
    an object that holds, under the key [_], its character data unless
    that is white space only, and then its children under their names, in
    the order in which they first occur, children of one name gathered in
    an array.  White space may stand before and after the root element.

    The text is rejected when its first character that is not white space
    is not [<]; when it ends inside a tag or inside an element; and when
    an element is closed under another name.

    Names are made of ASCII letters, digits, hyphens, points and
    underscores, begin with a letter and are not the name of a property of
    [Object.prototype]; character data is printable ASCII and white space
    without [<] and [&].  Every other text (attributes, entities,
    comments, declarations, other characters, anything but white space
    after the root element) is outside this model: [parse] says nothing
    of it. *)

Module Xml2js.

Inductive outcome : Type :=
| Blank
| Document (root : jsstring) (value : jsvalue)
| Rejected.

Definition name_start_char (c : code_unit) : bool :=
  (in_range 65 90 c || in_range 97 122 c)%bool.

Definition name_char (c : code_unit) : bool :=
  (name_start_char c || in_range 48 57 c || existsb (N.eqb c) (lit "-._"))%bool.

Definition inherited (name : jsstring) : bool :=
  existsb (str_eqb name)
    [lit "constructor"; lit "hasOwnProperty"; lit "isPrototypeOf";
     lit "propertyIsEnumerable"; lit "toLocaleString"; lit "toString"; lit "valueOf"].

Definition white_space (c : code_unit) : bool :=
  existsb (N.eqb c) [9; 10; 13; 32]%N.

(** Character data: printable ASCII and white space, without [<] and [&]. *)
Definition text_char (c : code_unit) : bool :=
  ((in_range 32 126 c || white_space c) && negb (N.eqb c 60) && negb (N.eqb c 38))%bool.

(** A character that is text, before the root element. *)
Definition stray_char (c : code_unit) : bool :=
  (in_range 33 126 c && negb (N.eqb c 60))%bool.

Fixpoint span (p : code_unit -> bool) (s : jsstring) : jsstring * jsstring :=
  match s with
  | [] => ([], [])
  | c :: rest =>
      if p c then let (taken, left) := span p rest in (c :: taken, left)
      else ([], s)
  end.

(** A name at the head of a text, and what follows it. *)
Definition tag_name (s : jsstring) : option (jsstring * jsstring) :=
  match s with
  | c :: s1 =>
      if name_start_char c then
        let (name_rest, s2) := span name_char s1 in
        if inherited (c :: name_rest) then None else Some (c :: name_rest, s2)
      else None
  | [] => None
  end.

(** An element that is open: its name, its character data and its
    children so far. *)
Record Open : Type := {
  open_name : jsstring;
  open_text : jsstring;
  open_children : jsobject
}.

Definition opened (name : jsstring) : Open :=
  {| open_name := name; open_text := []; open_children := [] |}.

Definition with_text (chars : jsstring) (e : Open) : Open :=
  {| open_name := open_name e; open_text := open_text e ++ chars;
     open_children := open_children e |}.

Definition has_key (k : jsstring) (o : jsobject) : bool :=
  existsb (fun p => str_eqb k (fst p)) o.

(** [assignOrPush]: a first child of its name is stored as it is, a
    further one joins the earlier ones in an array. *)
Definition assignOrPush (o : jsobject) (key : jsstring) (newValue : jsvalue) : jsobject :=
  if has_key key o then
    match prop_get key o with
    | JArray items => prop_set key (JArray (items ++ [newValue])) o
    | first => prop_set key (JArray [first; newValue]) o
    end
  else prop_set key newValue o.

Definition with_child (name : jsstring) (value : jsvalue) (e : Open) : Open :=
  {| open_name := open_name e; open_text := open_text e;
     open_children := assignOrPush (open_children e) name value |}.

(** The value of an element when it closes. *)
Definition closed (e : Open) : jsvalue :=
  match open_children e with
  | [] => JString (open_text e)
  | _ :: _ =>
      JObject ((if forallb white_space (open_text e) then []
                else [(lit "_", JString (open_text e))])
               ++ open_children e)
  end.

(** After the root element. *)
Definition after_root (found : outcome) (s : jsstring) : option outcome :=
  match snd (span white_space s) with
  | [] => Some found
  | _ :: _ => None
  end.

(** Inside the element [top], the elements of [below] being open around
    it, the innermost first. *)
Fixpoint inside (fuel : nat) (below : list Open) (top : Open) (s : jsstring)
  : option outcome :=
  match fuel with
  | O => None
  | S fuel' =>
      let (chars, s1) := span text_char s in
      let top := with_text chars top in
      match s1 with
      | [] => Some Rejected
      | lt :: s2 =>
          if N.eqb lt 60 then
            match s2 with
            | [] => Some Rejected
            | c :: s3 =>
                if N.eqb c 47 then
                  match s3 with
                  | [] => Some Rejected
                  | _ :: _ =>
                      match tag_name s3 with
                      | Some (name, s4) =>
                          match s4 with
                          | [] => Some Rejected
                          | gt :: s5 =>
                              if N.eqb gt 62 then
                                if str_eqb name (open_name top) then
                                  match below with
                                  | [] =>
                                      after_root (Document (open_name top) (closed top)) s5
                                  | parent :: around =>
                                      inside fuel' around
                                        (with_child (open_name top) (closed top) parent) s5
                                  end
                                else Some Rejected
                              else None
                          end
                      | None => None
                      end
                  end
                else
                  match tag_name s2 with
                  | Some (name, s4) =>
                      match s4 with
                      | [] => Some Rejected
                      | gt :: s5 =>
                          if N.eqb gt 62 then inside fuel' (top :: below) (opened name) s5
                          else if N.eqb gt 47 then
                            match s5 with
                            | [] => Some Rejected
                            | gt' :: s6 =>
                                if N.eqb gt' 62
                                then inside fuel' below (with_child name (JString []) top) s6
                                else None
                            end
                          else None
                      end
                  | None => None
                  end
            end
          else None
      end
  end.

Definition parse_text (s : jsstring) : option outcome :=
  match snd (span white_space s) with
  | [] => Some Blank
  | c :: s1 =>
      if N.eqb c 60 then
        match s1 with
        | [] => Some Rejected
        | _ :: _ =>
            match tag_name s1 with
            | Some (name, s2) =>
                match s2 with
                | [] => Some Rejected
                | gt :: s3 =>
                    if N.eqb gt 62 then inside (S (List.length s3)) [] (opened name) s3
                    else if N.eqb gt 47 then
                      match s3 with
                      | [] => Some Rejected
                      | gt' :: s4 =>
                          if N.eqb gt' 62 then after_root (Document name (JString [])) s4
                          else None
                      end
                    else None
                end
            | None => None
            end
        end
      else if stray_char c then Some Rejected
      else None
  end.

(** [parseStringPromise(xml)] begins with [xml.toString()], which throws
    when [xml] is [undefined] or [null] or has no string form. *)
Definition parse (xml : jsvalue) : option outcome :=
  match xml with
  | JUndefined | JNull => Some Rejected
  | _ => if has_string_form xml then parse_text (ToString xml) else Some Rejected
  end.

(** The parser as a function, for concrete runs: outside the model it
    rejects, which is a choice of this stand-in and not xml2js. *)
Definition stand_in (xml : jsvalue) : completion jsvalue :=
  match parse xml with
  | Some Blank => Return JNull
  | Some (Document root value) => Return (JObject [(root, value)])
  | Some Rejected | None => Throw (ErrorObject (lit "Error") (lit "xml2js: rejected"))
  end.

End Xml2js.

(** The parser of an environment is xml2js on the texts of the model. *)
Definition is_xml2js (E : Env) : Prop :=
  forall xml,
    match Xml2js.parse xml with
    | Some Xml2js.Blank => parseStringPromise E xml = Return JNull
    | Some (Xml2js.Document root value) =>
        parseStringPromise E xml = Return (JObject [(root, value)])
    | Some Xml2js.Rejected => exists error, parseStringPromise E xml = Throw error
    | None => True
    end.

(** ** A process without network

    An environment for concrete runs: every connection is refused, the
    timers fire when they are due and the parser is the one above.  No request succeeds in it, so no response is
    ever serialised; the serialiser is given one fixed answer, and so is
    the calendar. *)

Definition ECONNREFUSED : AxiosError :=
  {| message := lit "connect ECONNREFUSED 127.0.0.1:443";
     code := JString (lit "ECONNREFUSED");
     response := None |}.

Definition offline : Env :=
  {| transport := fun _ _ => Throw (Axios ECONNREFUSED);
     latency := fun _ => 3%N;
     wake := fun now ms => (now + ms)%Z;
     parseStringPromise := Xml2js.stand_in;
     JSON_stringify := fun _ => JString (lit "null");
     JSON_stringify_indent2 := fun _ => JString (lit "null");
     iso_date_days_before := fun _ _ => Return (lit "2026-01-01") |}.

Definition configured : Config :=
  {| QUALYS_API_URL := lit "https://qualysapi.qualys.com";
     QUALYS_USERNAME := lit "scanner";
     QUALYS_PASSWORD := lit "s3cret" |}.

Definition unconfigured : Config :=
  load_config (fun _ => None).

(** ** The notions of the specification *)

(** The Form Encoder in the words of the specification: the entries of
    the mapping in their insertion order, those whose value is [undefined]
    or [""] dropped, each of the others rendered
    [percentEncode(key) = percentEncode(String(value))], joined with [&]. *)

Definition percentEncode := encodeURIComponent.

Definition dropped (value : jsvalue) : bool :=
  match value with
  | JUndefined => true
  | JString [] => true
  | _ => false
  end.

Fixpoint rendered_in_insertion_order (mapping : list (jsstring * jsvalue))
  : completion (list jsstring) :=
  match mapping with
  | [] => Return []
  | (key, value) :: rest =>
      if dropped value then rendered_in_insertion_order rest
      else
        (k <-- percentEncode key ;;
         s <-- String_of_value value ;;
         v <-- percentEncode s ;;
         others <-- rendered_in_insertion_order rest ;;
         Return ((k ++ lit "=" ++ v) :: others))%completion
  end.

Definition form_encoder_spec (mapping : list (jsstring * jsvalue)) : completion jsstring :=
  (entries <-- rendered_in_insertion_order mapping ;;
   Return (join (lit "&") entries))%completion.


(** Successive calls of [getApiClient], each with the configuration values
    of its moment. *)
Fixpoint getApiClient_calls (cfgs : list Config) (st : State) : list AxiosInstance * State :=
  match cfgs with
  | [] => ([], st)
  | cfg :: rest =>
      let (client, st1) := getApiClient cfg st in
      let (clients, st2) := getApiClient_calls rest st1 in
      (client :: clients, st2)
  end.

(** The tool calls of a process, one after the other, each with the
    configuration values of its moment. *)
Fixpoint serve (E : Env) (calls : list (Config * jsstring * ToolArguments)) (st : State)
  : list ToolResult * State :=
  match calls with
  | [] => ([], st)
  | (cfg, name, args) :: rest =>
      let (result, st1) := handleToolCall E cfg name args st in
      let (results, st2) := serve E rest st1 in
      (result :: results, st2)
  end.

(** Two states hold the same client and the same digest, and as many of
    each have been made. *)
Definition same_connection (st st' : State) : Prop :=
  apiClient st' = apiClient st
  /\ cachedAuthHeader st' = cachedAuthHeader st
  /\ instances_created st' = instances_created st
  /\ digests_computed st' = digests_computed st.

Definition keeps_connection {A} (m : M A) : Prop :=
  forall st, same_connection st (snd (m st)).

(** No key of the mapping is an array index. *)
Definition no_index_key (o : jsobject) : bool :=
  forallb (fun e => negb (is_array_index (fst e))) o.

(** ** The tool registry (index.ts, lines 121-598)

    What the server answers to a request for its tools: for each tool its
    name, its description and the schema of its arguments.  The literals
    are those of the source. *)

Record ParameterSchema : Type := parameter {
  param_type : string;
  param_enum : option (list string);
  param_description : string;
  param_default : option jsvalue
}.

Record InputSchema : Type := {
  schema_type : string;
  properties : list (string * ParameterSchema);
  required : option (list string)
}.

Record Tool : Type := {
  tool_name : string;
  tool_description : string;
  inputSchema : InputSchema
}.

Definition tools : list Tool :=
  [{| tool_name := "qualys_list_hosts";
       tool_description :=
         "List scanned hosts in your Qualys account. Returns host information including IPs, hostnames, OS, and scan dates.";
       inputSchema :=
         {| schema_type := "object";
            properties :=
              [
          ("ips",
           parameter "string" None
             "Filter by IP addresses (comma-separated or ranges like 10.0.0.1-10.0.0.255)"
             None);
          ("ag_ids",
           parameter "string" None
             "Filter by asset group IDs (comma-separated)"
             None);
          ("ag_titles",
           parameter "string" None
             "Filter by asset group titles (comma-separated)"
             None);
          ("truncation_limit",
           parameter "number" None
             "Maximum number of hosts to return (default: 100, max: 10000)"
             (Some (JNumber 100)));
          ("details",
           parameter "string" (Some ["Basic"; "Basic/AGs"; "All"; "All/AGs"; "None"])
             "Level of detail to return (default: Basic)"
             (Some (str "Basic")))
              ];
            required := None |} |};
    {| tool_name := "qualys_get_host_detections";
       tool_description :=
         "Get vulnerability detections for hosts. Returns detailed vulnerability information including QIDs, severity, and status.";
       inputSchema :=
         {| schema_type := "object";
            properties :=
              [
          ("ips",
           parameter "string" None
             "Filter by IP addresses (comma-separated or ranges)"
             None);
          ("ids",
           parameter "string" None
             "Filter by host IDs (comma-separated)"
             None);
          ("ag_ids",
           parameter "string" None
             "Filter by asset group IDs (comma-separated)"
             None);
          ("status",
           parameter "string" (Some ["New"; "Active"; "Fixed"; "Re-Opened"])
             "Filter by detection status"
             None);
          ("severities",
           parameter "string" None
             "Filter by severity levels (comma-separated: 1-5)"
             None);
          ("qids",
           parameter "string" None
             "Filter by specific QIDs (comma-separated)"
             None);
          ("truncation_limit",
           parameter "number" None
             "Maximum number of records (default: 100)"
             (Some (JNumber 100)));
          ("show_igs",
           parameter "boolean" None
             "Include information gathered results"
             (Some (JBool false)));
          ("include_vuln_type",
           parameter "string" (Some ["Confirmed"; "Potential"])
             "Filter by vulnerability type"
             None);
          ("arf_filter_keys",
           parameter "string" None
             "Advanced Remediation Filters (2024+): non-running-kernel, non-running-service, config-not-exploitable (comma-separated)"
             None);
          ("show_epss",
           parameter "boolean" None
             "Include EPSS (Exploit Prediction Scoring System) scores (2024+ feature)"
             (Some (JBool false)))
              ];
            required := None |} |};
    {| tool_name := "qualys_launch_scan";
       tool_description :=
         "Launch a vulnerability scan on specified targets. Returns scan reference ID for tracking.";
       inputSchema :=
         {| schema_type := "object";
            properties :=
              [
          ("scan_title",
           parameter "string" None
             "Title for the scan (required)"
             None);
          ("ip",
           parameter "string" None
             "IP addresses to scan (comma-separated or ranges)"
             None);
          ("asset_groups",
           parameter "string" None
             "Asset group names to scan (comma-separated)"
             None);
          ("asset_group_ids",
           parameter "string" None
             "Asset group IDs to scan (comma-separated)"
             None);
          ("option_title",
           parameter "string" None
             "Option profile title to use for the scan"
             None);
          ("option_id",
           parameter "number" None
             "Option profile ID to use for the scan"
             None);
          ("iscanner_name",
           parameter "string" None
             "Scanner appliance name(s) to use (comma-separated)"
             None);
          ("priority",
           parameter "number" None
             "Scan priority (0-9, 0 is default/lowest)"
             (Some (JNumber 0)))
              ];
            required := Some ["scan_title"] |} |};
    {| tool_name := "qualys_list_scans";
       tool_description :=
         "List vulnerability scans in your account. Returns scan details including status, targets, and results.";
       inputSchema :=
         {| schema_type := "object";
            properties :=
              [
          ("scan_ref",
           parameter "string" None
             "Filter by specific scan reference ID"
             None);
          ("state",
           parameter "string" (Some ["Running"; "Paused"; "Canceled"; "Finished"; "Error"; "Queued"])
             "Filter by scan state"
             None);
          ("type",
           parameter "string" (Some ["On-Demand"; "Scheduled"; "API"])
             "Filter by scan type"
             None);
          ("launched_after_datetime",
           parameter "string" None
             "Filter scans launched after this date (YYYY-MM-DD or YYYY-MM-DDTHH:MM:SSZ)"
             None);
          ("launched_before_datetime",
           parameter "string" None
             "Filter scans launched before this date"
             None)
              ];
            required := None |} |};
    {| tool_name := "qualys_get_scan_results";
       tool_description :=
         "Get detailed results for a specific scan by reference ID.";
       inputSchema :=
         {| schema_type := "object";
            properties :=
              [
          ("scan_ref",
           parameter "string" None
             "Scan reference ID (required)"
             None);
          ("output_format",
           parameter "string" (Some ["xml"; "csv"; "json_extended"])
             "Output format (default: xml)"
             (Some (str "xml")))
              ];
            required := Some ["scan_ref"] |} |};
    {| tool_name := "qualys_cancel_scan";
       tool_description :=
         "Cancel a running or queued scan.";
       inputSchema :=
         {| schema_type := "object";
            properties :=
              [
          ("scan_ref",
           parameter "string" None
             "Scan reference ID to cancel (required)"
             None)
              ];
            required := Some ["scan_ref"] |} |};
    {| tool_name := "qualys_pause_scan";
       tool_description :=
         "Pause a running scan.";
       inputSchema :=
         {| schema_type := "object";
            properties :=
              [
          ("scan_ref",
           parameter "string" None
             "Scan reference ID to pause (required)"
             None)
              ];
            required := Some ["scan_ref"] |} |};
    {| tool_name := "qualys_resume_scan";
       tool_description :=
         "Resume a paused scan.";
       inputSchema :=
         {| schema_type := "object";
            properties :=
              [
          ("scan_ref",
           parameter "string" None
             "Scan reference ID to resume (required)"
             None)
              ];
            required := Some ["scan_ref"] |} |};
    {| tool_name := "qualys_list_reports";
       tool_description :=
         "List available reports in your Qualys account.";
       inputSchema :=
         {| schema_type := "object";
            properties :=
              [
          ("id",
           parameter "number" None
             "Filter by specific report ID"
             None);
          ("state",
           parameter "string" (Some ["Running"; "Finished"; "Submitted"; "Canceled"; "Errors"])
             "Filter by report state"
             None)
              ];
            required := None |} |};
    {| tool_name := "qualys_launch_report";
       tool_description :=
         "Launch a new vulnerability report.";
       inputSchema :=
         {| schema_type := "object";
            properties :=
              [
          ("template_id",
           parameter "number" None
             "Report template ID (required)"
             None);
          ("report_title",
           parameter "string" None
             "Title for the report"
             None);
          ("output_format",
           parameter "string" (Some ["pdf"; "html"; "mht"; "xml"; "csv"; "docx"])
             "Report output format (default: pdf)"
             (Some (str "pdf")));
          ("ips",
           parameter "string" None
             "IP addresses to include (comma-separated or ranges)"
             None);
          ("asset_group_ids",
           parameter "string" None
             "Asset group IDs to include (comma-separated)"
             None)
              ];
            required := Some ["template_id"] |} |};
    {| tool_name := "qualys_download_report";
       tool_description :=
         "Download a finished report by ID. Returns the report content or download URL.";
       inputSchema :=
         {| schema_type := "object";
            properties :=
              [
          ("id",
           parameter "number" None
             "Report ID to download (required)"
             None)
              ];
            required := Some ["id"] |} |};
    {| tool_name := "qualys_list_asset_groups";
       tool_description :=
         "List asset groups in your Qualys account.";
       inputSchema :=
         {| schema_type := "object";
            properties :=
              [
          ("ids",
           parameter "string" None
             "Filter by asset group IDs (comma-separated)"
             None);
          ("title",
           parameter "string" None
             "Filter by title (partial match supported)"
             None);
          ("truncation_limit",
           parameter "number" None
             "Maximum number of results (default: 100)"
             (Some (JNumber 100)))
              ];
            required := None |} |};
    {| tool_name := "qualys_get_knowledgebase";
       tool_description :=
         "Search the Qualys KnowledgeBase for vulnerability information by QID or CVE.";
       inputSchema :=
         {| schema_type := "object";
            properties :=
              [
          ("ids",
           parameter "string" None
             "Filter by QIDs (comma-separated or ranges like 1-100)"
             None);
          ("id_min",
           parameter "string" None
             "Minimum QID in range"
             None);
          ("id_max",
           parameter "string" None
             "Maximum QID in range"
             None);
          ("details",
           parameter "string" (Some ["Basic"; "All"; "None"])
             "Level of detail (default: Basic)"
             (Some (str "Basic")));
          ("last_modified_after",
           parameter "string" None
             "Filter by last modified date (YYYY-MM-DD)"
             None);
          ("last_modified_before",
           parameter "string" None
             "Filter by last modified before date (YYYY-MM-DD)"
             None);
          ("published_after",
           parameter "string" None
             "Filter by publish date (YYYY-MM-DD)"
             None);
          ("published_before",
           parameter "string" None
             "Filter by publish before date (YYYY-MM-DD)"
             None);
          ("show_qds",
           parameter "boolean" None
             "Include Qualys Detection Score (QDS) information"
             (Some (JBool false)));
          ("show_qds_factors",
           parameter "boolean" None
             "Include QDS contributing factors (EPSS, MITRE ATT&CK, etc.)"
             (Some (JBool false)));
          ("show_pci_reasons",
           parameter "boolean" None
             "Show PCI compliance failure reasons"
             (Some (JBool false)))
              ];
            required := None |} |};
    {| tool_name := "qualys_get_knowledgebase_by_cve";
       tool_description :=
         "Search Qualys KnowledgeBase by CVE ID (2024+ feature). Supports QVS score filtering.";
       inputSchema :=
         {| schema_type := "object";
            properties :=
              [
          ("cve_ids",
           parameter "string" None
             "CVE IDs to search (comma-separated, e.g., CVE-2024-1234,CVE-2024-5678)"
             None);
          ("qvs_min",
           parameter "number" None
             "Minimum QVS (Qualys Vulnerability Score) to filter (0-100)"
             None);
          ("qvs_max",
           parameter "number" None
             "Maximum QVS to filter (0-100)"
             None);
          ("last_modified_within_days",
           parameter "number" None
             "Get CVEs with QVS scores modified in last N days (e.g., 15 for recent updates)"
             None);
          ("show_qds",
           parameter "boolean" None
             "Include QDS information"
             (Some (JBool true)));
          ("show_qds_factors",
           parameter "boolean" None
             "Include QDS factors (EPSS, MITRE, CISA KEV)"
             (Some (JBool false)))
              ];
            required := None |} |};
    {| tool_name := "qualys_list_scanners";
       tool_description :=
         "List scanner appliances in your Qualys account.";
       inputSchema :=
         {| schema_type := "object";
            properties :=
              [
          ("type",
           parameter "string" (Some ["physical"; "virtual"; "containerized"; "cloud"; "offline"])
             "Filter by scanner type"
             None);
          ("status",
           parameter "string" (Some ["Online"; "Offline"])
             "Filter by scanner status"
             None)
              ];
            required := None |} |};
    {| tool_name := "qualys_list_option_profiles";
       tool_description :=
         "List option profiles available for scans.";
       inputSchema :=
         {| schema_type := "object";
            properties :=
              [
          ("title",
           parameter "string" None
             "Filter by profile title (partial match)"
             None)
              ];
            required := None |} |};
    {| tool_name := "qualys_list_tags";
       tool_description :=
         "List tags for asset management.";
       inputSchema :=
         {| schema_type := "object";
            properties :=
              [
          ("name",
           parameter "string" None
             "Filter by tag name (partial match)"
             None)
              ];
            required := None |} |};
    {| tool_name := "qualys_get_activity_log";
       tool_description :=
         "Get activity log entries for audit purposes.";
       inputSchema :=
         {| schema_type := "object";
            properties :=
              [
          ("since_datetime",
           parameter "string" None
             "Get entries since this datetime (YYYY-MM-DDTHH:MM:SSZ)"
             None);
          ("until_datetime",
           parameter "string" None
             "Get entries until this datetime"
             None);
          ("action",
           parameter "string" None
             "Filter by action type"
             None);
          ("truncation_limit",
           parameter "number" None
             "Maximum number of entries (default: 100)"
             (Some (JNumber 100)))
              ];
            required := None |} |}]%string.

(** The tool registered under a name. *)
Definition find_tool (name : jsstring) : option Tool :=
  find (fun t => str_eqb name (lit (tool_name t))) tools.

(** The argument names a tool declares, those it declares required, and
    the defaults it declares. *)
Definition declared (t : Tool) : list string := map fst (properties (inputSchema t)).

Definition required_parameters (t : Tool) : list string :=
  match required (inputSchema t) with
  | Some keys => keys
  | None => []
  end.

Definition declared_defaults (t : Tool) : list (string * jsvalue) :=
  flat_map (fun p => match param_default (snd p) with
                     | Some d => [(fst p, d)]
                     | None => []
                     end)
           (properties (inputSchema t)).

(** ** The request handlers of the server (index.ts, lines 998-1007)

    [main] registers two handlers: the list of tools, and a tool call,
    which goes to [handleToolCall] with the name and the arguments of the
    request, [undefined] when the request has none. *)

Inductive ServerRequest : Type :=
| ListToolsRequest
| CallToolRequest (name : jsstring) (arguments : ToolArguments).

Inductive ServerResult : Type :=
| ListToolsResult (listed : list Tool)
| CallToolResult (result : ToolResult).

Definition handle_request (E : Env) (cfg : Config) (request : ServerRequest) (st : State)
  : ServerResult * State :=
  match request with
  | ListToolsRequest => (ListToolsResult tools, st)
  | CallToolRequest name arguments =>
      let (result, st') := handleToolCall E cfg name arguments st in
      (CallToolResult result, st')
  end.

(** ** What a handler does to the world

    A computation is quiet when it sends nothing and leaves the clock and
    [lastRequestTime] alone.  A handler posts at most once: either it is
    quiet, or it hands one request to the transport, through the client it
    was given, after the rate limiter has set [lastRequestTime], the
    minimum delay or more after the time before if the timers are punctual
    and that time was not ahead of the clock; and if the transport rejects
    that request, the handler throws the rejection. *)

Definition quiet {A} (m : M A) : Prop :=
  forall st,
    sent (snd (m st)) = sent st
    /\ lastRequestTime (snd (m st)) = lastRequestTime st
    /\ clock (snd (m st)) = clock st.

(** The timers of the environment never fire early by the clock of
    [Date.now()]. *)
Definition punctual (E : Env) : Prop :=
  forall now ms, (1 <= ms <= TIMEOUT_MAX)%Z -> (now + ms <= wake E now ms)%Z.

Definition posts_at_most_once (E : Env) (client : AxiosInstance) {A} (m : M A) : Prop :=
  forall st,
    (sent (snd (m st)) = sent st
     /\ lastRequestTime (snd (m st)) = lastRequestTime st
     /\ clock (snd (m st)) = clock st)
    \/ exists r,
        sent (snd (m st)) = sent st ++ [r]
        /\ via r = client
        /\ (punctual E ->
            (lastRequestTime st <= clock st)%Z ->
            (lastRequestTime st + RATE_LIMIT_DELAY_MS <= lastRequestTime (snd (m st))
             <= clock (snd (m st)))%Z)
        /\ (forall e, transport E (sent st) r = Throw e -> fst (m st) = Throw e).

(** The tool calls of a process whose configuration does not change. *)
Definition serve_with (E : Env) (cfg : Config) (calls : list (jsstring * jsobject))
           (st : State) : list ToolResult * State :=
  serve E (map (fun call => (cfg, fst call, Given (snd call))) calls) st.

(** The [Authorization] header a client sends. *)
Definition authorization (client : AxiosInstance) : jsstring :=
  match default_headers client with
  | (_, value) :: _ => value
  | [] => []
  end.

(** ** Notions for the encoder *)

(** A code unit of UTF-16. *)
Definition is_code_unit (c : N) : Prop := (c < 65536)%N.

Definition is_surrogate (c : code_unit) : bool :=
  (is_lead_surrogate c || is_trail_surrogate c)%bool.

(** What may stand in a URL component: an unreserved character or the
    percent sign of an escape. *)
Definition url_safe (c : code_unit) : bool := (unreserved c || N.eqb c 37)%bool.

Definition ampersand : code_unit := 38%N.
Definition equals_sign : code_unit := 61%N.

(** What may stand in a form body: what may stand in a component, and the
    two separators. *)
Definition form_safe (c : code_unit) : bool :=
  (url_safe c || N.eqb c equals_sign || N.eqb c ampersand)%bool.

(** The pair of an entry as written, without escapes. *)
Definition verbatim (e : jsstring * jsvalue) : jsstring :=
  fst e ++ lit "=" ++ ToString (snd e).

(** How often a code unit occurs in a string. *)
Definition occurrences (x : code_unit) (s : jsstring) : nat := count_occ N.eq_dec s x.

(** ** Notions for a session *)

(** The requests of a session, one after the other. *)
Fixpoint session (E : Env) (cfg : Config) (requests : list ServerRequest) (st : State)
  : list ServerResult * State :=
  match requests with
  | [] => ([], st)
  | request :: rest =>
      let (result, st1) := handle_request E cfg request st in
      let (results, st2) := session E cfg rest st1 in
      (result :: results, st2)
  end.

Definition is_tool_call (request : ServerRequest) : bool :=
  match request with
  | CallToolRequest _ _ => true
  | ListToolsRequest => false
  end.

(** A computation never throws; a handler answers when the transport does:
    if it has sent a request and the transport resolved it, the handler
    returns a result. *)
Definition never_throws {A} (m : M A) : Prop :=
  forall st, exists a, fst (m st) = Return a.

Definition answers (E : Env) {A} (m : M A) : Prop :=
  forall st r response,
    sent (snd (m st)) = sent st ++ [r] ->
    transport E (sent st) r = Return response ->
    exists a, fst (m st) = Return a.

(** A remote service that answers every request with the same response. *)
Definition answering (reply : Response) : Env :=
  {| transport := fun _ _ => Return reply;
     latency := latency offline;
     wake := wake offline;
     parseStringPromise := parseStringPromise offline;
     JSON_stringify := JSON_stringify offline;
     JSON_stringify_indent2 := JSON_stringify_indent2 offline;
     iso_date_days_before := iso_date_days_before offline |}.

Definition simple_return : Response :=
  {| status := 200; statusText := lit "OK";
     data := JString (lit "<SIMPLE_RETURN>done</SIMPLE_RETURN>");
     headers := [(lit "content-type", JString (lit "text/xml"))] |}.

(** Where a handler sends its request: the path, the headers of the
    request's own configuration and the response type asked for. *)
Definition targets (path : string) (hdrs : list (jsstring * jsstring))
           (rtype : option jsstring) {A} (m : M A) : Prop :=
  forall st r,
    sent (snd (m st)) = sent st ++ [r] ->
    url r = lit path /\ config_headers r = hdrs /\ responseType r = rtype.

(** The parameters of a request begin with the action, a word of
    unreserved characters, and no key is an array index; a handler acts
    when the body of the request it sends begins with [action=] and that
    word. *)
Definition begins_with_action (verb : string) (params : jsobject) : Prop :=
  (exists rest, params = (lit "action", JString (lit verb)) :: rest)
  /\ no_index_key params = true
  /\ forallb unreserved (lit verb) = true
  /\ nonempty (lit verb) = true.

Definition body_begins_with_action (verb : string) (encoded : jsstring) : Prop :=
  encoded = lit "action=" ++ lit verb
  \/ exists tail, encoded = lit "action=" ++ lit verb ++ lit "&" ++ tail.

(** The action words of the handlers (lines 638 to 946). *)
Definition actions : list string :=
  ["list"; "launch"; "fetch"; "cancel"; "pause"; "resume"]%string.

Definition acts (verb : string) {A} (m : M A) : Prop :=
  forall st r,
    sent (snd (m st)) = sent st ++ [r] -> body_begins_with_action verb (body r).

(** * Properties *)

(** ** Strings and completions *)

Lemma str_eqb_eq (a b : jsstring) : str_eqb a b = true <-> a = b.
Proof.
  revert b; induction a as [|x a IH]; intros [|y b]; simpl; split;
    try congruence; try discriminate.
  - intros H. apply andb_true_iff in H as [Hx Hab].
    apply N.eqb_eq in Hx. apply IH in Hab. congruence.
  - intros H. injection H as -> ->. rewrite N.eqb_refl. simpl. now apply IH.
Qed.

Lemma includes_app_l (s t u : jsstring) : includes s t -> includes (u ++ s) t.
Proof.
  intros (before & after & ->). exists (u ++ before), after.
  now rewrite app_assoc.
Qed.

Lemma includes_here (s u : jsstring) : includes (s ++ u) s.
Proof. exists [], u. reflexivity. Qed.

(** ** The form encoder *)

Lemma kept_not_dropped (e : jsstring * jsvalue) : kept e = negb (dropped (snd e)).
Proof. destruct e as [k [| |b|z|[|c s]|items|props]]; reflexivity. Qed.

Lemma indexed_none (o : jsobject) : no_index_key o = true -> indexed o = [].
Proof.
  unfold no_index_key, indexed, is_array_index.
  induction o as [|[k v] o IH]; simpl; [reflexivity|].
  destruct (array_index k); simpl; [discriminate|exact IH].
Qed.

Lemma Object_entries_insertion_order (o : jsobject) :
  no_index_key o = true -> Object_entries o = o.
Proof.
  intros H. unfold Object_entries. rewrite (indexed_none o H). simpl.
  unfold no_index_key in H. induction o as [|e o IH]; simpl in *; [reflexivity|].
  apply andb_true_iff in H as [He Ho]. rewrite He. f_equal. now apply IH.
Qed.

Lemma map_render_filter_kept (l : list (jsstring * jsvalue)) :
  map_throwing render (filter kept l) = rendered_in_insertion_order l.
Proof.
  induction l as [|[key value] l IH]; simpl; [reflexivity|].
  rewrite kept_not_dropped. simpl.
  destruct (dropped value); simpl; [exact IH|].
  rewrite IH. unfold render, percentEncode. simpl.
  destruct (encodeURIComponent key); simpl; [|reflexivity].
  destruct (String_of_value value) as [s|]; simpl; [|reflexivity].
  destruct (encodeURIComponent s); reflexivity.
Qed.

(** ** Running a tool call *)

Section Dispatch.

Variable E : Env.
Variable cfg : Config.

Hypothesis username_set : nonempty (QUALYS_USERNAME cfg) = true.
Hypothesis password_set : nonempty (QUALYS_PASSWORD cfg) = true.

Lemma credentials_present : checkCredentials cfg = None.
Proof. unfold checkCredentials. now rewrite username_set, password_set. Qed.

Lemma handleToolCall_configured (name : jsstring) (args : ToolArguments) (st : State) :
  handleToolCall E cfg name args st =
  match switch name (cases E) (fst (getApiClient cfg st)) args (snd (getApiClient cfg st)) with
  | (Return result, st2) => (text_content (JSON_stringify_indent2 E result), st2)
  | (Throw error, st2) =>
      (text_content (JString (lit "Error: " ++ handleApiError E error)), st2)
  end.
Proof.
  unfold handleToolCall. rewrite credentials_present.
  now destruct (getApiClient cfg st).
Qed.

Lemma handleToolCall_throws (name : jsstring) (args : ToolArguments) (st : State)
      (error : thrown) :
  switch name (cases E) (fst (getApiClient cfg st)) args (snd (getApiClient cfg st))
    = (Throw error, snd (getApiClient cfg st)) ->
  handleToolCall E cfg name args st
    = (text_content (JString (lit "Error: " ++ handleApiError E error)),
       snd (getApiClient cfg st)).
Proof. intros H. rewrite handleToolCall_configured, H. reflexivity. Qed.

End Dispatch.

Lemma getApiClient_sent (cfg : Config) (st : State) :
  sent (snd (getApiClient cfg st)) = sent st.
Proof.
  unfold getApiClient. destruct (apiClient st); [reflexivity|]. simpl.
  now destruct (_ && _)%bool.
Qed.

(** What a validation failure leaves behind: the message, and no request. *)
Lemma require_fails (A : Type) (msg : string) (k : M A) (st : State) :
  (require false msg ;;; k)%js st = (Throw (Error msg), st).
Proof. reflexivity. Qed.

Lemma require_passes (A : Type) (msg : string) (k : M A) (st : State) :
  (require true msg ;;; k)%js st = k st.
Proof. reflexivity. Qed.

(** Without a content type of its own a request keeps its data as they
    are. *)
Lemma transformRequest_form (data : jsstring) : transformRequest [] data = data.
Proof. reflexivity. Qed.

(** A request through the rate limiter reaches the transport once. *)
Lemma rateLimitedRequest_post_sent (E : Env) (client : AxiosInstance) (path : string)
      (params : jsstring) (hdrs : list (jsstring * jsstring)) (rtype : option jsstring)
      (st : State) :
  sent (snd (rateLimitedRequest E (post E client path params hdrs rtype) st)) =
  sent st ++ [ {| via := client; url := lit path; body := transformRequest hdrs params;
                  config_headers := hdrs; responseType := rtype |} ].
Proof.
  unfold rateLimitedRequest, bind, Date_now, post. simpl.
  destruct (delay_needed (clock st) (lastRequestTime st)); reflexivity.
Qed.

Lemma bind_sent_after (A B : Type) (m : M A) (k : A -> M B) (st : State) :
  (forall a st', sent (snd (k a st')) = sent st') ->
  sent (snd (bind m k st)) = sent (snd (m st)).
Proof.
  intros Hk. unfold bind. destruct (m st) as [[a|e] st']; simpl; [apply Hk|reflexivity].
Qed.

Lemma post_and_parse_sent (E : Env) (client : AxiosInstance) (path : string)
      (params : jsobject) (encoded : jsstring) (st : State) :
  buildFormData params = Return encoded ->
  sent (snd (post_and_parse E client path params st)) =
  sent st ++ [ {| via := client; url := lit path; body := encoded;
                  config_headers := []; responseType := None |} ].
Proof.
  intros Hbody. unfold post_and_parse.
  rewrite bind_sent_after by reflexivity.
  unfold post_form, bind at 1, lift. rewrite Hbody.
  apply rateLimitedRequest_post_sent.
Qed.

(** ** The connection outlives every tool call *)

Lemma same_connection_refl (st : State) : same_connection st st.
Proof. repeat split. Qed.

Lemma same_connection_trans (a b c : State) :
  same_connection a b -> same_connection b c -> same_connection a c.
Proof. unfold same_connection. intuition congruence. Qed.

Lemma keeps_ret (A : Type) (a : A) : keeps_connection (ret a).
Proof. intros st. apply same_connection_refl. Qed.

Lemma keeps_throw (A : Type) (e : thrown) : keeps_connection (@throw A e).
Proof. intros st. apply same_connection_refl. Qed.

Lemma keeps_lift (A : Type) (c : completion A) : keeps_connection (lift c).
Proof. intros st. apply same_connection_refl. Qed.

Lemma keeps_Date_now : keeps_connection Date_now.
Proof. intros st. apply same_connection_refl. Qed.

Lemma keeps_require (present : bool) (msg : string) : keeps_connection (require present msg).
Proof. destruct present; [apply keeps_ret | apply keeps_throw]. Qed.

Lemma keeps_bind (A B : Type) (m : M A) (k : A -> M B) :
  keeps_connection m -> (forall a, keeps_connection (k a)) -> keeps_connection (bind m k).
Proof.
  intros Hm Hk st. unfold bind. specialize (Hm st).
  destruct (m st) as [[a|e] st1]; cbn [snd] in *; [|exact Hm].
  eapply same_connection_trans; [exact Hm | apply Hk].
Qed.

Lemma keeps_post (E : Env) (client : AxiosInstance) (path : string) (params : jsstring)
      (hdrs : list (jsstring * jsstring)) (rtype : option jsstring) :
  keeps_connection (post E client path params hdrs rtype).
Proof. intros st. repeat split. Qed.

Lemma keeps_rateLimitedRequest (E : Env) (A : Type) (fn : M A) :
  keeps_connection fn -> keeps_connection (rateLimitedRequest E fn).
Proof.
  intros Hfn. unfold rateLimitedRequest.
  apply keeps_bind; [apply keeps_Date_now | intros now].
  apply keeps_bind; [|intros _].
  { intros st. destruct (delay_needed now (lastRequestTime st)); repeat split. }
  apply keeps_bind; [apply keeps_Date_now | intros t].
  apply keeps_bind; [|intros _; exact Hfn].
  intros st. repeat split.
Qed.

Create HintDb connection.

#[local] Hint Resolve keeps_ret keeps_throw keeps_lift keeps_Date_now keeps_require
  keeps_post keeps_rateLimitedRequest : connection.

Ltac keeps :=
  repeat first
    [ solve [auto with connection]
    | match goal with
      | |- keeps_connection (if ?b then _ else _) => destruct b
      | |- keeps_connection (bind _ _) => apply keeps_bind; [|intros ?]
      end ].

Lemma keeps_post_form (E : Env) (client : AxiosInstance) (path : string)
      (params : jsobject) (rtype : option jsstring) :
  keeps_connection (post_form E client path params rtype).
Proof. unfold post_form. keeps. Qed.

Lemma keeps_post_and_parse (E : Env) (client : AxiosInstance) (path : string)
      (params : jsobject) :
  keeps_connection (post_and_parse E client path params).
Proof. unfold post_and_parse. keeps. apply keeps_post_form. Qed.

#[local] Hint Resolve keeps_post_form keeps_post_and_parse : connection.

#[local] Hint Unfold qualys_list_hosts qualys_get_host_detections qualys_launch_scan
  qualys_list_scans qualys_get_scan_results qualys_cancel_scan qualys_pause_scan
  qualys_resume_scan scan_action qualys_list_reports qualys_launch_report
  qualys_download_report qualys_list_asset_groups qualys_get_knowledgebase
  qualys_get_knowledgebase_by_cve qualys_list_scanners qualys_list_option_profiles
  qualys_list_tags qualys_get_activity_log : connection.

Lemma cases_keep_connection (E : Env) :
  Forall (fun c => forall client args, keeps_connection (snd c client args)) (cases E).
Proof.
  unfold cases.
  repeat (apply Forall_cons; [intros client args; cbn [snd]|]); [..|apply Forall_nil].
  all: try unfold reading; destruct args as [|args]; try apply keeps_throw.
  all: autounfold with connection; cbv zeta; keeps.
Qed.

Lemma switch_keeps_connection (name : jsstring)
      (table : list (string * (AxiosInstance -> ToolArguments -> M jsvalue)))
      (client : AxiosInstance) (args : ToolArguments) :
  Forall (fun c => forall client args, keeps_connection (snd c client args)) table ->
  keeps_connection (switch name table client args).
Proof.
  induction 1 as [|[label handler] table Hhandler _ IH]; simpl.
  - apply keeps_throw.
  - destruct (str_eqb name (lit label)); [apply Hhandler | exact IH].
Qed.

Lemma handleToolCall_keeps_client (E : Env) (cfg : Config) (name : jsstring)
      (args : ToolArguments) (st : State) (client : AxiosInstance) :
  apiClient st = Some client ->
  same_connection st (snd (handleToolCall E cfg name args st)).
Proof.
  intros Hclient.
  assert (Hproceed :
            same_connection st
              (snd (let (c, st1) := getApiClient cfg st in
                    match switch name (cases E) c args st1 with
                    | (Return result, st2) =>
                        (text_content (JSON_stringify_indent2 E result), st2)
                    | (Throw error, st2) =>
                        (text_content (JString (lit "Error: " ++ handleApiError E error)), st2)
                    end))).
  { unfold getApiClient. rewrite Hclient.
    pose proof (switch_keeps_connection name client args (cases_keep_connection E) st) as H.
    destruct (switch name (cases E) client args st) as [[result|error] st2]; exact H. }
  unfold handleToolCall. destruct (checkCredentials cfg) as [credentialError|].
  - destruct (nonempty credentialError); [apply same_connection_refl | exact Hproceed].
  - exact Hproceed.
Qed.

Lemma serve_keeps_client (E : Env) (calls : list (Config * jsstring * ToolArguments))
      (st : State) (client : AxiosInstance) :
  apiClient st = Some client ->
  same_connection st (snd (serve E calls st)).
Proof.
  revert st. induction calls as [|[[cfg name] args] calls IH]; intros st Hclient; simpl.
  - apply same_connection_refl.
  - pose proof (handleToolCall_keeps_client E cfg name args st Hclient) as Hstep.
    destruct (handleToolCall E cfg name args st) as [result st1]. cbn [snd] in Hstep.
    specialize (IH st1).
    destruct (serve E calls st1) as [results st2]. cbn [snd] in *.
    eapply same_connection_trans; [exact Hstep|].
    apply IH. destruct Hstep as [-> _]. exact Hclient.
Qed.

(** ** C2: the form encoder *)

(** C2, as stated, fails: for the mapping [{b: "x", 1: "y"}], created in
    this order, [buildFormData] gives ["1=y&b=x"], while the entries in
    insertion order give ["b=x&1=y"]: [Object.entries] lists a key that is
    an array index before the other keys. *)
Lemma form_encoder_index_key_first :
  object_literal [field "b" (str "x"); field "1" (str "y")]
    = [field "b" (str "x"); field "1" (str "y")]
  /\ buildFormData [field "b" (str "x"); field "1" (str "y")] = Return (lit "1=y&b=x")
  /\ form_encoder_spec [field "b" (str "x"); field "1" (str "y")] = Return (lit "b=x&1=y")
  /\ buildFormData [field "b" (str "x"); field "1" (str "y")]
     <> form_encoder_spec [field "b" (str "x"); field "1" (str "y")].
Proof.
  repeat split; try reflexivity.
  vm_compute. discriminate.
Qed.

(** C2 (amended): for every mapping none of whose keys is an array index,
    [buildFormData] drops every entry whose value is [undefined] or the
    empty string, renders each remaining entry as
    [percentEncode(key) = percentEncode(String(value))] and joins the
    rendered entries with [&] in the insertion order of the mapping; it
    throws exactly when [percentEncode] throws on one of the kept entries. *)
Theorem buildFormData_insertion_order (params : jsobject) :
  no_index_key params = true ->
  buildFormData params = form_encoder_spec params.
Proof.
  intros H. unfold buildFormData, form_encoder_spec.
  rewrite (Object_entries_insertion_order params H).
  now rewrite map_render_filter_kept.
Qed.

Lemma buildFormData_insertion_order_witness :
  no_index_key
    [field "action" (str "launch"); field "scan_title" (str "weekly scan");
     field "ip" JUndefined; field "option_title" (str ""); field "priority" (JNumber 5)]
  = true
  /\ buildFormData
       [field "action" (str "launch"); field "scan_title" (str "weekly scan");
        field "ip" JUndefined; field "option_title" (str ""); field "priority" (JNumber 5)]
     = form_encoder_spec
         [field "action" (str "launch"); field "scan_title" (str "weekly scan");
          field "ip" JUndefined; field "option_title" (str ""); field "priority" (JNumber 5)]
  /\ form_encoder_spec
       [field "action" (str "launch"); field "scan_title" (str "weekly scan");
        field "ip" JUndefined; field "option_title" (str ""); field "priority" (JNumber 5)]
     = Return (lit "action=launch&scan_title=weekly%20scan&priority=5").
Proof.
  split; [reflexivity|].
  split; [apply buildFormData_insertion_order; reflexivity | reflexivity].
Defined.

(** ** C3: the wire body of a detection listing *)

(** C3: with credentials configured, the detection-listing operation called
    with [{ips: "10.0.0.1,10.0.0.2", severities: "4,5", truncation_limit:
    100}] hands exactly one request to the transport, to the detection
    path, whose body is
    [action=list&ips=10.0.0.1%2C10.0.0.2&severities=4%2C5&truncation_limit=100&show_igs=0&show_epss=0]:
    the keys in the order of the handler, the absent ones left out, the
    flags rendered ["0"]. *)
Theorem host_detections_wire_body (E : Env) (cfg : Config) (st : State) :
  nonempty (QUALYS_USERNAME cfg) = true ->
  nonempty (QUALYS_PASSWORD cfg) = true ->
  sent (snd (handleToolCall E cfg (lit "qualys_get_host_detections")
               (object_literal [field "ips" (str "10.0.0.1,10.0.0.2");
                                field "severities" (str "4,5");
                                field "truncation_limit" (JNumber 100)]) st))
  = sent st ++
    [ {| via := fst (getApiClient cfg st);
         url := lit "/api/2.0/fo/asset/host/vm/detection/";
         body := lit "action=list&ips=10.0.0.1%2C10.0.0.2&severities=4%2C5&truncation_limit=100&show_igs=0&show_epss=0";
         config_headers := [];
         responseType := None |} ].
Proof.
  intros Hu Hp. rewrite (handleToolCall_configured E cfg Hu Hp).
  change (switch (lit "qualys_get_host_detections") (cases E) ?client (Given ?args))
      with (qualys_get_host_detections E client args).
  set (args := object_literal _).
  set (client := fst (getApiClient cfg st)).
  set (st1 := snd (getApiClient cfg st)).
  assert (Hsent : sent (snd (qualys_get_host_detections E client args st1)) =
                  sent st1 ++
                  [ {| via := client;
                       url := lit "/api/2.0/fo/asset/host/vm/detection/";
                       body := lit "action=list&ips=10.0.0.1%2C10.0.0.2&severities=4%2C5&truncation_limit=100&show_igs=0&show_epss=0";
                       config_headers := [];
                       responseType := None |} ])
    by (apply post_and_parse_sent; reflexivity).
  unfold st1 in Hsent at 2. rewrite getApiClient_sent in Hsent.
  destruct (qualys_get_host_detections E client args st1) as [[result|error] st2];
    exact Hsent.
Qed.

(** With both flags set the handler renders them ["1"]. *)
Example host_detections_flags_set :
  map body
    (sent (snd (handleToolCall offline configured (lit "qualys_get_host_detections")
                  (object_literal [field "ips" (str "10.0.0.1,10.0.0.2");
                                   field "show_igs" (JBool true);
                                   field "show_epss" (JBool true)])
                  (initial_state 1700000000000))))
  = [lit "action=list&ips=10.0.0.1%2C10.0.0.2&truncation_limit=100&show_igs=1&show_epss=1"].
Proof. reflexivity. Qed.

Lemma host_detections_wire_body_witness :
  nonempty (QUALYS_USERNAME configured) = true
  /\ nonempty (QUALYS_PASSWORD configured) = true
  /\ map body
       (sent (snd (handleToolCall offline configured (lit "qualys_get_host_detections")
                     (object_literal [field "ips" (str "10.0.0.1,10.0.0.2");
                                      field "severities" (str "4,5");
                                      field "truncation_limit" (JNumber 100)])
                     (initial_state 1700000000000))))
     = [lit "action=list&ips=10.0.0.1%2C10.0.0.2&severities=4%2C5&truncation_limit=100&show_igs=0&show_epss=0"].
Proof.
  split; [reflexivity|]. split; [reflexivity|].
  rewrite (@host_detections_wire_body offline configured (initial_state 1700000000000)
             eq_refl eq_refl).
  reflexivity.
Defined.

(** ** C4: the response normalizer *)

Lemma span_length (p : code_unit -> bool) (s : jsstring) :
  List.length (snd (Xml2js.span p s)) <= List.length s.
Proof.
  induction s as [|c rest IH]; cbn [Xml2js.span]; [cbn; lia|].
  destruct (p c); [|cbn; lia].
  destruct (Xml2js.span p rest) as [taken left]. cbn [snd List.length] in *. lia.
Qed.

Lemma tag_name_length (s name rest : jsstring) :
  Xml2js.tag_name s = Some (name, rest) -> List.length rest < List.length s.
Proof.
  unfold Xml2js.tag_name. destruct s as [|c s1]; [discriminate|].
  destruct (Xml2js.name_start_char c); [|discriminate].
  pose proof (span_length Xml2js.name_char s1) as Hspan.
  destruct (Xml2js.span Xml2js.name_char s1) as [name_rest s2].
  destruct (Xml2js.inherited (c :: name_rest)); [discriminate|].
  intros [= <- <-]. cbn [snd List.length] in *. lia.
Qed.

(** The walk through a document ends: more fuel than the text has
    characters changes nothing. *)
Lemma inside_fuel (fuel fuel' : nat) (below : list Xml2js.Open) (top : Xml2js.Open)
      (s : jsstring) :
  List.length s < fuel -> List.length s < fuel' ->
  Xml2js.inside fuel below top s = Xml2js.inside fuel' below top s.
Proof.
  revert fuel' below top s.
  induction fuel as [|fuel IH]; intros fuel' below top s Hfuel Hfuel'; [lia|].
  destruct fuel' as [|fuel']; [lia|].
  cbn [Xml2js.inside].
  pose proof (span_length Xml2js.text_char s) as Hspan.
  destruct (Xml2js.span Xml2js.text_char s) as [chars s1]. cbn [snd] in Hspan.
  destruct s1 as [|lt s2]; [reflexivity|].
  destruct (N.eqb lt 60); [|reflexivity].
  destruct s2 as [|c s3]; [reflexivity|].
  cbn [List.length] in Hspan.
  destruct (N.eqb c 47).
  - destruct s3 as [|c3 s3']; [reflexivity|].
    destruct (Xml2js.tag_name (c3 :: s3')) as [[name s4]|] eqn:Hname; [|reflexivity].
    apply tag_name_length in Hname. cbn [List.length] in Hname.
    destruct s4 as [|gt s5]; [reflexivity|]. cbn [List.length] in Hname.
    destruct (N.eqb gt 62); [|reflexivity].
    destruct (str_eqb name _); [|reflexivity].
    destruct below as [|parent around]; [reflexivity|].
    apply IH; cbn [List.length] in *; lia.
  - destruct (Xml2js.tag_name (c :: s3)) as [[name s4]|] eqn:Hname; [|reflexivity].
    apply tag_name_length in Hname. cbn [List.length] in Hname.
    destruct s4 as [|gt s5]; [reflexivity|]. cbn [List.length] in Hname.
    destruct (N.eqb gt 62); [apply IH; cbn [List.length] in *; lia|].
    destruct (N.eqb gt 47); [|reflexivity].
    destruct s5 as [|gt' s6]; [reflexivity|]. cbn [List.length] in Hname.
    destruct (N.eqb gt' 62); [|reflexivity].
    apply IH; cbn [List.length] in *; lia.
Qed.

(** The stand-in parser of the concrete environments is xml2js on the
    texts of the model. *)
Lemma offline_is_xml2js : is_xml2js offline.
Proof.
  intros xml. cbn [parseStringPromise offline]. unfold Xml2js.stand_in.
  destruct (Xml2js.parse xml) as [[|root value|]|]; try reflexivity; try exact I.
  eexists; reflexivity.
Qed.

(** With xml2js for parser, a text the parser rejects falls back and a
    document gives its structure. *)
Lemma parseXmlResponse_rejected (E : Env) (xml : jsvalue) :
  is_xml2js E ->
  Xml2js.parse xml = Some Xml2js.Rejected ->
  parseXmlResponse E xml = Return (JObject [(lit "raw", xml)]).
Proof.
  intros Hxml2js Hrejected. specialize (Hxml2js xml). rewrite Hrejected in Hxml2js.
  destruct Hxml2js as [error Herror].
  unfold parseXmlResponse. rewrite Herror. reflexivity.
Qed.

Lemma parseXmlResponse_document (E : Env) (xml : jsvalue) (root : jsstring) (value : jsvalue) :
  is_xml2js E ->
  Xml2js.parse xml = Some (Xml2js.Document root value) ->
  parseXmlResponse E xml = Return (JObject [(root, value)]).
Proof.
  intros Hxml2js Hdocument. specialize (Hxml2js xml). rewrite Hdocument in Hxml2js.
  unfold parseXmlResponse. rewrite Hxml2js. reflexivity.
Qed.

Example unterminated_falls_back (E : Env) :
  is_xml2js E ->
  parseXmlResponse E (JString (lit "<unterminated"))
  = Return (JObject [(lit "raw", JString (lit "<unterminated"))]).
Proof. intros Hxml2js. apply parseXmlResponse_rejected; [exact Hxml2js | reflexivity]. Qed.

Example host_list_is_parsed (E : Env) :
  is_xml2js E ->
  parseXmlResponse E
    (JString (lit "<HOST_LIST><HOST><ID>1</ID><IP>10.0.0.1</IP></HOST><HOST><ID>2</ID><IP>10.0.0.2</IP></HOST></HOST_LIST>"))
  = Return (JObject [(lit "HOST_LIST",
      JObject [(lit "HOST",
        JArray [JObject [(lit "ID", JString (lit "1")); (lit "IP", JString (lit "10.0.0.1"))];
                JObject [(lit "ID", JString (lit "2")); (lit "IP", JString (lit "10.0.0.2"))]])])]).
Proof. intros Hxml2js. apply parseXmlResponse_document; [exact Hxml2js | reflexivity]. Qed.

(** White space is kept; children of one name are gathered; a text that
    ends inside a tag or an element or closes another element falls back,
    and so does what is no string. *)
Example parseXmlResponse_runs :
  parseXmlResponse offline (JString (lit "<CODE>  </CODE>"))
    = Return (JObject [(lit "CODE", JString (lit "  "))])
  /\ parseXmlResponse offline (JString (lit "<EMPTY/>"))
     = Return (JObject [(lit "EMPTY", JString [])])
  /\ parseXmlResponse offline
       (JString (lit "<R><ID>1</ID> <ID>2</ID><S><T>ok</T></S><E/></R>"))
     = Return (JObject [(lit "R",
                 JObject [(lit "ID", JArray [JString (lit "1"); JString (lit "2")]);
                          (lit "S", JObject [(lit "T", JString (lit "ok"))]);
                          (lit "E", JString [])])])
  /\ parseXmlResponse offline (JString (lit "<a>x<b>y</b>z</a>"))
     = Return (JObject [(lit "a",
                 JObject [(lit "_", JString (lit "xz")); (lit "b", JString (lit "y"))])])
  /\ parseXmlResponse offline (JString (lit "<unterminated"))
     = Return (JObject [(lit "raw", JString (lit "<unterminated"))])
  /\ parseXmlResponse offline (JString (lit "<a>text"))
     = Return (JObject [(lit "raw", JString (lit "<a>text"))])
  /\ parseXmlResponse offline (JString (lit "<a><b>text</a></b>"))
     = Return (JObject [(lit "raw", JString (lit "<a><b>text</a></b>"))])
  /\ parseXmlResponse offline (JString (lit "<a>"))
     = Return (JObject [(lit "raw", JString (lit "<a>"))])
  /\ parseXmlResponse offline (JNumber 5) = Return (JObject [(lit "raw", JNumber 5)])
  /\ parseXmlResponse offline JUndefined = Return (JObject [(lit "raw", JUndefined)]).
Proof. repeat split. Qed.



(** ** C5: missing credentials *)

(** C5: whatever the operation and the arguments, if the configured
    username or password is empty, the dispatcher returns the text
    ["Error: "] followed by the configuration message and leaves the state
    as it was: no client is built and no request reaches the transport. *)
Theorem missing_credentials_no_network
        (E : Env) (cfg : Config) (name : jsstring) (args : jsobject) (st : State) :
  QUALYS_USERNAME cfg = [] \/ QUALYS_PASSWORD cfg = [] ->
  handleToolCall E cfg name args st
    = (text_content (JString (lit "Error: " ++ credentials_not_configured)), st)
  /\ sent (snd (handleToolCall E cfg name args st)) = sent st.
Proof.
  intros H.
  assert (Hc : checkCredentials cfg = Some credentials_not_configured).
  { unfold checkCredentials. destruct H as [-> | ->]; simpl; [reflexivity|].
    now rewrite orb_true_r. }
  assert (Hr : handleToolCall E cfg name args st
               = (text_content (JString (lit "Error: " ++ credentials_not_configured)), st)).
  { unfold handleToolCall. rewrite Hc. reflexivity. }
  split; [exact Hr | now rewrite Hr].
Qed.

Lemma missing_credentials_no_network_witness :
  (QUALYS_USERNAME unconfigured = [] \/ QUALYS_PASSWORD unconfigured = [])
  /\ handleToolCall offline unconfigured (lit "qualys_list_hosts") (Given [])
       (initial_state 1700000000000)
     = (text_content (JString (lit "Error: " ++ credentials_not_configured)),
        initial_state 1700000000000).
Proof.
  split; [left; reflexivity|].
  apply (@missing_credentials_no_network offline unconfigured (lit "qualys_list_hosts") []
           (initial_state 1700000000000)).
  left; reflexivity.
Defined.

(** ** C6: the error classifier *)

Lemma Number_toString_401 : Number_toString 401 = lit "401".
Proof. reflexivity. Qed.

(** C6: the classifier follows its decision table in order.  A failure
    that carries a response gives ["API Error: "] with the status code,
    the status text and the serialized body, whatever its code, so a 401
    response gives a string containing ["401"]; without a response, the
    code [ECONNREFUSED] gives the fixed message and any other code gives
    ["Request Error: "] with the failure's message; any value that is not
    an [AxiosError] gives ["Unknown Error: "] with its string form, which
    is never a request-error string. *)
Theorem handleApiError_decision_table (E : Env) :
  (forall m c r,
      handleApiError E (Axios {| message := m; code := c; response := Some r |})
      = lit "API Error: " ++ Number_toString (status r) ++ lit " - " ++ statusText r
        ++ lit ". " ++ ToString (JSON_stringify E (data r)))
  /\ (forall m c r,
         let out := handleApiError E (Axios {| message := m; code := c; response := Some r |}) in
         includes out (Number_toString (status r))
         /\ includes out (statusText r)
         /\ includes out (ToString (JSON_stringify E (data r))))
  /\ (forall m c t d h,
         includes
           (handleApiError E
              (Axios {| message := m; code := c;
                        response := Some {| status := 401; statusText := t;
                                            data := d; headers := h |} |}))
           (lit "401"))
  /\ (forall m c,
         handleApiError E (Axios {| message := m; code := c; response := None |})
         = if is_string c (lit "ECONNREFUSED")
           then lit "Connection refused. Check your QUALYS_API_URL configuration."
           else lit "Request Error: " ++ m)
  /\ (forall name msg,
         handleApiError E (ErrorObject name msg)
         = lit "Unknown Error: " ++ Error_toString name msg)
  /\ (forall v, handleApiError E (Value v) = lit "Unknown Error: " ++ ToString v)
  /\ (forall name msg m, handleApiError E (ErrorObject name msg) <> lit "Request Error: " ++ m)
  /\ (forall v m, handleApiError E (Value v) <> lit "Request Error: " ++ m).
Proof.
  split; [reflexivity|].
  split.
  { intros m c r. cbv zeta. unfold handleApiError. cbn [response].
    split; [|split].
    - apply includes_app_l, includes_here.
    - do 3 apply includes_app_l. apply includes_here.
    - do 5 apply includes_app_l. exists [], []. now rewrite app_nil_r. }
  split.
  { intros m c t d h. unfold handleApiError. cbn [response status].
    apply includes_app_l. rewrite Number_toString_401. apply includes_here. }
  split; [reflexivity|].
  split; [reflexivity|].
  split; [reflexivity|].
  split; intros; discriminate.
Qed.

(** ** C7 and C10: required arguments *)

(** C7: with credentials configured, a scan launch without [scan_title],
    or with one but without any of [ip], [asset_groups] and
    [asset_group_ids], returns an error text that names what is missing,
    and no request reaches the transport. *)
Theorem launch_scan_validation (E : Env) (cfg : Config) (args : jsobject) (st : State) :
  nonempty (QUALYS_USERNAME cfg) = true ->
  nonempty (QUALYS_PASSWORD cfg) = true ->
  (arg args "scan_title" = JUndefined ->
   fst (handleToolCall E cfg (lit "qualys_launch_scan") args st)
     = text_content (JString (lit "Error: Unknown Error: Error: scan_title is required"))
   /\ sent (snd (handleToolCall E cfg (lit "qualys_launch_scan") args st)) = sent st)
  /\ (truthy (arg args "scan_title") = true ->
      arg args "ip" = JUndefined ->
      arg args "asset_groups" = JUndefined ->
      arg args "asset_group_ids" = JUndefined ->
      fst (handleToolCall E cfg (lit "qualys_launch_scan") args st)
        = text_content
            (JString (lit "Error: Unknown Error: Error: At least one of ip, asset_groups, or asset_group_ids is required"))
      /\ sent (snd (handleToolCall E cfg (lit "qualys_launch_scan") args st)) = sent st).
Proof.
  intros Hu Hp. split.
  - intros Htitle.
    rewrite (@handleToolCall_throws E cfg Hu Hp _ _ _ (Error "scan_title is required")).
    + split; [reflexivity | apply getApiClient_sent].
    + change (switch (lit "qualys_launch_scan") (cases E) ?client (Given ?args))
      with (qualys_launch_scan E client args).
      unfold qualys_launch_scan. rewrite Htitle. apply require_fails.
  - intros Htitle Hip Hgroups Hids.
    rewrite (@handleToolCall_throws E cfg Hu Hp _ _ _
               (Error "At least one of ip, asset_groups, or asset_group_ids is required")).
    + split; [reflexivity | apply getApiClient_sent].
    + change (switch (lit "qualys_launch_scan") (cases E) ?client (Given ?args))
      with (qualys_launch_scan E client args).
      unfold qualys_launch_scan. rewrite Htitle, Hip, Hgroups, Hids.
      rewrite require_passes. apply require_fails.
Qed.

Lemma launch_scan_validation_witness :
  nonempty (QUALYS_USERNAME configured) = true
  /\ nonempty (QUALYS_PASSWORD configured) = true
  /\ handleToolCall offline configured (lit "qualys_launch_scan") (Given [])
       (initial_state 1700000000000)
     = (text_content (JString (lit "Error: Unknown Error: Error: scan_title is required")),
        snd (getApiClient configured (initial_state 1700000000000)))
  /\ sent (snd (handleToolCall offline configured (lit "qualys_launch_scan")
                  (Given [field "scan_title" (str "weekly scan")])
                  (initial_state 1700000000000))) = [].
Proof.
  split; [reflexivity|]. split; [reflexivity|]. split; [reflexivity|].
  exact (proj2 (proj2 (@launch_scan_validation offline configured
                         [field "scan_title" (str "weekly scan")]
                         (initial_state 1700000000000) eq_refl eq_refl)
                  eq_refl eq_refl eq_refl eq_refl)).
Defined.

(** C10: with credentials configured, a report download whose [id] is the
    number 0 (or the empty string) returns the text for a missing [id] and
    no request reaches the transport: the presence check is [!args.id]. *)
Theorem download_report_id_zero (E : Env) (cfg : Config) (args : jsobject) (st : State) :
  nonempty (QUALYS_USERNAME cfg) = true ->
  nonempty (QUALYS_PASSWORD cfg) = true ->
  arg args "id" = JNumber 0 \/ arg args "id" = JString [] ->
  fst (handleToolCall E cfg (lit "qualys_download_report") args st)
    = text_content (JString (lit "Error: Unknown Error: Error: id is required"))
  /\ sent (snd (handleToolCall E cfg (lit "qualys_download_report") args st)) = sent st.
Proof.
  intros Hu Hp Hid.
  rewrite (@handleToolCall_throws E cfg Hu Hp _ _ _ (Error "id is required")).
  - split; [reflexivity | apply getApiClient_sent].
  - change (switch (lit "qualys_download_report") (cases E) ?client (Given ?args))
      with (qualys_download_report E client args).
    unfold qualys_download_report. destruct Hid as [-> | ->]; apply require_fails.
Qed.

Lemma download_report_id_zero_witness :
  nonempty (QUALYS_USERNAME configured) = true
  /\ nonempty (QUALYS_PASSWORD configured) = true
  /\ arg [field "id" (JNumber 0)] "id" = JNumber 0
  /\ fst (handleToolCall offline configured (lit "qualys_download_report")
            (Given [field "id" (JNumber 0)]) (initial_state 1700000000000))
     = text_content (JString (lit "Error: Unknown Error: Error: id is required"))
  /\ sent (snd (handleToolCall offline configured (lit "qualys_download_report")
                  (Given [field "id" (JNumber 0)]) (initial_state 1700000000000))) = [].
Proof.
  split; [reflexivity|]. split; [reflexivity|]. split; [reflexivity|].
  exact (@download_report_id_zero offline configured [field "id" (JNumber 0)]
           (initial_state 1700000000000) eq_refl eq_refl (or_introl eq_refl)).
Defined.

(** ** C8: the connection manager *)

Lemma getApiClient_cached (cfg : Config) (st : State) (client : AxiosInstance) :
  apiClient st = Some client -> getApiClient cfg st = (client, st).
Proof. intros H. unfold getApiClient. now rewrite H. Qed.

Lemma getApiClient_calls_cached (cfgs : list Config) (st : State) (client : AxiosInstance) :
  apiClient st = Some client ->
  getApiClient_calls cfgs st = (map (fun _ => client) cfgs, st).
Proof.
  intros H. induction cfgs as [|cfg cfgs IH]; simpl; [reflexivity|].
  now rewrite (getApiClient_cached cfg st H), IH.
Qed.

(** C8: the first call of [getApiClient] builds the client from the
    configured values of that moment (base URL, the three default headers
    with the Basic digest of [username:password], the timeout, the two
    pooled agents) and stores it; from then on every call, whatever the
    configured values have become and whatever else the state holds,
    returns this same instance and changes nothing, and no tool call
    replaces it: one instance is built and at most one digest is computed
    in the life of the process. *)
Theorem getApiClient_idempotent (cfg : Config) (st : State) :
  apiClient st = None ->
  cachedAuthHeader st = None ->
  let client := fst (getApiClient cfg st) in
  let st1 := snd (getApiClient cfg st) in
  client = {| instance_id := instances_created st;
              baseURL := QUALYS_API_URL cfg;
              default_headers :=
                [(lit "Authorization",
                   if (nonempty (QUALYS_USERNAME cfg) && nonempty (QUALYS_PASSWORD cfg))%bool
                   then lit "Basic "
                        ++ base64 (QUALYS_USERNAME cfg ++ lit ":" ++ QUALYS_PASSWORD cfg)
                   else []);
                 (lit "X-Requested-With", lit "qualys-mcp");
                 (lit "Content-Type", lit "application/x-www-form-urlencoded")];
              timeout := 120000;
              client_httpAgent := httpAgent;
              client_httpsAgent := httpsAgent |}
  /\ apiClient st1 = Some client
  /\ instances_created st1 = S (instances_created st)
  /\ digests_computed st1 <= S (digests_computed st)
  /\ (forall cfg' st', apiClient st' = Some client -> getApiClient cfg' st' = (client, st'))
  /\ (forall later, getApiClient_calls later st1 = (map (fun _ => client) later, st1))
  /\ (forall E calls, same_connection st1 (snd (serve E calls st1))).
Proof.
  intros Hclient Hheader. cbv zeta.
  assert (Hstored : apiClient (snd (getApiClient cfg st)) = Some (fst (getApiClient cfg st))).
  { unfold getApiClient. rewrite Hclient. reflexivity. }
  split; [|split; [exact Hstored|split; [|split; [|split; [|split]]]]].
  - unfold getApiClient. rewrite Hclient, Hheader. cbn [negb andb fst].
    destruct (nonempty (QUALYS_USERNAME cfg) && nonempty (QUALYS_PASSWORD cfg))%bool;
      [reflexivity | now rewrite Hheader].
  - unfold getApiClient. rewrite Hclient, Hheader. cbn [negb andb snd].
    destruct (nonempty (QUALYS_USERNAME cfg) && nonempty (QUALYS_PASSWORD cfg))%bool;
      reflexivity.
  - unfold getApiClient. rewrite Hclient, Hheader. cbn [negb andb snd].
    destruct (nonempty (QUALYS_USERNAME cfg) && nonempty (QUALYS_PASSWORD cfg))%bool;
      cbn; lia.
  - intros cfg' st'. apply getApiClient_cached.
  - intros later. now apply getApiClient_calls_cached.
  - intros E calls. eapply serve_keeps_client. exact Hstored.
Qed.

Lemma getApiClient_idempotent_witness :
  apiClient (initial_state 1700000000000) = None
  /\ cachedAuthHeader (initial_state 1700000000000) = None
  /\ getApiClient_calls [unconfigured; configured; unconfigured]
       (snd (getApiClient configured (initial_state 1700000000000)))
     = (let client := fst (getApiClient configured (initial_state 1700000000000)) in
        [client; client; client],
        snd (getApiClient configured (initial_state 1700000000000))).
Proof.
  split; [reflexivity|]. split; [reflexivity|].
  exact (proj1 (proj2 (proj2 (proj2 (proj2 (proj2
           (@getApiClient_idempotent configured (initial_state 1700000000000)
              eq_refl eq_refl))))))
           [unconfigured; configured; unconfigured]).
Defined.

(** ** C1: the rate limiter *)

(** A caller that runs alone starts its operation at least the minimum
    delay after the start recorded before it. *)
Lemma timer_delay_in_range (ms : Z) : (1 <= ms <= TIMEOUT_MAX)%Z -> timer_delay ms = ms.
Proof.
  intros H. unfold timer_delay.
  destruct (Z.ltb_spec ms 1); [lia|]. destruct (Z.ltb_spec TIMEOUT_MAX ms); [lia|].
  reflexivity.
Qed.

Lemma rateLimitedRequest_alone (E : Env) (st : State) :
  punctual E ->
  (lastRequestTime st <= clock st)%Z ->
  let started_at :=
    fst (rateLimitedRequest E (fun s => (Return (lastRequestTime s), s)) st) in
  exists t, started_at = Return t /\ (RATE_LIMIT_DELAY_MS <= t - lastRequestTime st)%Z.
Proof.
  intros Hpunctual Hlast.
  cbv zeta. unfold rateLimitedRequest, bind, Date_now, delay_needed, RATE_LIMIT_DELAY_MS.
  cbn [fst snd].
  destruct (clock st - lastRequestTime st <? 1000)%Z eqn:Hlt;
    unfold sleep, ret;
    cbn [fst snd clock lastRequestTime with_clock with_lastRequestTime];
    (eexists; split; [reflexivity|]).
  - apply Z.ltb_lt in Hlt.
    assert (Hms : (1 <= 1000 - (clock st - lastRequestTime st) <= TIMEOUT_MAX)%Z)
      by (unfold TIMEOUT_MAX; lia).
    rewrite (timer_delay_in_range Hms).
    specialize (Hpunctual (clock st) _ Hms). lia.
  - apply Z.ltb_ge in Hlt. lia.
Qed.

(** Callers that do not overlap are spaced: each starts at the time of its
    call or the minimum delay after the start before it, whichever is later. *)
Lemma run_sequential (calls : list (nat * Z)) :
  forall (fuel : nat) (l : EventLoop.Loop),
    EventLoop.timers l = [] ->
    2 * List.length calls <= fuel ->
    EventLoop.sequential (EventLoop.lastRequestTime l) calls ->
    EventLoop.started (EventLoop.run fuel calls l)
    = EventLoop.started l
      ++ EventLoop.sequential_starts (EventLoop.lastRequestTime l) calls.
Proof.
  induction calls as [|[caller t] rest IH]; intros fuel l Htimers Hfuel Hseq.
  - simpl. rewrite app_nil_r. destruct fuel; simpl; [reflexivity|].
    now rewrite Htimers.
  - destruct fuel as [|[|fuel]]; simpl in Hfuel; try lia.
    destruct Hseq as [Hlast Hrest].
    cbn [EventLoop.sequential_starts].
    change (EventLoop.run (S (S fuel)) ((caller, t) :: rest) l)
      with (match EventLoop.timers l with
            | [] => EventLoop.run (S fuel) rest (EventLoop.enter caller t l)
            | (due, _) :: _ =>
                if (due <=? t)%Z
                then EventLoop.run (S fuel) ((caller, t) :: rest) (EventLoop.fire l)
                else EventLoop.run (S fuel) rest (EventLoop.enter caller t l)
            end).
    rewrite Htimers. unfold EventLoop.enter, delay_needed.
    unfold RATE_LIMIT_DELAY_MS in *.
    destruct (t - EventLoop.lastRequestTime l <? 1000)%Z eqn:Hwait.
    + apply Z.ltb_lt in Hwait.
      rewrite timer_delay_in_range by (unfold TIMEOUT_MAX; lia).
      assert (Hmax : Z.max t (EventLoop.lastRequestTime l + 1000)
                     = (t + (1000 - (t - EventLoop.lastRequestTime l)))%Z) by lia.
      rewrite Hmax in *. rewrite Htimers. cbn [EventLoop.add_timer].
      set (due := (t + (1000 - (t - EventLoop.lastRequestTime l)))%Z) in *.
      set (waiting := {| EventLoop.lastRequestTime := EventLoop.lastRequestTime l;
                         EventLoop.timers := [(due, caller)];
                         EventLoop.started := EventLoop.started l |}).
      assert (Hfire : EventLoop.run (S fuel) rest waiting
                      = EventLoop.run fuel rest (EventLoop.fire waiting)).
      { destruct rest as [|[caller' t'] rest']; [reflexivity|].
        destruct Hrest as [Hdue _]. cbn [EventLoop.run EventLoop.timers waiting].
        apply Z.leb_le in Hdue. now rewrite Hdue. }
      rewrite Hfire. unfold EventLoop.fire, EventLoop.resume. cbn [EventLoop.timers waiting].
      rewrite IH; cbn [EventLoop.timers EventLoop.started EventLoop.lastRequestTime];
        [now rewrite <- app_assoc | reflexivity | lia | exact Hrest].
    + apply Z.ltb_ge in Hwait.
      assert (Hmax : Z.max t (EventLoop.lastRequestTime l + 1000) = t) by lia.
      rewrite Hmax in *. unfold EventLoop.resume.
      rewrite IH; cbn [EventLoop.timers EventLoop.started EventLoop.lastRequestTime];
        [now rewrite <- app_assoc | exact Htimers | lia | exact Hrest].
Qed.

Lemma sequential_starts_spaced (calls : list (nat * Z)) :
  forall (caller : nat) (last : Z),
    Forall (fun gap => (RATE_LIMIT_DELAY_MS <= gap)%Z)
           (EventLoop.gaps ((caller, last) :: EventLoop.sequential_starts last calls)).
Proof.
  induction calls as [|[caller' t] rest IH]; intros caller last.
  - constructor.
  - cbn [EventLoop.sequential_starts].
    change (EventLoop.gaps ((caller, last) :: ?x :: ?r))
      with ((snd x - last)%Z :: EventLoop.gaps (x :: r)).
    constructor; [cbn [snd]; unfold RATE_LIMIT_DELAY_MS; lia | apply (IH caller')].
Qed.


Lemma sequential_calls_spaced (calls : list (nat * Z)) :
  EventLoop.sequential 0 calls ->
  map fst (EventLoop.started (EventLoop.run_calls calls)) = map fst calls
  /\ Forall (fun gap => (RATE_LIMIT_DELAY_MS <= gap)%Z)
            (EventLoop.gaps (EventLoop.started (EventLoop.run_calls calls))).
Proof.
  intros Hseq. unfold EventLoop.run_calls.
  rewrite run_sequential; [|reflexivity|lia|exact Hseq].
  cbn [EventLoop.started EventLoop.initial EventLoop.lastRequestTime app].
  clear Hseq. split.
  - generalize 0%Z. induction calls as [|[caller t] rest IH]; intros last;
      [reflexivity|]. cbn [EventLoop.sequential_starts map fst]. f_equal. apply IH.
  - destruct calls as [|[caller t] rest]; [constructor|].
    cbn [EventLoop.sequential_starts]. apply sequential_starts_spaced.
Qed.

(** C1, on the code: three callers that call at the same clock reading.
    The first starts at once; the second and the third both read the same
    [lastRequestTime], both wait for 1000 ms, and both start when the clock
    reads 1000 ms more: the gap between these two consecutive starts is 0. *)
Theorem overlapping_calls_start_together :
  EventLoop.started
    (EventLoop.run_calls [(1, 1700000000000%Z); (2, 1700000000000%Z); (3, 1700000000000%Z)])
  = [(1, 1700000000000%Z); (2, 1700000001000%Z); (3, 1700000001000%Z)]
  /\ EventLoop.gaps
       (EventLoop.started
          (EventLoop.run_calls
             [(1, 1700000000000%Z); (2, 1700000000000%Z); (3, 1700000000000%Z)]))
     = [1000%Z; 0%Z]
  /\ ~ Forall (fun gap => (RATE_LIMIT_DELAY_MS <= gap)%Z)
         (EventLoop.gaps
            (EventLoop.started
               (EventLoop.run_calls
                  [(1, 1700000000000%Z); (2, 1700000000000%Z); (3, 1700000000000%Z)]))).
Proof.
  split; [reflexivity|]. split; [reflexivity|].
  intros H. vm_compute in H.
  inversion H as [|? ? _ H']. inversion H' as [|? ? Hgap _].
  apply Hgap. reflexivity.
Qed.

(** * Further properties of the dispatcher *)

(** ** One request per tool call *)

Lemma quiet_ret (A : Type) (a : A) : quiet (ret a).
Proof. intros st. repeat split. Qed.

Lemma quiet_throw (A : Type) (e : thrown) : quiet (@throw A e).
Proof. intros st. repeat split. Qed.

Lemma quiet_lift (A : Type) (c : completion A) : quiet (lift c).
Proof. intros st. repeat split. Qed.

Lemma quiet_Date_now : quiet Date_now.
Proof. intros st. repeat split. Qed.

Lemma quiet_require (present : bool) (msg : string) : quiet (require present msg).
Proof. destruct present; [apply quiet_ret | apply quiet_throw]. Qed.

Lemma quiet_bind (A B : Type) (m : M A) (k : A -> M B) :
  quiet m -> (forall a, quiet (k a)) -> quiet (bind m k).
Proof.
  intros Hm Hk st. unfold bind. specialize (Hm st).
  destruct (m st) as [[a|e] st1]; cbn [snd] in *; [|exact Hm].
  destruct Hm as (H1 & H2 & H3). destruct (Hk a st1) as (K1 & K2 & K3).
  repeat split; congruence.
Qed.

Lemma posts_quiet (E : Env) (client : AxiosInstance) (A : Type) (m : M A) :
  quiet m -> posts_at_most_once E client m.
Proof. intros Hm st. left. exact (Hm st). Qed.

Lemma posts_bind_after (E : Env) (client : AxiosInstance) (A B : Type)
      (m : M A) (k : A -> M B) :
  quiet m -> (forall a, posts_at_most_once E client (k a)) ->
  posts_at_most_once E client (bind m k).
Proof.
  intros Hm Hk st. unfold bind. specialize (Hm st).
  destruct (m st) as [[a|e] st1]; cbn [snd] in *.
  - destruct Hm as (H1 & H2 & H3). specialize (Hk a st1).
    rewrite H1, H2, H3 in Hk. exact Hk.
  - left. exact Hm.
Qed.

Lemma posts_bind_before (E : Env) (client : AxiosInstance) (A B : Type)
      (m : M A) (k : A -> M B) :
  posts_at_most_once E client m -> (forall a, quiet (k a)) ->
  posts_at_most_once E client (bind m k).
Proof.
  intros Hm Hk st. unfold bind. specialize (Hm st).
  destruct (m st) as [[a|e] st1] eqn:Hrun; cbn [fst snd] in *.
  - destruct (Hk a st1) as (K1 & K2 & K3).
    destruct Hm as [(H1 & H2 & H3) | (r & H1 & Hvia & H2 & Hfail)].
    + left. repeat split; congruence.
    + right. exists r. split; [congruence|]. split; [exact Hvia|]. split.
      * rewrite K2, K3. exact H2.
      * intros e He. specialize (Hfail e He). discriminate.
  - destruct Hm as [Hquiet | (r & H1 & Hvia & H2 & Hfail)].
    + left. exact Hquiet.
    + right. exists r. repeat split; try assumption; try (now apply H2).
      intros e' He. specialize (Hfail e' He). congruence.
Qed.

Lemma posts_rateLimitedRequest (E : Env) (client : AxiosInstance) (path : string)
      (params : jsstring) (hdrs : list (jsstring * jsstring)) (rtype : option jsstring) :
  posts_at_most_once E client (rateLimitedRequest E (post E client path params hdrs rtype)).
Proof.
  intros st. right.
  exists {| via := client; url := lit path; body := transformRequest hdrs params;
            config_headers := hdrs; responseType := rtype |}.
  split; [apply rateLimitedRequest_post_sent|]. split; [reflexivity|].
  unfold rateLimitedRequest, bind, Date_now, post, delay_needed, RATE_LIMIT_DELAY_MS.
  cbn [fst snd].
  destruct (clock st - lastRequestTime st <? 1000)%Z eqn:Hwait;
    unfold sleep, ret;
    cbn [fst snd clock lastRequestTime sent advance_clock with_clock
         with_lastRequestTime with_sent].
  - apply Z.ltb_lt in Hwait. split; [|tauto].
    intros Hpunctual Hlast.
    assert (Hms : (1 <= 1000 - (clock st - lastRequestTime st) <= TIMEOUT_MAX)%Z)
      by (unfold TIMEOUT_MAX; lia).
    rewrite (timer_delay_in_range Hms).
    specialize (Hpunctual (clock st) _ Hms). lia.
  - apply Z.ltb_ge in Hwait. split; [|tauto]. intros _ _. lia.
Qed.

Lemma posts_post_form (E : Env) (client : AxiosInstance) (path : string)
      (params : jsobject) (rtype : option jsstring) :
  posts_at_most_once E client (post_form E client path params rtype).
Proof.
  unfold post_form. apply posts_bind_after; [apply quiet_lift|].
  intros encoded. apply posts_rateLimitedRequest.
Qed.

Lemma posts_post_and_parse (E : Env) (client : AxiosInstance) (path : string)
      (params : jsobject) :
  posts_at_most_once E client (post_and_parse E client path params).
Proof.
  unfold post_and_parse. apply posts_bind_before; [apply posts_post_form|].
  intros response. apply quiet_lift.
Qed.

Create HintDb dispatch.

#[local] Hint Resolve quiet_ret quiet_throw quiet_lift quiet_Date_now quiet_require
  posts_rateLimitedRequest posts_post_form posts_post_and_parse : dispatch.

#[local] Hint Unfold qualys_list_hosts qualys_get_host_detections qualys_launch_scan
  qualys_list_scans qualys_get_scan_results qualys_cancel_scan qualys_pause_scan
  qualys_resume_scan scan_action qualys_list_reports qualys_launch_report
  qualys_download_report qualys_list_asset_groups qualys_get_knowledgebase
  qualys_get_knowledgebase_by_cve qualys_list_scanners qualys_list_option_profiles
  qualys_list_tags qualys_get_activity_log : dispatch.

Ltac quiet_steps :=
  repeat first
    [ solve [auto with dispatch]
    | match goal with
      | |- quiet (if ?b then _ else _) => destruct b
      | |- quiet (bind _ _) => apply quiet_bind; [|intros ?]
      end ].

Ltac posts_steps :=
  first
    [ solve [auto with dispatch]
    | match goal with
      | |- posts_at_most_once _ _ (if ?b then _ else _) => destruct b; posts_steps
      | |- posts_at_most_once _ _ (bind _ _) =>
          first [ apply posts_bind_after; [solve [quiet_steps] | intros ?; posts_steps]
                | apply posts_bind_before; [posts_steps | intros ?; solve [quiet_steps]] ]
      end ].

Lemma cases_post_at_most_once (E : Env) (client : AxiosInstance) :
  Forall (fun c => forall args, posts_at_most_once E client (snd c client args)) (cases E).
Proof.
  unfold cases.
  repeat (apply Forall_cons; [intros args; cbn [snd]|]); [..|apply Forall_nil].
  all: try unfold reading; destruct args as [|args];
    try apply posts_quiet, quiet_throw.
  all: autounfold with dispatch; cbv zeta; posts_steps.
Qed.

Lemma switch_posts_at_most_once (E : Env) (name : jsstring)
      (table : list (string * (AxiosInstance -> ToolArguments -> M jsvalue)))
      (client : AxiosInstance) (args : ToolArguments) :
  Forall (fun c => forall args, posts_at_most_once E client (snd c client args)) table ->
  posts_at_most_once E client (switch name table client args).
Proof.
  induction 1 as [|[label handler] table Hhandler _ IH]; simpl.
  - apply posts_quiet, quiet_throw.
  - destruct (str_eqb name (lit label)); [apply Hhandler | exact IH].
Qed.

Lemma getApiClient_frame (cfg : Config) (st : State) :
  sent (snd (getApiClient cfg st)) = sent st
  /\ lastRequestTime (snd (getApiClient cfg st)) = lastRequestTime st
  /\ clock (snd (getApiClient cfg st)) = clock st.
Proof.
  unfold getApiClient. destruct (apiClient st); [repeat split|]. cbn [snd].
  destruct (_ && _)%bool; repeat split.
Qed.

Lemma handleToolCall_posts (E : Env) (cfg : Config) (name : jsstring)
      (args : ToolArguments) (st : State) :
  (sent (snd (handleToolCall E cfg name args st)) = sent st
   /\ lastRequestTime (snd (handleToolCall E cfg name args st)) = lastRequestTime st
   /\ clock (snd (handleToolCall E cfg name args st)) = clock st)
  \/ exists r,
      sent (snd (handleToolCall E cfg name args st)) = sent st ++ [r]
      /\ via r = fst (getApiClient cfg st)
      /\ checkCredentials cfg = None
      /\ (punctual E ->
          (lastRequestTime st <= clock st)%Z ->
          (lastRequestTime st + RATE_LIMIT_DELAY_MS
           <= lastRequestTime (snd (handleToolCall E cfg name args st))
           <= clock (snd (handleToolCall E cfg name args st)))%Z)
      /\ (forall e, transport E (sent st) r = Throw e ->
          fst (handleToolCall E cfg name args st)
          = text_content (JString (lit "Error: " ++ handleApiError E e))).
Proof.
  unfold handleToolCall, checkCredentials.
  destruct (negb (nonempty (QUALYS_USERNAME cfg)) || negb (nonempty (QUALYS_PASSWORD cfg)))%bool.
  { left. repeat split; reflexivity. }
  destruct (getApiClient_frame cfg st) as (Fsent & Flast & Fclock).
  destruct (getApiClient cfg st) as [client st1]. cbn [fst snd] in *.
  pose proof (switch_posts_at_most_once name args (cases_post_at_most_once E client) st1)
    as Hposts.
  destruct (switch name (cases E) client args st1) as [[result|error] st2];
    cbn [fst snd] in *;
    (destruct Hposts as [(H1 & H2 & H3) | (r & H1 & Hvia & H2 & Hfail)];
     [left; repeat split; congruence|]);
    right; exists r; rewrite <- Fsent, <- Flast, <- Fclock;
    repeat split; try assumption; try (now apply H2);
    intros e He; specialize (Hfail e He).
  - discriminate.
  - congruence.
Qed.

Lemma handleToolCall_at_most_one_request_via
      (E : Env) (cfg : Config) (name : jsstring) (args : ToolArguments) (st : State) :
  sent (snd (handleToolCall E cfg name args st)) = sent st
  \/ exists r,
      sent (snd (handleToolCall E cfg name args st)) = sent st ++ [r]
      /\ via r = fst (getApiClient cfg st).
Proof.
  destruct (handleToolCall_posts E cfg name args st) as [[H _] | (r & H & Hvia & _)].
  - now left.
  - right. now exists r.
Qed.

(** X1: a tool call hands at most one request to the transport, whatever
    the operation, the arguments and the state; the request goes through
    the client [getApiClient] gives. *)
Theorem handleToolCall_at_most_one_request
        (E : Env) (cfg : Config) (name : jsstring) (args : jsobject) (st : State) :
  sent (snd (handleToolCall E cfg name args st)) = sent st
  \/ exists r,
      sent (snd (handleToolCall E cfg name args st)) = sent st ++ [r]
      /\ via r = fst (getApiClient cfg st).
Proof. apply handleToolCall_at_most_one_request_via. Qed.

(** X2: when the transport rejects the request of a tool call, the call
    returns the text ["Error: "] followed by the classification of that
    rejection, whatever the operation: no handler swallows or replaces a
    transport failure. *)
Theorem rejected_request_is_reported
        (E : Env) (cfg : Config) (name : jsstring) (args : jsobject) (st : State)
        (r : Request) (e : thrown) :
  sent (snd (handleToolCall E cfg name args st)) = sent st ++ [r] ->
  transport E (sent st) r = Throw e ->
  fst (handleToolCall E cfg name args st)
  = text_content (JString (lit "Error: " ++ handleApiError E e)).
Proof.
  intros Hsent Hreject.
  destruct (handleToolCall_posts E cfg name args st)
    as [[H _] | (r' & H & _ & _ & _ & Hfail)].
  - rewrite H in Hsent. apply (f_equal (@List.length Request)) in Hsent.
    rewrite length_app in Hsent. simpl in Hsent. lia.
  - rewrite H in Hsent. apply app_inj_tail in Hsent as [_ ->]. now apply Hfail.
Qed.

Lemma rejected_request_is_reported_witness :
  sent (snd (handleToolCall offline configured (lit "qualys_list_scanners") (Given [])
               (initial_state 1700000000000)))
  = sent (initial_state 1700000000000)
    ++ [ {| via := fst (getApiClient configured (initial_state 1700000000000));
            url := lit "/api/2.0/fo/appliance/"; body := lit "action=list";
            config_headers := []; responseType := None |} ]
  /\ transport offline (sent (initial_state 1700000000000))
       {| via := fst (getApiClient configured (initial_state 1700000000000));
          url := lit "/api/2.0/fo/appliance/"; body := lit "action=list";
          config_headers := []; responseType := None |}
     = Throw (Axios ECONNREFUSED)
  /\ fst (handleToolCall offline configured (lit "qualys_list_scanners") (Given [])
            (initial_state 1700000000000))
     = text_content
         (JString (lit "Error: Connection refused. Check your QUALYS_API_URL configuration.")).
Proof.
  split; [reflexivity|]. split; [reflexivity|].
  exact (@rejected_request_is_reported offline configured (lit "qualys_list_scanners") []
           (initial_state 1700000000000) _ _ eq_refl eq_refl).
Defined.

(** ** Tool calls one after the other *)



Lemma handleToolCall_unconfigured
      (E : Env) (cfg : Config) (name : jsstring) (args : ToolArguments) (st : State) :
  QUALYS_USERNAME cfg = [] \/ QUALYS_PASSWORD cfg = [] ->
  handleToolCall E cfg name args st
  = (text_content (JString (lit "Error: " ++ credentials_not_configured)), st).
Proof.
  intros H. unfold handleToolCall, checkCredentials.
  destruct H as [-> | ->]; cbn [nonempty negb orb]; [reflexivity|].
  now rewrite orb_true_r.
Qed.

(** X4: a process whose environment lacks [QUALYS_USERNAME] or
    [QUALYS_PASSWORD], or holds the empty string for one of them, answers
    every tool call with the configuration message and never changes its
    state: it builds no client and sends no request. *)
Theorem unconfigured_process_is_inert
        (E : Env) (env : string -> option jsstring)
        (calls : list (jsstring * jsobject)) (st : State) :
  env "QUALYS_USERNAME"%string = None \/ env "QUALYS_USERNAME"%string = Some []
  \/ env "QUALYS_PASSWORD"%string = None \/ env "QUALYS_PASSWORD"%string = Some [] ->
  serve_with E (load_config env) calls st
  = (map (fun _ => text_content (JString (lit "Error: " ++ credentials_not_configured)))
         calls,
     st).
Proof.
  intros Henv.
  assert (Hcfg : QUALYS_USERNAME (load_config env) = []
                 \/ QUALYS_PASSWORD (load_config env) = []).
  { unfold load_config. cbn [QUALYS_USERNAME QUALYS_PASSWORD].
    destruct Henv as [H | [H | [H | H]]]; rewrite H; auto. }
  unfold serve_with. induction calls as [|[name args] calls IH]; simpl; [reflexivity|].
  rewrite (handleToolCall_unconfigured E _ name args st Hcfg).
  now rewrite IH.
Qed.

Lemma unconfigured_process_is_inert_witness :
  ((fun _ : string => @None jsstring) "QUALYS_USERNAME"%string = None
   \/ (fun _ : string => @None jsstring) "QUALYS_USERNAME"%string = Some []
   \/ (fun _ : string => @None jsstring) "QUALYS_PASSWORD"%string = None
   \/ (fun _ : string => @None jsstring) "QUALYS_PASSWORD"%string = Some [])
  /\ snd (serve_with offline (load_config (fun _ => None))
            [(lit "qualys_list_hosts", []);
             (lit "qualys_launch_scan", [field "scan_title" (str "weekly scan")])]
            (initial_state 1700000000000))
     = initial_state 1700000000000.
Proof.
  split; [left; reflexivity|].
  rewrite (@unconfigured_process_is_inert offline (fun _ => None)
             [(lit "qualys_list_hosts", []);
              (lit "qualys_launch_scan", [field "scan_title" (str "weekly scan")])]
             (initial_state 1700000000000) (or_introl eq_refl)).
  reflexivity.
Defined.

(** ** One client for the whole process *)

Lemma getApiClient_fresh (cfg : Config) (st : State) :
  nonempty (QUALYS_USERNAME cfg) = true ->
  nonempty (QUALYS_PASSWORD cfg) = true ->
  apiClient st = None ->
  cachedAuthHeader st = None ->
  authorization (fst (getApiClient cfg st))
  = lit "Basic " ++ base64 (QUALYS_USERNAME cfg ++ lit ":" ++ QUALYS_PASSWORD cfg)
  /\ baseURL (fst (getApiClient cfg st)) = QUALYS_API_URL cfg
  /\ apiClient (snd (getApiClient cfg st)) = Some (fst (getApiClient cfg st)).
Proof.
  intros Hu Hp Hclient Hheader. unfold getApiClient.
  rewrite Hclient, Hheader, Hu, Hp. repeat split.
Qed.

Lemma handleToolCall_stores_client
      (E : Env) (cfg : Config) (name : jsstring) (args : jsobject) (st : State) :
  nonempty (QUALYS_USERNAME cfg) = true ->
  nonempty (QUALYS_PASSWORD cfg) = true ->
  apiClient (snd (getApiClient cfg st)) = Some (fst (getApiClient cfg st)) ->
  apiClient (snd (handleToolCall E cfg name args st)) = Some (fst (getApiClient cfg st)).
Proof.
  intros Hu Hp Hstored. rewrite (handleToolCall_configured E cfg Hu Hp).
  pose proof (switch_keeps_connection name (fst (getApiClient cfg st)) args
                (cases_keep_connection E) (snd (getApiClient cfg st))) as [Hkeep _].
  destruct (switch name (cases E) (fst (getApiClient cfg st)) args (snd (getApiClient cfg st)))
    as [[result|error] st2]; cbn [snd] in *; congruence.
Qed.

Lemma serve_with_cached_client
      (E : Env) (cfg : Config) (calls : list (jsstring * jsobject)) (client : AxiosInstance) :
  forall st,
    apiClient st = Some client ->
    exists new,
      sent (snd (serve_with E cfg calls st)) = sent st ++ new
      /\ Forall (fun r => via r = client) new.
Proof.
  unfold serve_with.
  induction calls as [|[name args] calls IH]; intros st Hclient; cbn [map serve fst snd].
  - exists []. now rewrite app_nil_r.
  - pose proof (handleToolCall_at_most_one_request_via E cfg name args st) as Hstep.
    pose proof (handleToolCall_keeps_client E cfg name args st Hclient) as [Hkeep _].
    rewrite (getApiClient_cached cfg st Hclient) in Hstep. cbn [fst] in Hstep.
    destruct (handleToolCall E cfg name args st) as [result st1]. cbn [snd] in *.
    destruct (IH st1) as (new & Hsent & Hvia); [congruence|].
    destruct (serve E _ st1) as [results st2]. cbn [snd] in *.
    destruct Hstep as [H1 | (r & H1 & Hr)].
    + exists new. now rewrite Hsent, H1.
    + exists (r :: new). rewrite Hsent, H1, <- app_assoc. split; [reflexivity|].
      now constructor.
Qed.

(** X5: in a process with credentials configured that starts without a
    client, every request of every tool call goes through one and the same
    client, whose base URL is the configured one and whose [Authorization]
    header is ["Basic "] followed by the Base64 digest of
    [username:password]. *)
Theorem requests_share_one_authorized_client
        (E : Env) (cfg : Config) (calls : list (jsstring * jsobject)) (st : State) :
  nonempty (QUALYS_USERNAME cfg) = true ->
  nonempty (QUALYS_PASSWORD cfg) = true ->
  apiClient st = None ->
  cachedAuthHeader st = None ->
  exists client new,
    authorization client
    = lit "Basic " ++ base64 (QUALYS_USERNAME cfg ++ lit ":" ++ QUALYS_PASSWORD cfg)
    /\ baseURL client = QUALYS_API_URL cfg
    /\ sent (snd (serve_with E cfg calls st)) = sent st ++ new
    /\ Forall (fun r => via r = client) new.
Proof.
  intros Hu Hp Hclient Hheader.
  destruct (getApiClient_fresh cfg st Hu Hp Hclient Hheader) as (Hauth & Hbase & Hstored).
  exists (fst (getApiClient cfg st)).
  destruct calls as [|[name args] calls].
  - exists []. rewrite app_nil_r. repeat split; try assumption. constructor.
  - unfold serve_with. cbn [map serve fst snd].
    pose proof (handleToolCall_at_most_one_request_via E cfg name args st) as Hstep.
    pose proof (handleToolCall_stores_client E cfg name args st Hu Hp Hstored) as Hnext.
    destruct (handleToolCall E cfg name args st) as [result st1]. cbn [snd] in *.
    destruct (serve_with_cached_client E cfg calls st1 Hnext) as (new & Hsent & Hvia).
    unfold serve_with in Hsent.
    destruct (serve E _ st1) as [results st2]. cbn [snd] in *.
    destruct Hstep as [H1 | (r & H1 & Hr)].
    + exists new. rewrite Hsent, H1. repeat split; assumption.
    + exists (r :: new). rewrite Hsent, H1, <- app_assoc.
      repeat split; try assumption. now constructor.
Qed.

Lemma requests_share_one_authorized_client_witness :
  nonempty (QUALYS_USERNAME configured) = true
  /\ nonempty (QUALYS_PASSWORD configured) = true
  /\ apiClient (initial_state 1700000000000) = None
  /\ cachedAuthHeader (initial_state 1700000000000) = None
  /\ exists client new,
      authorization client = lit "Basic c2Nhbm5lcjpzM2NyZXQ="
      /\ baseURL client = lit "https://qualysapi.qualys.com"
      /\ sent (snd (serve_with offline configured
                      [(lit "qualys_list_scanners", []); (lit "qualys_list_tags", [])]
                      (initial_state 1700000000000)))
         = sent (initial_state 1700000000000) ++ new
      /\ Forall (fun r => via r = client) new.
Proof.
  repeat (split; [reflexivity|]).
  exact (@requests_share_one_authorized_client offline configured
           [(lit "qualys_list_scanners", []); (lit "qualys_list_tags", [])]
           (initial_state 1700000000000) eq_refl eq_refl eq_refl eq_refl).
Defined.

(** * Properties of the encoder *)

(** ** encodeURIComponent *)

(** What holds of every code unit of the input, [Q], and what holds of
    every code unit an escape produces, [P], carries over to the output. *)
Lemma encodeURIComponent_Forall (P Q : code_unit -> Prop) :
  (forall c, unreserved c = true -> P c) ->
  (forall c, Q c -> is_surrogate c = false -> Forall P (percent_escape c)) ->
  (forall c d, is_lead_surrogate c = true -> is_trail_surrogate d = true ->
               Forall P (percent_escape ((c - 55296) * 1024 + (d - 56320) + 65536)%N)) ->
  forall n s out,
    List.length s <= n -> Forall Q s -> encodeURIComponent s = Return out -> Forall P out.
Proof.
  intros Hplain Hescape Hpair. induction n as [|n IH]; intros s out Hlen HQ Henc.
  - destruct s; [|simpl in Hlen; lia]. injection Henc as <-. constructor.
  - destruct s as [|c rest]; [injection Henc as <-; constructor|].
    simpl in Hlen. inversion HQ as [|? ? Qc Qrest]; subst.
    cbn [encodeURIComponent] in Henc.
    destruct (unreserved c) eqn:Hc.
    + destruct (encodeURIComponent rest) as [r|] eqn:Hrest; [|discriminate].
      injection Henc as <-. constructor; [now apply Hplain|].
      apply (IH rest); [lia | assumption | assumption].
    + destruct (is_trail_surrogate c) eqn:Htrail; [discriminate|].
      destruct (is_lead_surrogate c) eqn:Hlead.
      * destruct rest as [|d rest']; [discriminate|].
        destruct (is_trail_surrogate d) eqn:Hd; [|discriminate].
        destruct (encodeURIComponent rest') as [r|] eqn:Hrest; [|discriminate].
        injection Henc as <-. apply Forall_app. split; [now apply Hpair|].
        inversion Qrest; subst. simpl in Hlen.
        apply (IH rest'); [lia | assumption | assumption].
      * destruct (encodeURIComponent rest) as [r|] eqn:Hrest; [|discriminate].
        injection Henc as <-. apply Forall_app. split.
        -- apply Hescape; [assumption|]. unfold is_surrogate. now rewrite Hlead, Htrail.
        -- apply (IH rest); [lia | assumption | assumption].
Qed.

Lemma hex_digit_unreserved (n : N) : (n < 16)%N -> unreserved (hex_digit n) = true.
Proof.
  intros H.
  assert (Hn : In n [0; 1; 2; 3; 4; 5; 6; 7; 8; 9; 10; 11; 12; 13; 14; 15]%N).
  { assert (Z.of_N n < 16)%Z by lia.
    replace n with (Z.to_N (Z.of_N n)) by apply N2Z.id.
    assert (0 <= Z.of_N n)%Z by lia.
    destruct (Z.of_N n) as [|p|p]; [simpl; tauto | | lia].
    do 16 (destruct p as [p|p|]; try lia; try (simpl; tauto)). }
  simpl in Hn. repeat (destruct Hn as [<- | Hn]; [reflexivity|]). contradiction.
Qed.

Lemma percent_octet_url_safe (b : N) :
  (b < 256)%N -> Forall (fun c => url_safe c = true) (percent_octet b).
Proof.
  intros H. unfold percent_octet, url_safe.
  assert (b / 16 < 16)%N by (apply N.Div0.div_lt_upper_bound; lia).
  assert (b mod 16 < 16)%N by (apply N.mod_lt; lia).
  repeat constructor; try (rewrite hex_digit_unreserved by assumption; reflexivity).
Qed.

Lemma utf8_octets_small (cp : N) :
  (cp < 1114112)%N -> Forall (fun b => (b < 256)%N) (utf8 cp).
Proof.
  intros H. unfold utf8.
  destruct (N.ltb_spec cp 128); [repeat constructor; lia|].
  destruct (N.ltb_spec cp 2048).
  { assert (cp / 64 < 32)%N by (apply N.Div0.div_lt_upper_bound; lia).
    assert (cp mod 64 < 64)%N by (apply N.mod_lt; lia).
    repeat constructor; lia. }
  destruct (N.ltb_spec cp 65536).
  { assert (cp / 4096 < 16)%N by (apply N.Div0.div_lt_upper_bound; lia).
    assert ((cp / 64) mod 64 < 64)%N by (apply N.mod_lt; lia).
    assert (cp mod 64 < 64)%N by (apply N.mod_lt; lia).
    repeat constructor; lia. }
  assert (cp / 262144 < 5)%N by (apply N.Div0.div_lt_upper_bound; lia).
  assert ((cp / 4096) mod 64 < 64)%N by (apply N.mod_lt; lia).
  assert ((cp / 64) mod 64 < 64)%N by (apply N.mod_lt; lia).
  assert (cp mod 64 < 64)%N by (apply N.mod_lt; lia).
  repeat constructor; lia.
Qed.

Lemma percent_escape_url_safe (cp : N) :
  (cp < 1114112)%N -> Forall (fun c => url_safe c = true) (percent_escape cp).
Proof.
  intros H. unfold percent_escape.
  pose proof (utf8_octets_small H) as Hsmall.
  induction Hsmall as [|b l Hb _ IH]; cbn [flat_map]; [constructor|].
  apply Forall_app. split; [now apply percent_octet_url_safe | exact IH].
Qed.

Lemma surrogate_pair_code_point (c d : code_unit) :
  is_lead_surrogate c = true -> is_trail_surrogate d = true ->
  ((c - 55296) * 1024 + (d - 56320) + 65536 < 1114112)%N.
Proof.
  unfold is_lead_surrogate, is_trail_surrogate, in_range. intros Hc Hd.
  apply andb_true_iff in Hc as [Hc1 Hc2]. apply andb_true_iff in Hd as [Hd1 Hd2].
  apply N.leb_le in Hc1, Hc2, Hd1, Hd2. lia.
Qed.

(** The output of [encodeURIComponent] on a string of UTF-16 code units
    holds nothing but unreserved characters and the percent signs of its
    escapes. *)
Lemma encodeURIComponent_url_safe (s out : jsstring) :
  Forall is_code_unit s ->
  encodeURIComponent s = Return out ->
  Forall (fun c => url_safe c = true) out.
Proof.
  intros Hs Henc.
  apply (@encodeURIComponent_Forall (fun c => url_safe c = true) is_code_unit)
    with (n := List.length s) (s := s); try assumption; try reflexivity.
  - intros c Hc. unfold url_safe. now rewrite Hc.
  - intros c Hc _. apply percent_escape_url_safe. unfold is_code_unit in Hc. lia.
  - intros c d Hc Hd. apply percent_escape_url_safe. now apply surrogate_pair_code_point.
Qed.

Lemma encodeURIComponent_url_safe_witness :
  Forall is_code_unit (lit "a b&c=d/e?") 
  /\ encodeURIComponent (lit "a b&c=d/e?") = Return (lit "a%20b%26c%3Dd%2Fe%3F")
  /\ Forall (fun c => url_safe c = true) (lit "a%20b%26c%3Dd%2Fe%3F").
Proof.
  assert (H : Forall is_code_unit (lit "a b&c=d/e?"))
    by (repeat constructor).
  split; [exact H|]. split; [reflexivity|].
  exact (@encodeURIComponent_url_safe (lit "a b&c=d/e?") (lit "a%20b%26c%3Dd%2Fe%3F")
           H eq_refl).
Defined.

Lemma encodeURIComponent_throws_URIError (n : nat) :
  forall s e, List.length s <= n -> encodeURIComponent s = Throw e -> e = URIError.
Proof.
  induction n as [|n IH]; intros s e Hlen Henc.
  - destruct s; [discriminate | simpl in Hlen; lia].
  - destruct s as [|c rest]; [discriminate|]. simpl in Hlen.
    cbn [encodeURIComponent] in Henc.
    destruct (unreserved c).
    { destruct (encodeURIComponent rest) eqn:Hrest; [discriminate|].
      injection Henc as <-. apply (IH rest); [lia | assumption]. }
    destruct (is_trail_surrogate c); [now injection Henc|].
    destruct (is_lead_surrogate c).
    + destruct rest as [|d rest']; [now injection Henc|].
      destruct (is_trail_surrogate d); [|now injection Henc].
      destruct (encodeURIComponent rest') eqn:Hrest; [discriminate|].
      injection Henc as <-. simpl in Hlen. apply (IH rest'); [lia | assumption].
    + destruct (encodeURIComponent rest) eqn:Hrest; [discriminate|].
      injection Henc as <-. apply (IH rest); [lia | assumption].
Qed.

Lemma encodeURIComponent_without_surrogates_total (s : jsstring) :
  Forall (fun c => is_surrogate c = false) s ->
  (exists out, encodeURIComponent s = Return out)
  /\ (forall t e, encodeURIComponent t = Throw e -> e = URIError).
Proof.
  intros Hs. split.
  - induction Hs as [|c rest Hc _ [out IH]]; [now exists []|].
    cbn [encodeURIComponent]. unfold is_surrogate in Hc.
    apply orb_false_iff in Hc as [Hlead Htrail]. rewrite Hlead, Htrail, IH.
    destruct (unreserved c); eexists; reflexivity.
  - intros t e. now apply (@encodeURIComponent_throws_URIError (List.length t)).
Qed.

(** [encodeURIComponent] does not throw on a string that holds no
    surrogate code unit (all of ASCII and the rest of the Basic
    Multilingual Plane); when it throws, it throws [URIError]. *)
Lemma encodeURIComponent_without_surrogates (s : jsstring) :
  Forall (fun c => is_surrogate c = false) s ->
  (exists out, encodeURIComponent s = Return out)
  /\ (forall t e, encodeURIComponent t = Throw e -> e = URIError).
Proof. apply encodeURIComponent_without_surrogates_total. Qed.

Lemma encodeURIComponent_without_surrogates_witness :
  Forall (fun c => is_surrogate c = false) (lit "10.0.0.1,10.0.0.2")
  /\ exists out, encodeURIComponent (lit "10.0.0.1,10.0.0.2") = Return out.
Proof.
  assert (H : Forall (fun c => is_surrogate c = false) (lit "10.0.0.1,10.0.0.2"))
    by (repeat constructor).
  split; [exact H|].
  exact (proj1 (@encodeURIComponent_without_surrogates (lit "10.0.0.1,10.0.0.2") H)).
Defined.

(** A string of unreserved characters ([A-Z a-z 0-9 - _ . ! ~ * ' ( )])
    is encoded as itself. *)
Lemma encodeURIComponent_unreserved (s : jsstring) :
  Forall (fun c => unreserved c = true) s -> encodeURIComponent s = Return s.
Proof.
  induction 1 as [|c rest Hc _ IH]; [reflexivity|].
  cbn [encodeURIComponent]. now rewrite Hc, IH.
Qed.

Lemma encodeURIComponent_unreserved_witness :
  Forall (fun c => unreserved c = true) (lit "truncation_limit")
  /\ encodeURIComponent (lit "truncation_limit") = Return (lit "truncation_limit").
Proof.
  assert (H : Forall (fun c => unreserved c = true) (lit "truncation_limit"))
    by (repeat constructor).
  split; [exact H | exact (@encodeURIComponent_unreserved (lit "truncation_limit") H)].
Defined.

(** ** The separators of a form body *)

Lemma hex_digit_no_separator (n : N) :
  hex_digit n <> ampersand /\ hex_digit n <> equals_sign.
Proof.
  unfold hex_digit, ampersand, equals_sign.
  destruct (N.ltb_spec n 10); split; lia.
Qed.

Lemma encodeURIComponent_no_separator (s out : jsstring) :
  encodeURIComponent s = Return out ->
  Forall (fun c => c <> ampersand /\ c <> equals_sign) out.
Proof.
  intros Henc.
  apply (@encodeURIComponent_Forall (fun c => c <> ampersand /\ c <> equals_sign)
           (fun _ => True)) with (n := List.length s) (s := s);
    try assumption; try reflexivity.
  - intros c Hc. split; intros ->; discriminate.
  - intros c _ _. unfold percent_escape.
    induction (utf8 c) as [|b l IH]; cbn [flat_map]; [constructor|].
    apply Forall_app. split; [|exact IH].
    unfold percent_octet. repeat constructor; try discriminate;
      apply hex_digit_no_separator.
  - intros c d _ _. unfold percent_escape.
    induction (utf8 _) as [|b l IH]; cbn [flat_map]; [constructor|].
    apply Forall_app. split; [|exact IH].
    unfold percent_octet. repeat constructor; try discriminate;
      apply hex_digit_no_separator.
  - apply Forall_forall. trivial.
Qed.

Lemma occurrences_none (x : code_unit) (s : jsstring) :
  Forall (fun c => c <> x) s -> occurrences x s = 0.
Proof.
  intros H. unfold occurrences. apply count_occ_not_In.
  intros Hin. rewrite Forall_forall in H. now apply (H x).
Qed.

Lemma occurrences_app (x : code_unit) (s t : jsstring) :
  occurrences x (s ++ t) = occurrences x s + occurrences x t.
Proof. apply count_occ_app. Qed.

Lemma occurrences_cons (x c : code_unit) (s : jsstring) :
  occurrences x (c :: s) = (if N.eqb c x then 1 else 0) + occurrences x s.
Proof.
  unfold occurrences. cbn [count_occ].
  destruct (N.eq_dec c x), (N.eqb_spec c x); try contradiction; reflexivity.
Qed.

(** What a rendered entry is made of. *)
Lemma render_returns (e : jsstring * jsvalue) (pair : jsstring) :
  render e = Return pair ->
  exists k v,
    encodeURIComponent (fst e) = Return k
    /\ has_string_form (snd e) = true
    /\ encodeURIComponent (ToString (snd e)) = Return v
    /\ pair = k ++ lit "=" ++ v.
Proof.
  unfold render, String_of_value. intros H.
  destruct (encodeURIComponent (fst e)) as [k|] eqn:Hk; [|discriminate].
  destruct (has_string_form (snd e)); [|discriminate]. cbn [cbind] in H.
  destruct (encodeURIComponent (ToString (snd e))) as [v|] eqn:Hv; [|discriminate].
  injection H as <-. exists k, v. repeat split; reflexivity.
Qed.

Lemma render_separators (e : jsstring * jsvalue) (pair : jsstring) :
  render e = Return pair ->
  occurrences equals_sign pair = 1 /\ occurrences ampersand pair = 0.
Proof.
  intros H. apply render_returns in H as (k & v & Hk & _ & Hv & ->).
  apply encodeURIComponent_no_separator in Hk, Hv.
  assert (Hke : occurrences equals_sign k = 0)
    by (apply occurrences_none; eapply Forall_impl; [|exact Hk]; cbv beta; tauto).
  assert (Hka : occurrences ampersand k = 0)
    by (apply occurrences_none; eapply Forall_impl; [|exact Hk]; cbv beta; tauto).
  assert (Hve : occurrences equals_sign v = 0)
    by (apply occurrences_none; eapply Forall_impl; [|exact Hv]; cbv beta; tauto).
  assert (Hva : occurrences ampersand v = 0)
    by (apply occurrences_none; eapply Forall_impl; [|exact Hv]; cbv beta; tauto).
  change (lit "=" ++ v) with (equals_sign :: v).
  rewrite !occurrences_app, !occurrences_cons, Hke, Hka, Hve, Hva. split; reflexivity.
Qed.

Lemma join_separators (entries : list jsstring) :
  Forall (fun pair => occurrences equals_sign pair = 1 /\ occurrences ampersand pair = 0)
         entries ->
  occurrences equals_sign (join (lit "&") entries) = List.length entries
  /\ occurrences ampersand (join (lit "&") entries) = pred (List.length entries).
Proof.
  induction 1 as [|pair rest [He Ha] _ [IHe IHa]]; [split; reflexivity|].
  destruct rest as [|next rest].
  - cbn [join List.length pred]. now split.
  - change (join (lit "&") (pair :: next :: rest))
      with (pair ++ lit "&" ++ join (lit "&") (next :: rest)).
    rewrite !occurrences_app, He, Ha, IHe, IHa. cbn [List.length pred]. split; reflexivity.
Qed.

Lemma map_throwing_render (l : list (jsstring * jsvalue)) (entries : list jsstring) :
  map_throwing render l = Return entries ->
  List.length entries = List.length l
  /\ Forall (fun pair => occurrences equals_sign pair = 1 /\ occurrences ampersand pair = 0)
            entries.
Proof.
  revert entries. induction l as [|e l IH]; intros entries H.
  - injection H as <-. split; [reflexivity | constructor].
  - cbn [map_throwing] in H.
    destruct (render e) as [pair|] eqn:Hpair; [|discriminate]. cbn [cbind] in H.
    destruct (map_throwing render l) as [rest|]; [|discriminate].
    injection H as <-. destruct (IH rest eq_refl) as [Hlen Hall].
    split; [simpl; now rewrite Hlen|].
    constructor; [now apply (render_separators e) | exact Hall].
Qed.

(** [Object.entries] loses and repeats nothing: a test passes as often on
    the entries as on the properties. *)
Lemma insert_by_index_filter (f : jsstring * jsvalue -> bool)
      (x : N * (jsstring * jsvalue)) (l : list (N * (jsstring * jsvalue))) :
  List.length (filter f (map snd (insert_by_index x l)))
  = List.length (filter f (snd x :: map snd l)).
Proof.
  induction l as [|y l IH]; [reflexivity|].
  cbn [insert_by_index]. destruct (N.leb (fst x) (fst y)); [reflexivity|].
  cbn [map filter] in *. destruct (f (snd y)), (f (snd x)); cbn [List.length] in *; lia.
Qed.

Lemma Object_entries_filter (f : jsstring * jsvalue -> bool) (o : jsobject) :
  List.length (filter f (Object_entries o)) = List.length (filter f o).
Proof.
  unfold Object_entries. rewrite filter_app, length_app.
  assert (Hsorted : forall l,
             List.length (filter f (map snd (fold_right insert_by_index [] l)))
             = List.length (filter f (map snd l))).
  { induction l as [|x l IH]; [reflexivity|].
    cbn [fold_right]. rewrite insert_by_index_filter.
    cbn [map filter]. destruct (f (snd x)); cbn [List.length]; now rewrite IH. }
  rewrite Hsorted. unfold indexed, is_array_index.
  induction o as [|e o IH]; [reflexivity|].
  cbn [flat_map filter]. destruct (array_index (fst e)); cbn [app map filter negb snd].
  - destruct (f e); cbn [List.length]; lia.
  - destruct (f e); cbn [List.length]; lia.
Qed.

Lemma buildFormData_separators_pairs (params : jsobject) (out : jsstring) :
  buildFormData params = Return out ->
  occurrences equals_sign out = List.length (filter kept params)
  /\ occurrences ampersand out = pred (List.length (filter kept params)).
Proof.
  unfold buildFormData. intros H.
  destruct (map_throwing render (filter kept (Object_entries params)))
    as [entries|] eqn:Hentries; [|discriminate].
  injection H as <-.
  destruct (map_throwing_render _ Hentries) as [Hlen Hall].
  rewrite Object_entries_filter in Hlen. rewrite <- Hlen.
  now apply join_separators.
Qed.

(** X6: in the body [buildFormData] returns there are as many equals
    signs as entries that are kept (value neither [undefined] nor [""]),
    and one ampersand fewer: whatever the keys and the values hold, each
    kept entry is one [key=value] pair of the body and no value adds a
    pair of its own. *)
Theorem buildFormData_separators (params : jsobject) (out : jsstring) :
  buildFormData params = Return out ->
  occurrences equals_sign out = List.length (filter kept params)
  /\ occurrences ampersand out = pred (List.length (filter kept params)).
Proof. apply buildFormData_separators_pairs. Qed.

Lemma buildFormData_separators_witness :
  buildFormData [field "title" (str "a&b=c"); field "ids" JUndefined; field "n" (JNumber 7)]
  = Return (lit "title=a%26b%3Dc&n=7")
  /\ occurrences equals_sign (lit "title=a%26b%3Dc&n=7") = 2
  /\ occurrences ampersand (lit "title=a%26b%3Dc&n=7") = 1.
Proof.
  split; [reflexivity|].
  exact (@buildFormData_separators
           [field "title" (str "a&b=c"); field "ids" JUndefined; field "n" (JNumber 7)]
           (lit "title=a%26b%3Dc&n=7") eq_refl).
Defined.

Lemma Object_entries_In (o : jsobject) (e : jsstring * jsvalue) :
  In e (Object_entries o) -> In e o.
Proof.
  unfold Object_entries. intros H. apply in_app_or in H as [H | H].
  - apply in_map_iff in H as ([n e'] & <- & H). cbn [snd].
    assert (Hsorted : forall l x, In x (fold_right insert_by_index [] l) -> In x l).
    { induction l as [|y l IH]; intros x Hx; [exact Hx|]. cbn [fold_right] in Hx.
      assert (Hins : forall l' z, In z (insert_by_index y l') -> z = y \/ In z l').
      { induction l' as [|w l' IH']; intros z Hz.
        - destruct Hz as [<- | []]. now left.
        - cbn [insert_by_index] in Hz. destruct (N.leb (fst y) (fst w)).
          + destruct Hz as [<- | Hz]; [now left | now right].
          + destruct Hz as [<- | Hz]; [right; now left|].
            destruct (IH' z Hz) as [-> | Hin]; [now left | right; now right]. }
      destruct (Hins _ _ Hx) as [-> | Hin]; [now left | right; now apply IH]. }
    apply Hsorted in H. unfold indexed in H. apply in_flat_map in H as (e0 & He0 & H).
    destruct (array_index (fst e0)); [|contradiction].
    destruct H as [H | []]. injection H as _ <-. exact He0.
  - now apply filter_In in H as [H _].
Qed.

(** X7: [buildFormData] throws nothing but the [URIError] of
    [encodeURIComponent] and the [TypeError] of [String], and it returns
    when every value has a string form and no key and no string form holds
    a surrogate code unit. *)
Theorem buildFormData_without_surrogates (params : jsobject) :
  Forall (fun e => has_string_form (snd e) = true
                   /\ Forall (fun c => is_surrogate c = false) (fst e)
                   /\ Forall (fun c => is_surrogate c = false) (ToString (snd e)))
         params ->
  (exists out, buildFormData params = Return out)
  /\ (forall other e,
         buildFormData other = Throw e -> e = URIError \/ e = cannot_convert).
Proof.
  intros Hparams. split.
  - unfold buildFormData.
    assert (Hall : Forall (fun e => exists pair, render e = Return pair)
                          (filter kept (Object_entries params))).
    { apply Forall_forall. intros e He. apply filter_In in He as [He _].
      apply Object_entries_In in He. rewrite Forall_forall in Hparams.
      destruct (Hparams e He) as (Hform & Hk & Hv). unfold render, String_of_value.
      destruct (proj1 (encodeURIComponent_without_surrogates_total Hk)) as [k Hk'].
      destruct (proj1 (encodeURIComponent_without_surrogates_total Hv)) as [v Hv'].
      change (encodeURIComponent (@fst jsstring jsvalue e) = Return k) in Hk'.
      change (encodeURIComponent (ToString (@snd jsstring jsvalue e)) = Return v) in Hv'.
      change (has_string_form (@snd jsstring jsvalue e) = true) in Hform.
      eexists. rewrite Hk', Hform. cbn [cbind]. rewrite Hv'. reflexivity. }
    induction Hall as [|e l [pair Hpair] _ [out IH]]; [now exists []|].
    cbn [map_throwing]. rewrite Hpair. cbn [cbind].
    destruct (map_throwing render l) as [entries|]; [|discriminate].
    eexists; reflexivity.
  - intros other e. unfold buildFormData.
    generalize (filter kept (Object_entries other)). intros l.
    destruct (map_throwing render l) as [entries|e'] eqn:Hl; [discriminate|].
    intros H. injection H as <-. revert Hl.
    induction l as [|x l IH]; [discriminate|]. cbn [map_throwing].
    destruct (render x) as [pair|e0] eqn:Hx; cbn [cbind].
    + destruct (map_throwing render l); [discriminate|].
      intros H. injection H as ->. now apply IH.
    + intros H. injection H as ->. unfold render, String_of_value in Hx.
      destruct (encodeURIComponent (fst x)) eqn:Hk; cbn [cbind] in Hx.
      * destruct (has_string_form (snd x)); cbn [cbind] in Hx.
        -- destruct (encodeURIComponent (ToString (snd x))) eqn:Hv; [discriminate|].
           injection Hx as <-. left.
           now apply (@encodeURIComponent_throws_URIError _ _ _ (le_n _) Hv).
        -- injection Hx as <-. now right.
      * injection Hx as <-. left.
        now apply (@encodeURIComponent_throws_URIError _ _ _ (le_n _) Hk).
Qed.

Lemma buildFormData_without_surrogates_witness :
  Forall (fun e => has_string_form (snd e) = true
                   /\ Forall (fun c => is_surrogate c = false) (fst e)
                   /\ Forall (fun c => is_surrogate c = false) (ToString (snd e)))
         [field "ips" (str "10.0.0.1"); field "truncation_limit" (JNumber 100)]
  /\ (exists out,
        buildFormData [field "ips" (str "10.0.0.1"); field "truncation_limit" (JNumber 100)]
        = Return out)
  /\ buildFormData [field "ips" (JObject [field "toString" (JNumber 0)])]
     = Throw cannot_convert.
Proof.
  assert (H : Forall (fun e => has_string_form (snd e) = true
                               /\ Forall (fun c => is_surrogate c = false) (fst e)
                               /\ Forall (fun c => is_surrogate c = false)
                                         (ToString (snd e)))
                     [field "ips" (str "10.0.0.1"); field "truncation_limit" (JNumber 100)])
    by (repeat constructor).
  split; [exact H|].
  split; [exact (proj1 (@buildFormData_without_surrogates _ H)) | reflexivity].
Defined.

(** X8: [buildFormData] returns the empty body exactly when no entry is
    kept: an empty mapping, or one whose values are all [undefined] or
    [""]. *)
Theorem buildFormData_empty_body (params : jsobject) :
  buildFormData params = Return [] <-> filter kept params = [].
Proof.
  split.
  - intros H. apply buildFormData_separators_pairs in H as [H _].
    apply length_zero_iff_nil. now rewrite <- H.
  - intros H. unfold buildFormData.
    assert (Hnone : filter kept (Object_entries params) = []).
    { apply length_zero_iff_nil. now rewrite Object_entries_filter, H. }
    now rewrite Hnone.
Qed.

(** ** The characters of a form body *)

Lemma join_Forall (P : code_unit -> Prop) (sep : jsstring) (entries : list jsstring) :
  Forall P sep -> Forall (Forall P) entries -> Forall P (join sep entries).
Proof.
  intros Hsep. induction 1 as [|pair rest Hpair _ IH]; [constructor|].
  destruct rest as [|next rest]; [exact Hpair|].
  change (join sep (pair :: next :: rest)) with (pair ++ sep ++ join sep (next :: rest)).
  apply Forall_app. split; [exact Hpair|]. apply Forall_app. now split.
Qed.

Lemma url_safe_form_safe (s : jsstring) :
  Forall (fun c => url_safe c = true) s -> Forall (fun c => form_safe c = true) s.
Proof.
  apply Forall_impl. intros c Hc. unfold form_safe. now rewrite Hc.
Qed.

Lemma render_form_safe (e : jsstring * jsvalue) (pair : jsstring) :
  Forall is_code_unit (fst e) ->
  Forall is_code_unit (ToString (snd e)) ->
  render e = Return pair ->
  Forall (fun c => form_safe c = true) pair.
Proof.
  intros Hkey Hvalue H. apply render_returns in H as (k & v & Hk & _ & Hv & ->).
  apply (encodeURIComponent_url_safe Hkey) in Hk.
  apply (encodeURIComponent_url_safe Hvalue) in Hv.
  apply Forall_app. split; [now apply url_safe_form_safe|].
  constructor; [reflexivity | now apply url_safe_form_safe].
Qed.

(** X9: the body [buildFormData] returns for keys and values of UTF-16
    code units holds nothing but unreserved characters, the percent signs
    of escapes and the two separators [=] and [&]: no space, quote, slash,
    line break or other control character of an argument reaches the wire
    as itself. *)
Theorem buildFormData_form_safe (params : jsobject) (out : jsstring) :
  Forall (fun e => Forall is_code_unit (fst e) /\ Forall is_code_unit (ToString (snd e)))
         params ->
  buildFormData params = Return out ->
  Forall (fun c => form_safe c = true) out.
Proof.
  intros Hparams. unfold buildFormData.
  assert (Hentries : Forall (fun e => Forall is_code_unit (fst e)
                                      /\ Forall is_code_unit (ToString (snd e)))
                            (filter kept (Object_entries params))).
  { apply Forall_forall. intros e He. apply filter_In in He as [He _].
    apply Object_entries_In in He. rewrite Forall_forall in Hparams. now apply Hparams. }
  destruct (map_throwing render (filter kept (Object_entries params)))
    as [entries|] eqn:Hmap; [|discriminate].
  intros H. injection H as <-.
  apply join_Forall; [repeat constructor|].
  revert entries Hmap.
  induction Hentries as [|e l [Hkey Hvalue] _ IH]; intros entries Hmap.
  - injection Hmap as <-. constructor.
  - cbn [map_throwing] in Hmap.
    destruct (render e) as [pair|] eqn:Hpair; [|discriminate]. cbn [cbind] in Hmap.
    destruct (map_throwing render l) as [rest|]; [|discriminate].
    injection Hmap as <-.
    constructor; [now apply (render_form_safe e) | now apply IH].
Qed.

Lemma buildFormData_form_safe_witness :
  buildFormData [field "scan_title" (str "Weekly scan / DMZ"); field "ip" (str "10.0.0.1")]
  = Return (lit "scan_title=Weekly%20scan%20%2F%20DMZ&ip=10.0.0.1")
  /\ Forall (fun c => form_safe c = true)
            (lit "scan_title=Weekly%20scan%20%2F%20DMZ&ip=10.0.0.1").
Proof.
  split; [reflexivity|].
  refine (@buildFormData_form_safe
            [field "scan_title" (str "Weekly scan / DMZ"); field "ip" (str "10.0.0.1")]
            (lit "scan_title=Weekly%20scan%20%2F%20DMZ&ip=10.0.0.1") _ eq_refl).
  repeat constructor.
Defined.

(** X10: what needs no escape is sent as written: when no key is an array
    index and, for each entry that is kept, the key and the string form
    of the value hold unreserved characters only
    ([A-Z a-z 0-9 - _ . ! ~ * ' ( )]), the value having a string form and
    its numbers being safe integers, the body is the [key=value] pairs of
    the kept entries, joined with [&] in the order of insertion. *)
Theorem buildFormData_verbatim (params : jsobject) :
  no_index_key params = true ->
  Forall (fun e => Forall (fun c => unreserved c = true) (fst e)
                   /\ has_string_form (snd e) = true
                   /\ prints_exactly (snd e) = true
                   /\ Forall (fun c => unreserved c = true) (ToString (snd e)))
         (filter kept params) ->
  buildFormData params = Return (join (lit "&") (map verbatim (filter kept params))).
Proof.
  intros Hkeys Hplain. unfold buildFormData.
  rewrite (Object_entries_insertion_order _ Hkeys).
  assert (Hmap : map_throwing render (filter kept params)
                 = Return (map verbatim (filter kept params))).
  { induction Hplain as [|e l (Hkey & Hform & _ & Hvalue) _ IH]; [reflexivity|].
    assert (Hrender : render e = Return (verbatim e)).
    { unfold render, verbatim, String_of_value.
      apply encodeURIComponent_unreserved in Hkey, Hvalue.
      change (encodeURIComponent (@fst jsstring jsvalue e)
              = Return (@fst jsstring jsvalue e)) in Hkey.
      change (encodeURIComponent (ToString (@snd jsstring jsvalue e))
              = Return (ToString (@snd jsstring jsvalue e))) in Hvalue.
      change (has_string_form (@snd jsstring jsvalue e) = true) in Hform.
      rewrite Hkey, Hform. cbn [cbind]. rewrite Hvalue. reflexivity. }
    cbn [map_throwing map]. rewrite Hrender. cbn [cbind]. rewrite IH. reflexivity. }
  rewrite Hmap. reflexivity.
Qed.

Lemma buildFormData_verbatim_witness :
  buildFormData [field "action" (str "list"); field "ids" JUndefined;
                 field "truncation_limit" (JNumber 100); field "details" (str "Basic")]
  = Return (lit "action=list&truncation_limit=100&details=Basic").
Proof.
  refine (@buildFormData_verbatim
            [field "action" (str "list"); field "ids" JUndefined;
             field "truncation_limit" (JNumber 100); field "details" (str "Basic")]
            eq_refl _).
  repeat constructor.
Defined.

(** * The registry and the dispatcher *)

Lemma switch_find (name : jsstring)
      (table : list (string * (AxiosInstance -> ToolArguments -> M jsvalue)))
      (client : AxiosInstance) (args : ToolArguments) :
  switch name table client args
  = match find (fun c => str_eqb name (lit (fst c))) table with
    | Some c => snd c client args
    | None => throw (ErrorObject (lit "Error") (lit "Unknown tool: " ++ name))
    end.
Proof.
  induction table as [|[label handler] table IH]; [reflexivity|].
  cbn [switch find fst]. destruct (str_eqb name (lit label)); [reflexivity | exact IH].
Qed.

Lemma find_same_labels (A B : Type) (name : jsstring)
      (la : list A) (lb : list B) (fa : A -> string) (fb : B -> string) :
  map fa la = map fb lb ->
  match find (fun a => str_eqb name (lit (fa a))) la,
        find (fun b => str_eqb name (lit (fb b))) lb with
  | Some a, Some b => fa a = fb b /\ In b lb
  | None, None => True
  | _, _ => False
  end.
Proof.
  revert lb. induction la as [|a la IH]; intros [|b lb] H; try discriminate; [exact I|].
  injection H as Hab Hrest. cbn [find]. rewrite Hab.
  destruct (str_eqb name (lit (fb b))).
  - split; [exact Hab | now left].
  - specialize (IH lb Hrest).
    destruct (find _ la), (find _ lb); try exact IH.
    destruct IH as [IH1 IH2]. split; [exact IH1 | now right].
Qed.

(** X11: the registry and the switch agree: the names the server lists are
    the labels of the switch, in the same order and each once; a call of a
    listed name runs the case of that name, and a call of any other name
    reaches the default branch. *)
Theorem registry_matches_dispatch (E : Env) (name : jsstring) :
  map tool_name tools = map fst (cases E)
  /\ NoDup (map tool_name tools)
  /\ (forall t, find_tool name = Some t ->
      exists handler,
        In (tool_name t, handler) (cases E)
        /\ forall client args, switch name (cases E) client args = handler client args)
  /\ (find_tool name = None ->
      forall client args,
        switch name (cases E) client args
        = throw (ErrorObject (lit "Error") (lit "Unknown tool: " ++ name))).
Proof.
  assert (Hlabels : map tool_name tools = map fst (cases E)) by reflexivity.
  split; [exact Hlabels|]. split.
  { cbn [map tools tool_name].
    repeat (constructor; [cbn [In]; intuition discriminate|]). constructor. }
  pose proof (@find_same_labels _ _ name tools (cases E) tool_name fst Hlabels) as Hfind.
  unfold find_tool. split.
  - intros t Ht. rewrite Ht in Hfind.
    destruct (find (fun c => str_eqb name (lit (fst c))) (cases E)) as [[label handler]|] eqn:Hcase;
      [|contradiction].
    cbn [fst] in Hfind. destruct Hfind as [-> Hin]. exists handler. split; [exact Hin|].
    intros client args. rewrite switch_find, Hcase. reflexivity.
  - intros Hnone client args. rewrite Hnone in Hfind. rewrite switch_find.
    destruct (find (fun c => str_eqb name (lit (fst c))) (cases E)); [contradiction|].
    reflexivity.
Qed.

Lemma switch_unregistered (E : Env) (name : jsstring) (client : AxiosInstance)
      (args : ToolArguments) :
  find_tool name = None ->
  switch name (cases E) client args
  = throw (ErrorObject (lit "Error") (lit "Unknown tool: " ++ name)).
Proof.
  intros Hnone.
  pose proof (@find_same_labels _ _ name tools (cases E) tool_name fst eq_refl) as Hfind.
  unfold find_tool in Hnone. rewrite Hnone in Hfind. rewrite switch_find.
  destruct (find (fun c => str_eqb name (lit (fst c))) (cases E)); [contradiction|].
  reflexivity.
Qed.

(** X12: with credentials configured, a call of a name the registry does
    not list returns ["Error: Unknown Error: Error: Unknown tool: "]
    followed by the name, and sends no request. *)
Theorem unknown_tool_is_refused
        (E : Env) (cfg : Config) (name : jsstring) (args : jsobject) (st : State) :
  nonempty (QUALYS_USERNAME cfg) = true ->
  nonempty (QUALYS_PASSWORD cfg) = true ->
  find_tool name = None ->
  fst (handleToolCall E cfg name args st)
  = text_content (JString (lit "Error: Unknown Error: Error: Unknown tool: " ++ name))
  /\ sent (snd (handleToolCall E cfg name args st)) = sent st.
Proof.
  intros Hu Hp Hnone.
  rewrite (@handleToolCall_throws E cfg Hu Hp name args st
             (ErrorObject (lit "Error") (lit "Unknown tool: " ++ name))).
  - split; [reflexivity | apply getApiClient_sent].
  - now rewrite switch_unregistered.
Qed.

Lemma unknown_tool_is_refused_witness :
  nonempty (QUALYS_USERNAME configured) = true
  /\ nonempty (QUALYS_PASSWORD configured) = true
  /\ find_tool (lit "qualys_delete_everything") = None
  /\ fst (handleToolCall offline configured (lit "qualys_delete_everything") (Given [])
            (initial_state 1700000000000))
     = text_content
         (JString (lit "Error: Unknown Error: Error: Unknown tool: qualys_delete_everything")).
Proof.
  repeat (split; [reflexivity|]).
  exact (proj1 (@unknown_tool_is_refused offline configured (lit "qualys_delete_everything")
                  [] (initial_state 1700000000000) eq_refl eq_refl eq_refl)).
Defined.

(** The case a listed name runs. *)
Ltac run_switch E :=
  first
    [ change (switch _ (cases E) ?client (Given ?args))
      with (qualys_list_hosts E client args)
    | change (switch _ (cases E) ?client (Given ?args))
      with (qualys_get_host_detections E client args)
    | change (switch _ (cases E) ?client (Given ?args))
      with (qualys_launch_scan E client args)
    | change (switch _ (cases E) ?client (Given ?args))
      with (qualys_list_scans E client args)
    | change (switch _ (cases E) ?client (Given ?args))
      with (qualys_get_scan_results E client args)
    | change (switch _ (cases E) ?client (Given ?args))
      with (qualys_cancel_scan E client args)
    | change (switch _ (cases E) ?client (Given ?args))
      with (qualys_pause_scan E client args)
    | change (switch _ (cases E) ?client (Given ?args))
      with (qualys_resume_scan E client args)
    | change (switch _ (cases E) ?client (Given ?args))
      with (qualys_list_reports E client args)
    | change (switch _ (cases E) ?client (Given ?args))
      with (qualys_launch_report E client args)
    | change (switch _ (cases E) ?client (Given ?args))
      with (qualys_download_report E client args)
    | change (switch _ (cases E) ?client (Given ?args))
      with (qualys_list_asset_groups E client args)
    | change (switch _ (cases E) ?client (Given ?args))
      with (qualys_get_knowledgebase E client args)
    | change (switch _ (cases E) ?client (Given ?args))
      with (qualys_get_knowledgebase_by_cve E client args)
    | change (switch _ (cases E) ?client (Given ?args))
      with (qualys_list_scanners E client args)
    | change (switch _ (cases E) ?client (Given ?args))
      with (qualys_list_option_profiles E client args)
    | change (switch _ (cases E) ?client ?args)
      with (qualys_list_tags E client)
    | change (switch _ (cases E) ?client (Given ?args))
      with (qualys_get_activity_log E client args) ].

Ltac in_list := cbn; repeat first [left; reflexivity | right].

Lemma find_tool_some (name : jsstring) (t : Tool) :
  find_tool name = Some t -> In t tools /\ name = lit (tool_name t).
Proof.
  intros H. apply find_some in H as [Hin Heq]. split; [exact Hin | now apply str_eqb_eq].
Qed.

(** What a call without arguments meets first. *)
Lemma handleToolCall_omitted
      (E : Env) (cfg : Config) (name : jsstring) (k : string) (st : State) :
  nonempty (QUALYS_USERNAME cfg) = true ->
  nonempty (QUALYS_PASSWORD cfg) = true ->
  (forall client, switch name (cases E) client Omitted = throw (cannot_read k)) ->
  fst (handleToolCall E cfg name Omitted st)
  = text_content
      (JString (lit "Error: Unknown Error: TypeError: Cannot read properties of undefined (reading '"
                ++ lit k ++ lit "')"))
  /\ sent (snd (handleToolCall E cfg name Omitted st)) = sent st.
Proof.
  intros Hu Hp Hswitch.
  rewrite (@handleToolCall_throws E cfg Hu Hp name Omitted st (cannot_read k)).
  - split; [reflexivity | apply getApiClient_sent].
  - now rewrite Hswitch.
Qed.

(** X13: every argument a tool's schema declares required is checked by
    its handler before anything is sent.  With credentials configured, a
    call of a listed tool whose argument object lacks such an argument, or
    holds a falsy value for it, returns the text that names it,
    ["<key> is required"]; a call that carries no argument object at all
    returns the [TypeError] text of the handler's first read, which names
    the same argument; and neither sends a request. *)
Theorem required_parameters_enforced
        (E : Env) (cfg : Config) (name : jsstring) (t : Tool) (key : string) (st : State) :
  nonempty (QUALYS_USERNAME cfg) = true ->
  nonempty (QUALYS_PASSWORD cfg) = true ->
  find_tool name = Some t ->
  In key (required_parameters t) ->
  (forall args : jsobject,
      truthy (arg args key) = false ->
      fst (handleToolCall E cfg name args st)
      = text_content
          (JString (lit "Error: Unknown Error: Error: " ++ lit key ++ lit " is required"))
      /\ sent (snd (handleToolCall E cfg name args st)) = sent st)
  /\ fst (handleToolCall E cfg name Omitted st)
     = text_content
         (JString (lit "Error: Unknown Error: TypeError: Cannot read properties of undefined (reading '"
                   ++ lit key ++ lit "')"))
  /\ sent (snd (handleToolCall E cfg name Omitted st)) = sent st.
Proof.
  intros Hu Hp Hfound Hkey.
  apply find_tool_some in Hfound as [Ht ->].
  unfold tools in Ht. cbn [In] in Ht.
  repeat (destruct Ht as [<- | Ht]); try contradiction;
    cbn [required_parameters inputSchema required In] in Hkey;
    try contradiction;
    (destruct Hkey as [<- | []]);
    cbn [tool_name];
    (split; [|apply (@handleToolCall_omitted E cfg _ _ st Hu Hp); reflexivity]);
    intros args Hfalsy;
    match type of Hfalsy with
    | truthy (arg args ?k) = false =>
        rewrite (@handleToolCall_throws E cfg Hu Hp _ args st
                   (ErrorObject (lit "Error") (lit k ++ lit " is required")))
    end;
    [ split; [reflexivity | apply getApiClient_sent]
    | run_switch E; autounfold with dispatch; rewrite Hfalsy; apply require_fails
    | split; [reflexivity | apply getApiClient_sent]
    | run_switch E; autounfold with dispatch; rewrite Hfalsy; apply require_fails
    | split; [reflexivity | apply getApiClient_sent]
    | run_switch E; autounfold with dispatch; rewrite Hfalsy; apply require_fails
    | split; [reflexivity | apply getApiClient_sent]
    | run_switch E; autounfold with dispatch; rewrite Hfalsy; apply require_fails
    | split; [reflexivity | apply getApiClient_sent]
    | run_switch E; autounfold with dispatch; rewrite Hfalsy; apply require_fails
    | split; [reflexivity | apply getApiClient_sent]
    | run_switch E; autounfold with dispatch; rewrite Hfalsy; apply require_fails
    | split; [reflexivity | apply getApiClient_sent]
    | run_switch E; autounfold with dispatch; rewrite Hfalsy; apply require_fails ].
Qed.

Lemma required_parameters_enforced_witness :
  nonempty (QUALYS_USERNAME configured) = true
  /\ nonempty (QUALYS_PASSWORD configured) = true
  /\ (exists t, find_tool (lit "qualys_launch_report") = Some t
                /\ In "template_id"%string (required_parameters t))
  /\ truthy (arg [field "report_title" (str "monthly")] "template_id") = false
  /\ fst (handleToolCall offline configured (lit "qualys_launch_report")
            (Given [field "report_title" (str "monthly")]) (initial_state 1700000000000))
     = text_content (JString (lit "Error: Unknown Error: Error: template_id is required"))
  /\ fst (handleToolCall offline configured (lit "qualys_launch_report") Omitted
            (initial_state 1700000000000))
     = text_content
         (JString (lit "Error: Unknown Error: TypeError: Cannot read properties of undefined (reading 'template_id')")).
Proof.
  split; [reflexivity|]. split; [reflexivity|].
  split; [eexists; split; [reflexivity | left; reflexivity]|].
  split; [reflexivity|].
  pose proof (@required_parameters_enforced offline configured
                (lit "qualys_launch_report") _ "template_id" (initial_state 1700000000000)
                eq_refl eq_refl eq_refl (or_introl eq_refl)) as [Hobject [Homitted _]].
  split; [|exact Homitted].
  exact (proj1 (Hobject [field "report_title" (str "monthly")] eq_refl)).
Defined.

Lemma handleToolCall_same_switch
      (E : Env) (cfg : Config) (name : jsstring) (args args' : ToolArguments) (st : State) :
  (forall client st1,
      switch name (cases E) client args st1 = switch name (cases E) client args' st1) ->
  handleToolCall E cfg name args st = handleToolCall E cfg name args' st.
Proof.
  intros H. unfold handleToolCall.
  destruct (getApiClient cfg st) as [client st1]. now rewrite H.
Qed.

Ltac same_args args H :=
  repeat match goal with
         | |- context [arg args ?k] =>
             rewrite (H k) by first [discriminate | in_list]
         end.

(** X14: the outcome of a tool call depends on the arguments the tool's
    schema declares and on nothing else in the argument bag: two bags that
    agree on the declared names give the same result and the same state.
    (For a name that is not listed, no argument matters.) *)
Theorem undeclared_arguments_ignored
        (E : Env) (cfg : Config) (name : jsstring) (args args' : jsobject) (st : State) :
  (forall t k, find_tool name = Some t -> In k (declared t) -> arg args k = arg args' k) ->
  handleToolCall E cfg name args st = handleToolCall E cfg name args' st.
Proof.
  intros Hsame. apply handleToolCall_same_switch. intros client st1.
  destruct (find_tool name) as [t|] eqn:Hfound.
  - specialize (Hsame t). assert (H : forall k, In k (declared t) -> arg args k = arg args' k)
      by (intros k; now apply Hsame).
    clear Hsame. apply find_tool_some in Hfound as [Ht ->].
    unfold tools in Ht. cbn [In] in Ht.
    repeat (destruct Ht as [<- | Ht]); try contradiction;
      cbn [tool_name]; run_switch E; autounfold with dispatch;
      same_args args H; reflexivity.
  - now rewrite !switch_unregistered.
Qed.

Lemma undeclared_arguments_ignored_witness :
  (forall t k,
      find_tool (lit "qualys_list_option_profiles") = Some t ->
      In k (declared t) ->
      arg [field "title" (str "Initial"); field "debug" (JBool true)] k
      = arg [field "title" (str "Initial")] k)
  /\ handleToolCall offline configured (lit "qualys_list_option_profiles")
       (Given [field "title" (str "Initial"); field "debug" (JBool true)])
       (initial_state 1700000000000)
     = handleToolCall offline configured (lit "qualys_list_option_profiles")
         (Given [field "title" (str "Initial")]) (initial_state 1700000000000).
Proof.
  assert (H : forall t k,
             find_tool (lit "qualys_list_option_profiles") = Some t ->
             In k (declared t) ->
             arg [field "title" (str "Initial"); field "debug" (JBool true)] k
             = arg [field "title" (str "Initial")] k).
  { intros t k Ht Hk. injection Ht as <-. destruct Hk as [<- | []]. reflexivity. }
  split; [exact H|].
  exact (@undeclared_arguments_ignored offline configured (lit "qualys_list_option_profiles")
           _ _ (initial_state 1700000000000) H).
Defined.

(** Every listed tool but the tag listing reads an argument its schema
    declares before it does anything else. *)
Lemma handleToolCall_without_arguments
      (E : Env) (cfg : Config) (name : jsstring) (t : Tool) (st : State) :
  nonempty (QUALYS_USERNAME cfg) = true ->
  nonempty (QUALYS_PASSWORD cfg) = true ->
  find_tool name = Some t ->
  tool_name t <> "qualys_list_tags"%string ->
  exists k,
    In k (declared t)
    /\ fst (handleToolCall E cfg name Omitted st)
       = text_content
           (JString (lit "Error: Unknown Error: TypeError: Cannot read properties of undefined (reading '"
                     ++ lit k ++ lit "')"))
    /\ sent (snd (handleToolCall E cfg name Omitted st)) = sent st.
Proof.
  intros Hu Hp Hfound Hnot.
  apply find_tool_some in Hfound as [Ht ->].
  unfold tools in Ht. cbn [In] in Ht.
  repeat (destruct Ht as [<- | Ht]); try contradiction;
    cbn [tool_name] in *; try (now elim Hnot);
    (eexists; split;
     [|apply (@handleToolCall_omitted E cfg _ _ st Hu Hp); reflexivity]);
    in_list.
Qed.

(** X15: the defaults the schemas declare are the ones the handlers apply
    to an argument object: for every declared default other than
    [priority] of the scan launch, a call whose argument object leaves the
    argument out gives the same result and the same state as a call whose
    argument object passes the default.  A call that carries no argument
    object at all gets no default: with credentials configured it returns
    the [TypeError] text of the handler's first read and sends nothing. *)
Theorem declared_defaults_apply
        (E : Env) (cfg : Config) (name : jsstring) (t : Tool) (key : string) (d : jsvalue)
        (st : State) :
  find_tool name = Some t ->
  In (key, d) (declared_defaults t) ->
  ~ (tool_name t = "qualys_launch_scan"%string /\ key = "priority"%string) ->
  (forall args args' : jsobject,
      arg args key = JUndefined ->
      arg args' key = d ->
      (forall k, k <> key -> In k (declared t) -> arg args k = arg args' k) ->
      handleToolCall E cfg name args st = handleToolCall E cfg name args' st)
  /\ (nonempty (QUALYS_USERNAME cfg) = true ->
      nonempty (QUALYS_PASSWORD cfg) = true ->
      exists k,
        In k (declared t)
        /\ fst (handleToolCall E cfg name Omitted st)
           = text_content
               (JString (lit "Error: Unknown Error: TypeError: Cannot read properties of undefined (reading '"
                         ++ lit k ++ lit "')"))
        /\ sent (snd (handleToolCall E cfg name Omitted st)) = sent st).
Proof.
  intros Hfound Hdefault Hnot. split.
  - intros args args' Habsent Hpassed Hsame.
    apply handleToolCall_same_switch. intros client st1.
    apply find_tool_some in Hfound as [Ht ->].
    unfold tools in Ht. cbn [In] in Ht.
    repeat (destruct Ht as [<- | Ht]); try contradiction;
      cbn [declared_defaults inputSchema properties flat_map param_default snd fst app In]
        in Hdefault;
      repeat (destruct Hdefault as [Hdefault | Hdefault];
              [injection Hdefault as <- <-|]);
      try contradiction;
      try (exfalso; apply Hnot; split; reflexivity);
      cbn [tool_name]; run_switch E; autounfold with dispatch;
      rewrite ?Habsent; rewrite ?Hpassed; same_args args Hsame; reflexivity.
  - intros Hu Hp. apply (@handleToolCall_without_arguments E cfg name t st Hu Hp Hfound).
    intros Htags. destruct (find_tool_some _ Hfound) as [Ht _].
    unfold tools in Ht. cbn [In] in Ht.
    repeat (destruct Ht as [<- | Ht]); try contradiction; discriminate Htags.
Qed.

Lemma declared_defaults_apply_witness :
  (exists t, find_tool (lit "qualys_list_asset_groups") = Some t
             /\ In ("truncation_limit"%string, JNumber 100) (declared_defaults t))
  /\ arg [field "title" (str "DMZ")] "truncation_limit" = JUndefined
  /\ arg [field "title" (str "DMZ"); field "truncation_limit" (JNumber 100)]
       "truncation_limit" = JNumber 100
  /\ handleToolCall offline configured (lit "qualys_list_asset_groups")
       (Given [field "title" (str "DMZ")]) (initial_state 1700000000000)
     = handleToolCall offline configured (lit "qualys_list_asset_groups")
         (Given [field "title" (str "DMZ"); field "truncation_limit" (JNumber 100)])
         (initial_state 1700000000000)
  /\ handleToolCall offline configured (lit "qualys_list_asset_groups") Omitted
       (initial_state 1700000000000)
     <> handleToolCall offline configured (lit "qualys_list_asset_groups")
          (Given [field "truncation_limit" (JNumber 100)]) (initial_state 1700000000000).
Proof.
  split; [eexists; split; [reflexivity | in_list]|].
  split; [reflexivity|]. split; [reflexivity|].
  split; [|discriminate].
  refine (proj1 (@declared_defaults_apply offline configured (lit "qualys_list_asset_groups") _
                   "truncation_limit" (JNumber 100) (initial_state 1700000000000)
                   eq_refl _ _)
            [field "title" (str "DMZ")]
            [field "title" (str "DMZ"); field "truncation_limit" (JNumber 100)]
            eq_refl eq_refl _).
  - in_list.
  - intros [H _]. discriminate H.
  - intros k Hk Hin. cbn in Hin.
    destruct Hin as [<- | [<- | [<- | []]]]; [reflexivity | reflexivity | now elim Hk].
Defined.

(** The exception: the schema of the scan launch declares the default 0
    for [priority], but an absent [priority] is left out of the request,
    while a [priority] of 0 is sent. *)
Example launch_scan_priority_default_not_applied :
  map body
    (sent (snd (handleToolCall offline configured (lit "qualys_launch_scan")
                  (Given [field "scan_title" (str "weekly"); field "ip" (str "10.0.0.1")])
                  (initial_state 1700000000000))))
  = [lit "action=launch&scan_title=weekly&ip=10.0.0.1"]
  /\ map body
       (sent (snd (handleToolCall offline configured (lit "qualys_launch_scan")
                     (Given [field "scan_title" (str "weekly"); field "ip" (str "10.0.0.1");
                      field "priority" (JNumber 0)])
                     (initial_state 1700000000000))))
     = [lit "action=launch&scan_title=weekly&ip=10.0.0.1&priority=0"].
Proof. split; reflexivity. Qed.

(** ** Calls without arguments *)

(** X21: a call that carries no argument object does not reach the remote
    service, the tag listing apart.  With credentials configured, every
    other listed tool returns the [TypeError] text of its first read of
    [args], which names an argument the schema of the tool declares, and
    sends no request; the tag listing, which reads no argument, does what
    it does for any argument object. *)
Theorem call_without_arguments
        (E : Env) (cfg : Config) (name : jsstring) (t : Tool) (st : State) :
  nonempty (QUALYS_USERNAME cfg) = true ->
  nonempty (QUALYS_PASSWORD cfg) = true ->
  find_tool name = Some t ->
  (tool_name t = "qualys_list_tags"%string ->
   forall args : ToolArguments,
     handleToolCall E cfg name args st = handleToolCall E cfg name Omitted st)
  /\ (tool_name t <> "qualys_list_tags"%string ->
      exists k,
        In k (declared t)
        /\ fst (handleToolCall E cfg name Omitted st)
           = text_content
               (JString (lit "Error: Unknown Error: TypeError: Cannot read properties of undefined (reading '"
                         ++ lit k ++ lit "')"))
        /\ sent (snd (handleToolCall E cfg name Omitted st)) = sent st).
Proof.
  intros Hu Hp Hfound. split.
  - intros Htags args. apply handleToolCall_same_switch. intros client st1.
    apply find_tool_some in Hfound as [Ht ->]. rewrite Htags. reflexivity.
  - intros Hnot. now apply (@handleToolCall_without_arguments E cfg name t st Hu Hp Hfound).
Qed.

Lemma call_without_arguments_witness :
  nonempty (QUALYS_USERNAME configured) = true
  /\ nonempty (QUALYS_PASSWORD configured) = true
  /\ (exists t, find_tool (lit "qualys_list_hosts") = Some t
                /\ tool_name t <> "qualys_list_tags"%string)
  /\ exists k,
      fst (handleToolCall offline configured (lit "qualys_list_hosts") Omitted
             (initial_state 1700000000000))
      = text_content
          (JString (lit "Error: Unknown Error: TypeError: Cannot read properties of undefined (reading '"
                    ++ lit k ++ lit "')"))
      /\ sent (snd (handleToolCall offline configured (lit "qualys_list_hosts") Omitted
                      (initial_state 1700000000000)))
         = sent (initial_state 1700000000000).
Proof.
  split; [reflexivity|]. split; [reflexivity|].
  split; [eexists; split; [reflexivity | discriminate]|].
  destruct (proj2 (@call_without_arguments offline configured (lit "qualys_list_hosts") _
                     (initial_state 1700000000000) eq_refl eq_refl eq_refl))
    as (k & _ & Htext & Hsent); [discriminate|].
  exists k. split; [exact Htext | exact Hsent].
Defined.

(** * Sessions *)

(** X17: in a session the server sends at most one request for each tool
    call it is asked for, and none for a request to list its tools, which
    also leaves the state as it is. *)
Theorem session_requests_bounded
        (E : Env) (cfg : Config) (requests : list ServerRequest) (st : State) :
  exists new,
    sent (snd (session E cfg requests st)) = sent st ++ new
    /\ List.length new <= List.length (filter is_tool_call requests)
    /\ (forallb (fun request => negb (is_tool_call request)) requests = true ->
        snd (session E cfg requests st) = st).
Proof.
  revert st. induction requests as [|request requests IH]; intros st; cbn [session].
  - exists []. rewrite app_nil_r. repeat split. simpl. lia.
  - destruct request as [|name arguments]; cbn [handle_request].
    + destruct (IH st) as (new & Hsent & Hlen & Hquiet).
      destruct (session E cfg requests st) as [results st2]. cbn [snd] in *.
      exists new. repeat split; try assumption.
    + pose proof (handleToolCall_at_most_one_request_via E cfg name arguments st) as Hstep.
      destruct (handleToolCall E cfg name arguments st) as [result st1]. cbn [snd] in Hstep.
      destruct (IH st1) as (new & Hsent & Hlen & _).
      destruct (session E cfg requests st1) as [results st2]. cbn [snd] in *.
      destruct Hstep as [H1 | (r & H1 & _)].
      * exists new. rewrite Hsent, H1. cbn [filter is_tool_call List.length].
        repeat split; [lia | discriminate].
      * exists (r :: new). rewrite Hsent, H1, <- app_assoc.
        cbn [filter is_tool_call List.length app].
        repeat split; [lia | discriminate].
Qed.

(** ** When the remote service answers *)

Lemma sent_grows (st : State) (r : Request) : sent st <> sent st ++ [r].
Proof.
  intros H. apply (f_equal (@List.length Request)) in H.
  rewrite length_app in H. simpl in H. lia.
Qed.

Lemma never_throws_ret (A : Type) (a : A) : never_throws (ret a).
Proof. intros st. now exists a. Qed.

Lemma never_throws_parse (E : Env) (xml : jsvalue) :
  never_throws (lift (parseXmlResponse E xml)).
Proof.
  intros st. unfold lift, parseXmlResponse. cbn [fst].
  destruct (parseStringPromise E xml); eexists; reflexivity.
Qed.

Lemma answers_quiet (E : Env) (A : Type) (m : M A) : quiet m -> answers E m.
Proof.
  intros Hm st r response Hsent _. destruct (Hm st) as (H & _).
  rewrite H in Hsent. now apply sent_grows in Hsent.
Qed.

Lemma answers_bind_after (E : Env) (A B : Type) (m : M A) (k : A -> M B) :
  quiet m -> (forall a, answers E (k a)) -> answers E (bind m k).
Proof.
  intros Hm Hk st r response. unfold bind. specialize (Hm st).
  destruct (m st) as [[a|e] st1]; cbn [fst snd] in *; destruct Hm as (H1 & _).
  - intros Hsent Hresolved. rewrite <- H1 in Hsent, Hresolved. now apply (Hk a st1 r response).
  - intros Hsent _. rewrite H1 in Hsent. now apply sent_grows in Hsent.
Qed.

Lemma answers_bind_before (E : Env) (A B : Type) (m : M A) (k : A -> M B) :
  answers E m -> (forall a, quiet (k a)) -> (forall a, never_throws (k a)) ->
  answers E (bind m k).
Proof.
  intros Hm Hquiet Htotal st r response. unfold bind. specialize (Hm st r response).
  destruct (m st) as [[a|e] st1]; cbn [fst snd] in *.
  - intros _ _. apply Htotal.
  - intros Hsent Hresolved. destruct (Hm Hsent Hresolved) as [a Ha]. discriminate.
Qed.

Lemma rateLimitedRequest_post_result (E : Env) (client : AxiosInstance) (path : string)
      (params : jsstring) (hdrs : list (jsstring * jsstring)) (rtype : option jsstring)
      (st : State) :
  fst (rateLimitedRequest E (post E client path params hdrs rtype) st)
  = transport E (sent st)
      {| via := client; url := lit path; body := transformRequest hdrs params;
         config_headers := hdrs; responseType := rtype |}.
Proof.
  unfold rateLimitedRequest, bind, Date_now, post. cbn [fst snd].
  destruct (delay_needed (clock st) (lastRequestTime st)); reflexivity.
Qed.

Lemma answers_rateLimitedRequest (E : Env) (client : AxiosInstance) (path : string)
      (params : jsstring) (hdrs : list (jsstring * jsstring)) (rtype : option jsstring) :
  answers E (rateLimitedRequest E (post E client path params hdrs rtype)).
Proof.
  intros st r response Hsent Hresolved.
  rewrite rateLimitedRequest_post_sent in Hsent. apply app_inj_tail in Hsent as [_ <-].
  rewrite rateLimitedRequest_post_result, Hresolved. now exists response.
Qed.

Lemma answers_post_form (E : Env) (client : AxiosInstance) (path : string)
      (params : jsobject) (rtype : option jsstring) :
  answers E (post_form E client path params rtype).
Proof.
  unfold post_form. apply answers_bind_after; [apply quiet_lift|].
  intros encoded. apply answers_rateLimitedRequest.
Qed.

Lemma answers_post_and_parse (E : Env) (client : AxiosInstance) (path : string)
      (params : jsobject) :
  answers E (post_and_parse E client path params).
Proof.
  unfold post_and_parse. apply answers_bind_before.
  - apply answers_post_form.
  - intros response. apply quiet_lift.
  - intros response. apply never_throws_parse.
Qed.

#[local] Hint Resolve never_throws_ret never_throws_parse answers_rateLimitedRequest
  answers_post_form answers_post_and_parse : dispatch.

Ltac total_steps :=
  repeat first
    [ solve [auto with dispatch]
    | match goal with
      | |- never_throws (if ?b then _ else _) => destruct b
      end ].

Ltac answers_steps :=
  first
    [ solve [auto with dispatch]
    | match goal with
      | |- answers _ (if ?b then _ else _) => destruct b; answers_steps
      | |- answers _ (bind _ _) =>
          first [ apply answers_bind_after; [solve [quiet_steps] | intros ?; answers_steps]
                | apply answers_bind_before;
                  [ answers_steps
                  | intros ?; solve [quiet_steps]
                  | intros ?; solve [total_steps] ] ]
      end ].

Lemma cases_answer (E : Env) (client : AxiosInstance) :
  Forall (fun c => fst c <> "qualys_download_report"%string ->
                   forall args, answers E (snd c client args))
         (cases E).
Proof.
  unfold cases.
  repeat (apply Forall_cons; [intros Hname args; cbn [fst snd] in *|]); [..|apply Forall_nil].
  all: try (now elim Hname).
  all: try unfold reading; destruct args as [|args];
    try apply answers_quiet, quiet_throw.
  all: autounfold with dispatch; cbv zeta; answers_steps.
Qed.

Lemma switch_answers (E : Env) (name : jsstring)
      (table : list (string * (AxiosInstance -> ToolArguments -> M jsvalue)))
      (client : AxiosInstance) (args : ToolArguments) :
  Forall (fun c => fst c <> "qualys_download_report"%string ->
                   forall args, answers E (snd c client args)) table ->
  name <> lit "qualys_download_report" ->
  answers E (switch name table client args).
Proof.
  intros Htable Hname. induction Htable as [|[label handler] table Hhandler _ IH]; simpl.
  - apply answers_quiet, quiet_throw.
  - destruct (str_eqb name (lit label)) eqn:Hlabel; [|exact IH].
    apply Hhandler. cbn [fst]. intros ->. apply str_eqb_eq in Hlabel. contradiction.
Qed.

(** X18: once the remote service has answered a request, the tool call
    succeeds: for every operation other than the report download, if the
    call has sent its request and the transport resolved it, the text
    returned is the serialised result and not an error.  A body that is not
    the expected markup never turns a call into a failure. *)
Theorem answered_request_gives_result
        (E : Env) (cfg : Config) (name : jsstring) (args : jsobject) (st : State)
        (r : Request) (response : Response) :
  name <> lit "qualys_download_report" ->
  sent (snd (handleToolCall E cfg name args st)) = sent st ++ [r] ->
  transport E (sent st) r = Return response ->
  exists result,
    fst (handleToolCall E cfg name args st)
    = text_content (JSON_stringify_indent2 E result).
Proof.
  intros Hname. unfold handleToolCall, checkCredentials.
  destruct (negb (nonempty (QUALYS_USERNAME cfg)) || negb (nonempty (QUALYS_PASSWORD cfg)))%bool.
  { cbn [nonempty credentials_not_configured]. intros Hsent. now apply sent_grows in Hsent. }
  destruct (getApiClient_frame cfg st) as (Fsent & _).
  destruct (getApiClient cfg st) as [client st1]. cbn [fst snd] in *.
  pose proof (@switch_answers E name (cases E) client args (cases_answer E client) Hname
                st1 r response) as Hanswers.
  rewrite Fsent in Hanswers.
  destruct (switch name (cases E) client args st1) as [[result|error] st2];
    cbn [fst snd] in *; intros Hsent Hresolved.
  - now exists result.
  - destruct (Hanswers Hsent Hresolved) as [a Ha]. discriminate.
Qed.

Lemma answered_request_gives_result_witness :
  lit "qualys_list_scanners" <> lit "qualys_download_report"
  /\ sent (snd (handleToolCall (answering simple_return) configured
                  (lit "qualys_list_scanners") (Given []) (initial_state 1700000000000)))
     = sent (initial_state 1700000000000)
       ++ [ {| via := fst (getApiClient configured (initial_state 1700000000000));
               url := lit "/api/2.0/fo/appliance/"; body := lit "action=list";
               config_headers := []; responseType := None |} ]
  /\ exists result,
      fst (handleToolCall (answering simple_return) configured
             (lit "qualys_list_scanners") (Given []) (initial_state 1700000000000))
      = text_content (JSON_stringify_indent2 (answering simple_return) result).
Proof.
  assert (Hname : lit "qualys_list_scanners" <> lit "qualys_download_report")
    by discriminate.
  split; [exact Hname|]. split; [reflexivity|].
  exact (@answered_request_gives_result (answering simple_return) configured
           (lit "qualys_list_scanners") [] (initial_state 1700000000000) _ simple_return
           Hname eq_refl eq_refl).
Defined.

(** * The endpoint of a tool *)

Lemma targets_quiet (path : string) (hdrs : list (jsstring * jsstring))
      (rtype : option jsstring) (A : Type) (m : M A) :
  quiet m -> targets path hdrs rtype m.
Proof.
  intros Hm st r Hsent. destruct (Hm st) as (H & _).
  rewrite H in Hsent. now apply sent_grows in Hsent.
Qed.

Lemma targets_bind_after (path : string) (hdrs : list (jsstring * jsstring))
      (rtype : option jsstring) (A B : Type) (m : M A) (k : A -> M B) :
  quiet m -> (forall a, targets path hdrs rtype (k a)) -> targets path hdrs rtype (bind m k).
Proof.
  intros Hm Hk st r. unfold bind. specialize (Hm st).
  destruct (m st) as [[a|e] st1]; cbn [fst snd] in *; destruct Hm as (H1 & _).
  - intros Hsent. rewrite <- H1 in Hsent. now apply (Hk a st1 r).
  - intros Hsent. rewrite H1 in Hsent. now apply sent_grows in Hsent.
Qed.

Lemma targets_bind_before (path : string) (hdrs : list (jsstring * jsstring))
      (rtype : option jsstring) (A B : Type) (m : M A) (k : A -> M B) :
  targets path hdrs rtype m -> (forall a, quiet (k a)) -> targets path hdrs rtype (bind m k).
Proof.
  intros Hm Hk st r. unfold bind. specialize (Hm st r).
  destruct (m st) as [[a|e] st1]; cbn [fst snd] in *; [|exact Hm].
  destruct (Hk a st1) as (H & _). rewrite H. exact Hm.
Qed.

Lemma targets_rateLimitedRequest (E : Env) (client : AxiosInstance) (path : string)
      (params : jsstring) (hdrs : list (jsstring * jsstring)) (rtype : option jsstring) :
  targets path hdrs rtype (rateLimitedRequest E (post E client path params hdrs rtype)).
Proof.
  intros st r Hsent. rewrite rateLimitedRequest_post_sent in Hsent.
  apply app_inj_tail in Hsent as [_ <-]. repeat split.
Qed.

Lemma targets_post_form (E : Env) (client : AxiosInstance) (path : string)
      (params : jsobject) (rtype : option jsstring) :
  targets path [] rtype (post_form E client path params rtype).
Proof.
  unfold post_form. apply targets_bind_after; [apply quiet_lift|].
  intros encoded. apply targets_rateLimitedRequest.
Qed.

Lemma targets_post_and_parse (E : Env) (client : AxiosInstance) (path : string)
      (params : jsobject) :
  targets path [] None (post_and_parse E client path params).
Proof.
  unfold post_and_parse. apply targets_bind_before; [apply targets_post_form|].
  intros response. apply quiet_lift.
Qed.

Ltac targets_steps :=
  first
    [ apply targets_post_and_parse
    | apply targets_post_form
    | apply targets_rateLimitedRequest
    | match goal with
      | |- targets _ _ _ (if ?b then _ else _) => destruct b; targets_steps
      | |- targets _ _ _ (bind _ _) =>
          first [ apply targets_bind_after; [solve [quiet_steps] | intros ?; targets_steps]
                | apply targets_bind_before; [targets_steps | intros ?; solve [quiet_steps]] ]
      end ].

Lemma cases_target (E : Env) :
  Forall (fun c => exists path hdrs rtype,
              forall client args, targets path hdrs rtype (snd c client args))
         (cases E).
Proof.
  unfold cases.
  repeat (apply Forall_cons;
          [do 3 eexists; intros client args; cbn [snd];
           try unfold reading; destruct args as [|args];
           try apply targets_quiet, quiet_throw;
           autounfold with dispatch; cbv zeta; targets_steps|]).
  apply Forall_nil.
Qed.

(** ** C9: the tag listing *)

Lemma qualys_list_tags_run (E : Env) (client : AxiosInstance) (st : State) :
  let request := {| via := client; url := lit "/qps/rest/2.0/search/am/tag";
                    body := Json.stringify_string (lit "action=list");
                    config_headers := [(lit "Content-Type", lit "application/json")];
                    responseType := None |} in
  sent (snd (qualys_list_tags E client st)) = sent st ++ [request]
  /\ fst (qualys_list_tags E client st)
     = cbind (transport E (sent st) request) (fun response => Return (data response)).
Proof.
  cbv zeta. unfold qualys_list_tags.
  change (buildFormData (object_literal [field "action" (str "list")]))
    with (Return (lit "action=list")).
  unfold bind at 1, lift. split.
  - rewrite bind_sent_after by reflexivity. apply rateLimitedRequest_post_sent.
  - pose proof (rateLimitedRequest_post_result E client "/qps/rest/2.0/search/am/tag"
                  (lit "action=list") [(lit "Content-Type", lit "application/json")]
                  None st) as Hresult.
    change (transformRequest [(lit "Content-Type", lit "application/json")]
              (lit "action=list"))
      with (Json.stringify_string (lit "action=list")) in Hresult.
    rewrite <- Hresult. unfold bind.
    destruct (rateLimitedRequest E _ st) as [[response|error] st']; reflexivity.
Qed.

(** Every case but the tag listing posts below [/api/2.0/fo/] and gives
    its request no header of its own. *)
Lemma cases_uniform (E : Env) :
  Forall (fun c => fst c = "qualys_list_tags"%string
                   \/ exists path rtype,
                       (exists rest, lit path = lit "/api/2.0/fo/" ++ rest)
                       /\ forall client args, targets path [] rtype (snd c client args))
         (cases E).
Proof.
  unfold cases.
  repeat (apply Forall_cons;
          [first [ left; reflexivity
                 | right; do 2 eexists; split;
                   [|intros client args; cbn [snd]; unfold reading;
                     destruct args as [|args];
                     [apply targets_quiet, quiet_throw|];
                     autounfold with dispatch; cbv zeta; targets_steps];
                   eexists; reflexivity ]|]).
  apply Forall_nil.
Qed.

(** C9: with credentials configured, the tag listing posts to
    [/qps/rest/2.0/search/am/tag] with the header [Content-Type:
    application/json]; the body on the wire is a JSON text, the JSON string
    of the form-encoded text [action=list], which is what axios makes of a
    string under that content type; and the call gives back the response
    body without normalizing it.  It is the one exception on the wire:
    every request of every other operation goes to a path below
    [/api/2.0/fo/] and carries no header of its own. *)
Theorem list_tags_sends_json_body
        (E : Env) (cfg : Config) (args : ToolArguments) (st : State) :
  nonempty (QUALYS_USERNAME cfg) = true ->
  nonempty (QUALYS_PASSWORD cfg) = true ->
  let request := {| via := fst (getApiClient cfg st);
                    url := lit "/qps/rest/2.0/search/am/tag";
                    body := Json.quotation_mark :: lit "action=list" ++ [Json.quotation_mark];
                    config_headers := [(lit "Content-Type", lit "application/json")];
                    responseType := None |} in
  sent (snd (handleToolCall E cfg (lit "qualys_list_tags") args st)) = sent st ++ [request]
  /\ Json.parses (body request) = true
  /\ body request = Json.stringify_string (lit "action=list")
  /\ buildFormData (object_literal [field "action" (str "list")])
     = Return (lit "action=list")
  /\ (forall response,
         transport E (sent st) request = Return response ->
         fst (handleToolCall E cfg (lit "qualys_list_tags") args st)
         = text_content (JSON_stringify_indent2 E (data response)))
  /\ (forall name cfg' args' st' r,
         name <> lit "qualys_list_tags" ->
         sent (snd (handleToolCall E cfg' name args' st')) = sent st' ++ [r] ->
         config_headers r = []
         /\ exists rest, url r = lit "/api/2.0/fo/" ++ rest).
Proof.
  intros Hu Hp. cbv zeta.
  split; [|split; [reflexivity|split; [reflexivity|split; [reflexivity|split]]]].
  - rewrite (handleToolCall_configured E cfg Hu Hp).
    change (switch (lit "qualys_list_tags") (cases E) ?client ?args)
      with (qualys_list_tags E client).
    destruct (qualys_list_tags_run E (fst (getApiClient cfg st)) (snd (getApiClient cfg st)))
      as [Hsent _].
    rewrite getApiClient_sent in Hsent.
    destruct (qualys_list_tags E (fst (getApiClient cfg st)) (snd (getApiClient cfg st)))
      as [[result|error] st2]; exact Hsent.
  - intros response Hr.
    rewrite (handleToolCall_configured E cfg Hu Hp).
    change (switch (lit "qualys_list_tags") (cases E) ?client ?args)
      with (qualys_list_tags E client).
    destruct (qualys_list_tags_run E (fst (getApiClient cfg st)) (snd (getApiClient cfg st)))
      as [_ Hresult].
    rewrite getApiClient_sent in Hresult.
    change (Json.stringify_string (lit "action=list"))
      with (Json.quotation_mark :: lit "action=list" ++ [Json.quotation_mark]) in Hresult.
    rewrite Hr in Hresult.
    destruct (qualys_list_tags E (fst (getApiClient cfg st)) (snd (getApiClient cfg st)))
      as [[result|error] st2]; cbn [fst snd cbind] in *; [congruence | discriminate].
  - intros name cfg' args' st' r Hname.
    assert (Hcase : exists path rtype,
               (exists rest, lit path = lit "/api/2.0/fo/" ++ rest)
               /\ forall client a, targets path [] rtype (switch name (cases E) client a)).
    { induction (cases_uniform E) as [|[label handler] table Hhandler _ IH].
      - exists "/api/2.0/fo/"%string, None. split; [now exists []|].
        intros client a. apply targets_quiet, quiet_throw.
      - cbn [switch]. destruct (str_eqb name (lit label)) eqn:Hlabel; [|exact IH].
        apply str_eqb_eq in Hlabel. destruct Hhandler as [Htags | Hhandler].
        + cbn [fst] in Htags. subst label. contradiction.
        + exact Hhandler. }
    destruct Hcase as (path & rtype & [rest Hpath] & Hcase).
    unfold handleToolCall, checkCredentials.
    destruct (negb (nonempty (QUALYS_USERNAME cfg')) || negb (nonempty (QUALYS_PASSWORD cfg')))%bool.
    { cbn [nonempty credentials_not_configured]. intros Hsent.
      now apply sent_grows in Hsent. }
    destruct (getApiClient_frame cfg' st') as (Fsent & _).
    destruct (getApiClient cfg' st') as [client s1]. cbn [fst snd] in *.
    specialize (Hcase client args' s1 r). rewrite Fsent in Hcase.
    intros Hsent.
    assert (Htarget : url r = lit path /\ config_headers r = [] /\ responseType r = rtype).
    { destruct (switch name (cases E) client args' s1) as [[result|error] s2];
        exact (Hcase Hsent). }
    destruct Htarget as (Hurl & Hhdrs & _). split; [exact Hhdrs|].
    exists rest. now rewrite Hurl.
Qed.

Lemma list_tags_sends_json_body_witness :
  nonempty (QUALYS_USERNAME configured) = true
  /\ nonempty (QUALYS_PASSWORD configured) = true
  /\ map (fun r => (url r, body r, config_headers r))
       (sent (snd (handleToolCall offline configured (lit "qualys_list_tags") Omitted
                     (initial_state 1700000000000))))
     = [(lit "/qps/rest/2.0/search/am/tag",
         Json.quotation_mark :: lit "action=list" ++ [Json.quotation_mark],
         [(lit "Content-Type", lit "application/json")])].
Proof.
  split; [reflexivity|]. split; [reflexivity|].
  rewrite (proj1 (@list_tags_sends_json_body offline configured Omitted
                    (initial_state 1700000000000) eq_refl eq_refl)).
  reflexivity.
Defined.

(** X19: the arguments of a tool call do not choose where the request
    goes: two calls of the same operation, whatever their arguments, their
    configuration and the state, send their requests to the same path,
    with the same headers of their own and the same response type. *)
Theorem arguments_do_not_choose_the_endpoint
        (E : Env) (cfg cfg' : Config) (name : jsstring) (args args' : jsobject)
        (st st' : State) (r r' : Request) :
  sent (snd (handleToolCall E cfg name args st)) = sent st ++ [r] ->
  sent (snd (handleToolCall E cfg' name args' st')) = sent st' ++ [r'] ->
  url r = url r'
  /\ config_headers r = config_headers r'
  /\ responseType r = responseType r'.
Proof.
  assert (Hcase : exists path hdrs rtype,
             forall client args, targets path hdrs rtype (switch name (cases E) client args)).
  { induction (cases_target E) as [|[label handler] table (path & hdrs & rtype & H) _ IH].
    - exists ""%string, [], None. intros client a. apply targets_quiet, quiet_throw.
    - cbn [switch]. destruct (str_eqb name (lit label)).
      + exists path, hdrs, rtype. exact H.
      + exact IH. }
  destruct Hcase as (path & hdrs & rtype & Hcase).
  assert (Hcall : forall c a s q,
             sent (snd (handleToolCall E c name a s)) = sent s ++ [q] ->
             url q = lit path /\ config_headers q = hdrs /\ responseType q = rtype).
  { intros c a s q. unfold handleToolCall, checkCredentials.
    destruct (negb (nonempty (QUALYS_USERNAME c)) || negb (nonempty (QUALYS_PASSWORD c)))%bool.
    { cbn [nonempty credentials_not_configured]. intros Hsent.
      now apply sent_grows in Hsent. }
    destruct (getApiClient_frame c s) as (Fsent & _).
    destruct (getApiClient c s) as [client s1]. cbn [fst snd] in *.
    specialize (Hcase client a s1 q). rewrite Fsent in Hcase.
    destruct (switch name (cases E) client a s1) as [[result|error] s2]; exact Hcase. }
  intros Hr Hr'. destruct (Hcall _ _ _ _ Hr) as (H1 & H2 & H3).
  destruct (Hcall _ _ _ _ Hr') as (H1' & H2' & H3').
  repeat split; congruence.
Qed.

Lemma arguments_do_not_choose_the_endpoint_witness :
  sent (snd (handleToolCall offline configured (lit "qualys_list_scans")
               (Given [field "state" (str "Running")]) (initial_state 1700000000000)))
  = sent (initial_state 1700000000000)
    ++ [ {| via := fst (getApiClient configured (initial_state 1700000000000));
            url := lit "/api/2.0/fo/scan/"; body := lit "action=list&state=Running";
            config_headers := []; responseType := None |} ]
  /\ sent (snd (handleToolCall offline configured (lit "qualys_list_scans")
                  (Given [field "scan_ref" (str "scan/1")]) (initial_state 1700000005000)))
     = sent (initial_state 1700000005000)
       ++ [ {| via := fst (getApiClient configured (initial_state 1700000005000));
               url := lit "/api/2.0/fo/scan/"; body := lit "action=list&scan_ref=scan%2F1";
               config_headers := []; responseType := None |} ]
  /\ url {| via := fst (getApiClient configured (initial_state 1700000000000));
            url := lit "/api/2.0/fo/scan/"; body := lit "action=list&state=Running";
            config_headers := []; responseType := None |}
     = url {| via := fst (getApiClient configured (initial_state 1700000005000));
              url := lit "/api/2.0/fo/scan/"; body := lit "action=list&scan_ref=scan%2F1";
              config_headers := []; responseType := None |}.
Proof.
  split; [reflexivity|]. split; [reflexivity|].
  exact (proj1 (@arguments_do_not_choose_the_endpoint offline configured configured
                  (lit "qualys_list_scans")
                  [field "state" (str "Running")] [field "scan_ref" (str "scan/1")]
                  (initial_state 1700000000000) (initial_state 1700000005000) _ _
                  eq_refl eq_refl)).
Defined.

(** * The action of a tool *)

Lemma encodeURIComponent_plain (s : jsstring) :
  forallb unreserved s = true -> encodeURIComponent s = Return s.
Proof.
  induction s as [|c s IH]; [reflexivity|]. cbn [forallb encodeURIComponent].
  intros H. apply andb_true_iff in H as [Hc Hs]. now rewrite Hc, (IH Hs).
Qed.

Lemma buildFormData_begins_with_action (verb : string) (params : jsobject)
      (encoded : jsstring) :
  begins_with_action verb params ->
  buildFormData params = Return encoded ->
  body_begins_with_action verb encoded.
Proof.
  intros ([rest ->] & Hkeys & Hplain & Hverb). unfold buildFormData.
  rewrite (Object_entries_insertion_order _ Hkeys).
  assert (Hkept : kept (lit "action", JString (lit verb)) = true).
  { unfold kept. cbn [snd is_undefined is_string negb andb].
    destruct (lit verb); [discriminate | reflexivity]. }
  cbn [filter]. rewrite Hkept. cbn [map_throwing].
  assert (Hrender : render (lit "action", JString (lit verb))
                    = Return (lit "action=" ++ lit verb)).
  { unfold render, String_of_value. cbn [fst snd ToString has_string_form cbind].
    change (encodeURIComponent (lit "action")) with (Return (lit "action")).
    cbn [cbind]. rewrite (encodeURIComponent_plain _ Hplain). reflexivity. }
  rewrite Hrender. cbn [cbind].
  destruct (map_throwing render (filter kept rest)) as [entries|]; [|discriminate].
  intros H. injection H as <-. unfold body_begins_with_action.
  destruct entries as [|next entries].
  - left. cbn [join]. reflexivity.
  - right. exists (join (lit "&") (next :: entries)). reflexivity.
Qed.

Lemma acts_quiet (verb : string) (A : Type) (m : M A) : quiet m -> acts verb m.
Proof.
  intros Hm st r Hsent. destruct (Hm st) as (H & _).
  rewrite H in Hsent. now apply sent_grows in Hsent.
Qed.

Lemma acts_bind_returns (verb : string) (A B : Type) (P : A -> Prop)
      (m : M A) (k : A -> M B) :
  quiet m ->
  (forall st a, fst (m st) = Return a -> P a) ->
  (forall a, P a -> acts verb (k a)) ->
  acts verb (bind m k).
Proof.
  intros Hm Hreturns Hk st r. unfold bind. specialize (Hm st). specialize (Hreturns st).
  destruct (m st) as [[a|e] st1]; cbn [fst snd] in *; destruct Hm as (H1 & _).
  - intros Hsent. rewrite <- H1 in Hsent. now apply (Hk a (Hreturns a eq_refl) st1 r).
  - intros Hsent. rewrite H1 in Hsent. now apply sent_grows in Hsent.
Qed.

Lemma acts_bind_after (verb : string) (A B : Type) (m : M A) (k : A -> M B) :
  quiet m -> (forall a, acts verb (k a)) -> acts verb (bind m k).
Proof.
  intros Hm Hk. apply (@acts_bind_returns verb A B (fun _ => True)); auto.
Qed.

Lemma acts_bind_before (verb : string) (A B : Type) (m : M A) (k : A -> M B) :
  acts verb m -> (forall a, quiet (k a)) -> acts verb (bind m k).
Proof.
  intros Hm Hk st r. unfold bind. specialize (Hm st r).
  destruct (m st) as [[a|e] st1]; cbn [fst snd] in *; [|exact Hm].
  destruct (Hk a st1) as (H & _). rewrite H. exact Hm.
Qed.

Lemma acts_encoded (verb : string) (E : Env) (client : AxiosInstance) (path : string)
      (params : jsobject) (rtype : option jsstring) :
  begins_with_action verb params ->
  acts verb (bind (lift (buildFormData params))
                  (fun encoded => rateLimitedRequest E (post E client path encoded [] rtype))).
Proof.
  intros Hparams.
  apply (@acts_bind_returns verb _ _ (body_begins_with_action verb)).
  - apply quiet_lift.
  - intros st encoded. unfold lift. cbn [fst].
    now apply buildFormData_begins_with_action.
  - intros encoded Hencoded st r Hsent. rewrite rateLimitedRequest_post_sent in Hsent.
    apply app_inj_tail in Hsent as [_ <-]. exact Hencoded.
Qed.

Lemma acts_post_form (verb : string) (E : Env) (client : AxiosInstance) (path : string)
      (params : jsobject) (rtype : option jsstring) :
  begins_with_action verb params -> acts verb (post_form E client path params rtype).
Proof. intros H. unfold post_form. now apply acts_encoded. Qed.

Lemma acts_post_and_parse (verb : string) (E : Env) (client : AxiosInstance) (path : string)
      (params : jsobject) :
  begins_with_action verb params -> acts verb (post_and_parse E client path params).
Proof.
  intros H. unfold post_and_parse. apply acts_bind_before; [now apply acts_post_form|].
  intros response. apply quiet_lift.
Qed.

Lemma begins_with_action_prop_set (verb : string) (k : string) (v : jsvalue) (o : jsobject) :
  str_eqb (lit k) (lit "action") = false ->
  is_array_index (lit k) = false ->
  begins_with_action verb o ->
  begins_with_action verb (prop_set (lit k) v o).
Proof.
  intros Hk Hindex ([rest ->] & Hkeys & Hplain & Hverb).
  cbn [prop_set]. rewrite Hk. repeat split; try assumption.
  - eexists. reflexivity.
  - unfold no_index_key in *. cbn [forallb] in *.
    apply andb_true_iff in Hkeys as [Hhead Hrest]. rewrite Hhead. cbn [andb].
    clear Hhead. induction rest as [|[k' v'] rest IH]; cbn [prop_set forallb fst].
    + now rewrite Hindex.
    + cbn [forallb fst] in Hrest. apply andb_true_iff in Hrest as [Hk' Hrest].
      destruct (str_eqb (lit k) k'); cbn [forallb fst]; rewrite Hk'; cbn [andb];
        [exact Hrest | now apply IH].
Qed.

Ltac begins :=
  repeat first
    [ solve [split; [eexists; reflexivity | split; [reflexivity | split; reflexivity]]]
    | match goal with
      | |- begins_with_action _ (if ?b then _ else _) => destruct b
      | |- begins_with_action _ (prop_set _ _ _) =>
          apply begins_with_action_prop_set; [reflexivity | reflexivity |]
      end ].

Lemma acts_qualys_get_knowledgebase_by_cve (E : Env) (client : AxiosInstance)
      (args : jsobject) :
  acts "list" (qualys_get_knowledgebase_by_cve E client args).
Proof.
  unfold qualys_get_knowledgebase_by_cve. cbv zeta.
  apply (@acts_bind_returns "list" _ _ (begins_with_action "list")).
  - quiet_steps.
  - intros st a. destruct (truthy (arg args "last_modified_within_days")).
    + unfold bind, Date_now, lift, ret. cbn [fst snd].
      destruct (iso_date_days_before E (clock st) (arg args "last_modified_within_days"));
        [|discriminate].
      cbn [fst]. intros H. injection H as <-. begins.
    + unfold ret. cbn [fst]. intros H. injection H as <-. begins.
  - intros a Ha. apply acts_post_and_parse. begins. exact Ha.
Qed.

Ltac acts_steps :=
  first
    [ apply acts_qualys_get_knowledgebase_by_cve
    | apply acts_post_and_parse; solve [begins]
    | apply acts_post_form; solve [begins]
    | apply acts_encoded; solve [begins]
    | match goal with
      | |- acts _ (if ?b then _ else _) => destruct b; acts_steps
      | |- acts _ (bind _ _) =>
          first [ apply acts_bind_after; [solve [quiet_steps] | intros ?; acts_steps]
                | apply acts_bind_before; [acts_steps | intros ?; solve [quiet_steps]] ]
      end ].

Lemma cases_act (E : Env) :
  Forall (fun c => fst c = "qualys_list_tags"%string
                   \/ exists verb,
                       In verb actions
                       /\ forall client args, acts verb (snd c client args))
         (cases E).
Proof.
  unfold cases, actions.
  repeat (apply Forall_cons;
          [first [ left; reflexivity
                 | right; eexists; split;
                   [|intros client args; cbn [snd]; unfold reading;
                     destruct args as [|args];
                     [apply acts_quiet, quiet_throw|];
                     first [ apply acts_qualys_get_knowledgebase_by_cve
                           | autounfold with dispatch; acts_steps ]];
                   in_list ]|]).
  apply Forall_nil.
Qed.

(** X20: the action of a request is set by the tool: for every operation
    other than the tag listing (whose body is a JSON string) there is one
    action word, among [list], [launch], [fetch], [cancel], [pause] and
    [resume], such that the body of every request the operation sends has
    [action=<word>] as its first parameter, whatever the arguments, the
    configuration and the state.  Arguments add parameters after it and
    never replace, extend or precede it. *)
Theorem action_is_fixed_by_the_tool (E : Env) (name : jsstring) :
  name <> lit "qualys_list_tags" ->
  exists verb,
    In verb actions
    /\ forall cfg args st r,
        sent (snd (handleToolCall E cfg name args st)) = sent st ++ [r] ->
        body r = lit "action=" ++ lit verb
        \/ exists tail, body r = lit "action=" ++ lit verb ++ lit "&" ++ tail.
Proof.
  intros Hname.
  assert (Hcase : exists verb,
             In verb actions
             /\ forall client args, acts verb (switch name (cases E) client args)).
  { induction (cases_act E) as [|[label handler] table Hhandler _ IH].
    - exists "list"%string. split; [now left|].
      intros client a. apply acts_quiet, quiet_throw.
    - cbn [switch]. destruct (str_eqb name (lit label)) eqn:Hlabel; [|exact IH].
      apply str_eqb_eq in Hlabel. destruct Hhandler as [Htags | Hhandler].
      + cbn [fst] in Htags. subst label. contradiction.
      + exact Hhandler. }
  destruct Hcase as (verb & Hverb & Hcase). exists verb. split; [exact Hverb|].
  intros cfg args st r. unfold handleToolCall, checkCredentials.
  destruct (negb (nonempty (QUALYS_USERNAME cfg)) || negb (nonempty (QUALYS_PASSWORD cfg)))%bool.
  { cbn [nonempty credentials_not_configured]. intros Hsent.
    now apply sent_grows in Hsent. }
  destruct (getApiClient_frame cfg st) as (Fsent & _).
  destruct (getApiClient cfg st) as [client st1]. cbn [fst snd] in *.
  specialize (Hcase client args st1 r). rewrite Fsent in Hcase.
  destruct (switch name (cases E) client args st1) as [[result|error] st2]; exact Hcase.
Qed.

Lemma action_is_fixed_by_the_tool_witness :
  lit "qualys_launch_scan" <> lit "qualys_list_tags"
  /\ map body
       (sent (snd (handleToolCall offline configured (lit "qualys_launch_scan")
                     (Given [field "scan_title" (str "weekly"); field "ip" (str "10.0.0.1");
                             field "action" (str "cancel")])
                     (initial_state 1700000000000))))
     = [lit "action=launch&scan_title=weekly&ip=10.0.0.1"]
  /\ exists verb,
      In verb actions
      /\ forall cfg args st r,
          sent (snd (handleToolCall offline cfg (lit "qualys_launch_scan") args st))
          = sent st ++ [r] ->
          body r = lit "action=" ++ lit verb
          \/ exists tail, body r = lit "action=" ++ lit verb ++ lit "&" ++ tail.
Proof.
  assert (Hname : lit "qualys_launch_scan" <> lit "qualys_list_tags") by discriminate.
  split; [exact Hname|]. split; [reflexivity|].
  exact (@action_is_fixed_by_the_tool offline (lit "qualys_launch_scan") Hname).
Defined.
